(** * Kjer: the state gate and the scan / defend engine of the desktop GUI

    A shallow embedding of the parts of [desktop/main.js] (the Electron main
    process) and of the renderer script that follows it in the same source
    file: the tool catalogue and role registry, the installed-tools readers,
    the scan engine, the defence engine, the install toggle, activation and
    initialisation, together with the [setTimeout] queue that drives them.

    Conventions of the embedding.
    - JavaScript numbers that come from [Math.random] or from the clock are
      [Z]; counters and lengths are [nat].
    - [localStorage] is a finite map from keys to stored texts.
    - A [setTimeout] callback is a constructor of [Task]; the closure's
      captured mutable object is a reference into a heap of the world.
    - DOM rendering is left out; the Security Monitor, the Activity Log and
      the notification toasts are kept as lists of entries. *)

From Stdlib Require Import ZArith Lia Ascii String.
From stdpp Require Import base option list strings gmap pretty.

Local Open Scope string_scope.

(** ** JavaScript string helpers (ASCII semantics) *)

Module JS.

Definition is_upper (c : ascii) : bool :=
  let n := nat_of_ascii c in (65 <=? n)%nat && (n <=? 90)%nat.

Definition is_lower (c : ascii) : bool :=
  let n := nat_of_ascii c in (97 <=? n)%nat && (n <=? 122)%nat.

Definition upper_char (c : ascii) : ascii :=
  if is_lower c then ascii_of_nat (nat_of_ascii c - 32) else c.

Definition lower_char (c : ascii) : ascii :=
  if is_upper c then ascii_of_nat (nat_of_ascii c + 32) else c.

Fixpoint map_chars (f : ascii -> ascii) (s : string) : string :=
  match s with
  | EmptyString => EmptyString
  | String c r => String (f c) (map_chars f r)
  end.

(** [s.toUpperCase()] and [s.toLowerCase()]. *)
Definition toUpperCase : string -> string := map_chars upper_char.
Definition toLowerCase : string -> string := map_chars lower_char.

(** White space removed by [trim]: space, tab, line feed, vertical tab,
    form feed and carriage return. *)
Definition is_space (c : ascii) : bool :=
  let n := nat_of_ascii c in
  (n =? 32)%nat || ((9 <=? n)%nat && (n <=? 13)%nat).

Fixpoint trimStart (s : string) : string :=
  match s with
  | EmptyString => EmptyString
  | String c r => if is_space c then trimStart r else s
  end.

Fixpoint trimEnd (s : string) : string :=
  match s with
  | EmptyString => EmptyString
  | String c r =>
      match trimEnd r with
      | EmptyString => if is_space c then EmptyString else String c EmptyString
      | r' => String c r'
      end
  end.

(** [s.trim()]. *)
Definition trim (s : string) : string := trimEnd (trimStart s).

Fixpoint startsWith (p s : string) : bool :=
  match p, s with
  | EmptyString, _ => true
  | String a p', String b s' => if Ascii.eqb a b then startsWith p' s' else false
  | String _ _, EmptyString => false
  end.

(** [s.includes(p)] on strings. *)
Fixpoint includes (p s : string) : bool :=
  startsWith p s ||
  match s with
  | EmptyString => false
  | String _ s' => includes p s'
  end.

(** [arr.includes(x)] on an array of strings. *)
Definition arr_includes (arr : list string) (x : string) : bool :=
  bool_decide (x ∈ arr).

(** A text of ASCII characters only.  For such a text the helpers above,
    which work on bytes, agree with the code's [trim], [toUpperCase],
    [toLowerCase], [includes] and [length], which work on UTF-16 units. *)
Definition is_ascii (s : string) : bool :=
  forallb (fun c => (nat_of_ascii c <? 128)%nat) (list_ascii_of_string s).

(** Interpolation of a possibly missing property into a template literal:
    [undefined] prints as the text "undefined". *)
Definition interpolate (o : option string) : string :=
  default "undefined" o.

End JS.

(** ** The tool catalogue [TOOLS_DATABASE] and the role registry [TOOL_ROLES] *)

Record Score := mkScore { windows : Z; macos : Z; linux : Z }.

(** A catalogue entry.  The descriptive properties of the object literals
    (icon, description, detailedDescription, status, version, url, size_mb,
    priority) are texts shown on the tool card and are left out.  [id] is the
    property the second installed-tools reader asks for; a property that an
    object literal does not list reads as [undefined], here [None]. *)
Record Tool := {
  name : string;
  category : string;
  osCompatibility : list string;
  compatibilityScore : Score;
  dependencies : list string;
  id : option string
}.

(** An object literal of the catalogue: it lists the properties above and no
    [id]. *)
Definition mkTool (n c : string) (os : list string) (sc : Score)
    (deps : list string) : Tool :=
  {| name := n; category := c; osCompatibility := os;
     compatibilityScore := sc; dependencies := deps; id := None |}.

(** The catalogue, in declaration order (the order of [Object.keys]). *)
Definition TOOLS_DATABASE : list (string * Tool) := [
    ("windows-defender", mkTool "Windows Defender" "EDR" ["windows"] (mkScore 98 0 0) []);
    ("malwarebytes", mkTool "Malwarebytes" "EDR" ["windows"; "macos"; "linux"] (mkScore 95 90 80) []);
    ("kaspersky", mkTool "Kaspersky Endpoint Security" "EDR" ["windows"; "macos"; "linux"] (mkScore 92 85 75) []);
    ("wireshark", mkTool "Wireshark" "Network" ["windows"; "macos"; "linux"] (mkScore 90 88 95) ["libpcap"]);
    ("suricata", mkTool "Suricata" "Network" ["linux"; "macos"] (mkScore 60 85 98) ["libjansson"; "libpcap"]);
    ("zeek", mkTool "Zeek (Bro)" "Network" ["linux"; "macos"] (mkScore 50 82 96) ["libpcap"; "openssl"]);
    ("ghidra", mkTool "Ghidra" "Analysis" ["windows"; "macos"; "linux"] (mkScore 88 87 92) ["java"]);
    ("ida-pro", mkTool "IDA Pro" "Analysis" ["windows"; "linux"] (mkScore 94 60 85) []);
    ("volatility", mkTool "Volatility" "Analysis" ["windows"; "macos"; "linux"] (mkScore 91 87 93) ["python3"]);
    ("splunk", mkTool "Splunk Enterprise" "SIEM" ["windows"; "linux"] (mkScore 90 50 96) ["python3"; "java"]);
    ("elastic-stack", mkTool "Elastic Stack (ELK)" "SIEM" ["windows"; "linux"; "macos"] (mkScore 88 85 98) ["java"]);
    ("nessus", mkTool "Nessus Professional" "Vulnerability" ["windows"; "linux"] (mkScore 92 50 94) []);
    ("openvas", mkTool "OpenVAS" "Vulnerability" ["linux"] (mkScore 40 60 98) ["openssl"; "glib2"]);
    ("cis-cat", mkTool "CIS-CAT Pro" "Hardening" ["windows"; "linux"] (mkScore 89 70 87) ["java"]);
    ("osquery", mkTool "OSQuery" "Hardening" ["windows"; "macos"; "linux"] (mkScore 86 89 91) []);
    ("gvm", mkTool "GVM" "Vulnerability" ["linux"; "macos"] (mkScore 60 85 98) ["go"]);
    ("fail2ban", mkTool "Fail2ban" "Defense" ["linux"] (mkScore 0 0 99) ["python3"]);
    ("lynis", mkTool "Lynis" "Hardening" ["linux"; "macos"] (mkScore 0 75 99) []);
    ("aide", mkTool "AIDE" "Hardening" ["linux"] (mkScore 0 0 99) []);
    ("chkrootkit", mkTool "Chkrootkit" "Defense" ["linux"] (mkScore 0 0 98) []);
    ("rkhunter", mkTool "Rkhunter" "Defense" ["linux"] (mkScore 0 0 97) []);
    ("clamav", mkTool "ClamAV" "EDR" ["linux"; "windows"; "macos"] (mkScore 75 80 98) []);
    ("tiger", mkTool "TIGER" "Hardening" ["linux"] (mkScore 0 0 96) ["perl"]);
    ("tripwire", mkTool "Tripwire" "Hardening" ["linux"] (mkScore 0 0 98) []);
    ("apparmor", mkTool "AppArmor" "Defense" ["linux"] (mkScore 0 0 99) []);
    ("selinux", mkTool "SELinux" "Defense" ["linux"] (mkScore 0 0 99) []);
    ("ufw", mkTool "UFW" "Defense" ["linux"] (mkScore 0 0 98) []);
    ("auditd", mkTool "Auditd" "Hardening" ["linux"] (mkScore 0 0 99) [])
  ].

(** [TOOL_ROLES]: role name to catalogue keys. *)
Definition TOOL_ROLES : list (string * list string) := [
    ("network_scan",    ["wireshark"; "suricata"; "zeek"]);
    ("vuln_scan",       ["nessus"; "openvas"; "gvm"]);
    ("malware_scan",    ["clamav"; "rkhunter"; "chkrootkit"; "malwarebytes"; "windows-defender"; "kaspersky"]);
    ("integrity_scan",  ["aide"; "tripwire"]);
    ("memory_scan",     ["volatility"]);
    ("compliance_scan", ["lynis"; "cis-cat"; "osquery"; "auditd"; "tiger"]);
    ("siem",            ["splunk"; "elastic-stack"]);
    ("firewall",        ["ufw"; "apparmor"; "selinux"]);
    ("ips",             ["suricata"; "fail2ban"]);
    ("av_remediate",    ["clamav"; "malwarebytes"; "windows-defender"; "kaspersky"; "rkhunter"; "chkrootkit"])
  ].

(** [obj[k]] on an object literal given as its list of entries. *)
Fixpoint prop {A} (obj : list (string * A)) (k : string) : option A :=
  match obj with
  | [] => None
  | (k', v) :: rest => if String.eqb k' k then Some v else prop rest k
  end.

(** [TOOL_ROLES[r] || []]. *)
Definition role_keys (r : string) : list string :=
  default [] (prop TOOL_ROLES r).

(** ** Severity levels and the records of the engine *)

(** The level texts ['info'], ['success'], ['warning'], ['error'] and
    ['critical']. *)
Inductive Level := LInfo | LSuccess | LWarning | LError | LCritical.

Global Instance Level_eq_dec : EqDecision Level.
Proof. solve_decision. Defined.

Definition level_text (l : Level) : string :=
  match l with
  | LInfo => "info" | LSuccess => "success" | LWarning => "warning"
  | LError => "error" | LCritical => "critical"
  end.

(** [{ key: k, ...TOOLS_DATABASE[k] }], the object [getToolsByRole] builds. *)
Record ToolView := { key : string; entry : Tool }.

(** A finding as [_runToolScan] returns it.  [flagged] is the property the
    scan engine reads when it fills the low bucket; an object without it
    reads as [undefined] ([None]). *)
Module Finding.
Record t := mk {
  phase : string;
  tool : string;
  key : string;
  level : Level;
  message : string;
  flagged : option bool
}.
End Finding.

(** The [results] object of one scan. [completedAt] is absent until the
    summary unit sets it. *)
Record ScanResults := {
  startedAt : Z;
  completedAt : option Z;
  findings : list Finding.t;
  critical : nat;
  high : nat;
  medium : nat;
  low : nat;
  toolsRun : nat
}.

(** The variables of one [activateSmartDefense] call that its timer
    callbacks close over.  [scanResults] is the reference read from
    [window.KjerLastScanResults] on entry; [findings] and
    [scanResults.critical] are read through it. *)
Record DefenseRun := {
  scanResults : option nat;
  hasScanData : bool;
  hasNetworkThreat : bool;
  hasMalware : bool;
  hasIntegrityViolation : bool;
  hasComplianceGap : bool;
  hasMemoryThreat : bool;
  hasVulns : bool;
  broadMode : bool;
  actionsTotal : nat;
  toolsEngaged : gset string
}.

(** The six defence phases, in the order the function lists them. *)
Inductive DefPhase :=
  | NetworkPerimeter | MalwareContainment | AccessControl
  | FileIntegrity | AuditHardening | SiemAlertRules.

(** The callbacks handed to [setTimeout]. *)
Inductive Task :=
  | TSection (title : string)
  | TScanProbe (results : nat) (tool : ToolView) (phaseName : string)
  | TScanSummary (results : nat)
  | TDefend (run : nat) (ph : DefPhase) (tool : ToolView)
  | TDefenseSummary (run : nat)
  | TInitializeAfterActivation
  | TInitializationComplete.

Record Timer := { due : Z; task : Task }.

(** The timers of the toasts.  A toast that is shown sets a timer of its
    own: after 4000 ms the toast gets the [exit] class, and that callback
    sets a second timer that removes the element 300 ms later.  Both
    callbacks touch the page only.  They are kept in a queue of their own,
    beside the queue of the engine's callbacks above, which they neither
    read nor change. *)
Inductive ToastTask := ToastExit (message : string) | ToastRemove (message : string).

Record ToastTimer := { toast_due : Z; toast_task : ToastTask }.

(** Entries of [SecurityMonitor.entries] and [ActivityLog.entries]; the
    formatted time text is kept as the clock value. *)
Inductive EntryType := Result | SectionHeader | Divider.

Record MonitorEntry := {
  m_time : Z; m_tool : string; m_message : string; m_level : Level;
  m_type : EntryType
}.

Record ActivityEntry := {
  a_time : Z; a_level : Level; a_message : string; a_tool : string;
  a_important : bool
}.

(** Values of the installed-tools object: [true] (second reader) or
    [{ status, timestamp }] (written by [setToolInstalled]). *)
Inductive InstalledVal := ITrue | IMeta (status : string) (timestamp : Z).

Global Instance InstalledVal_eq_dec : EqDecision InstalledVal.
Proof. solve_decision. Defined.

(** A stored text.  The JSON text kept under ['installedTools'] is held as
    the object it serialises ([JSON.parse] of [JSON.stringify] gives the
    object back); every other text is held as it is. *)
Inductive LSVal := LStr (s : string) | LInstalled (o : gmap string InstalledVal).

Global Instance LSVal_eq_dec : EqDecision LSVal.
Proof. solve_decision. Defined.

(** ** The main process: [~/.kjer] and the [read-install-state] handler *)

Module MainProcess.

(** What the installer wrote into [install_state.json]. *)
Record InstallStateFile := {
  os : option string;
  distro : option string;
  installed_at : option string;
  install_path : option string
}.

(** Outcome of [JSON.parse(fs.readFileSync(stateFile))]: the file is
    missing or its text is not JSON (both throw), or it holds an object. *)
Inductive StateFile := Missing | NotJson | Holds (f : InstallStateFile).

(** The [state] object of the reply: the file's fields and [initialized]. *)
Record State := {
  s_os : option string;
  s_distro : option string;
  s_installed_at : option string;
  s_install_path : option string;
  initialized : bool
}.

Record Reply := { success : bool; state : option State; error : option string }.

(** The message of the error that [readFileSync] or [JSON.parse] throws;
    its wording is Node's and is not modelled. *)
Definition error_message (f : StateFile) : string :=
  match f with
  | Missing => "ENOENT"
  | NotJson => "SyntaxError"
  | Holds _ => ""
  end.

(** The handler of ['read-install-state'].  [initFlagExists] is
    [fs.existsSync(initFlag)]. *)
Definition read_install_state (stateFile : StateFile) (initFlagExists : bool) : Reply :=
  let initialized := initFlagExists in
  match stateFile with
  | Holds f =>
      {| success := true;
         state := Some {| s_os := os f; s_distro := distro f;
                          s_installed_at := installed_at f;
                          s_install_path := install_path f;
                          initialized := initialized |};
         error := None |}
  | _ =>
      {| success := initialized;
         state := if initialized
                  then Some {| s_os := None; s_distro := None; s_installed_at := None;
                               s_install_path := None; initialized := initialized |}
                  else None;
         error := Some (error_message stateFile) |}
  end.

End MainProcess.

(** The files the GUI reads and writes: in [~/.kjer] the installer's state
    file, the [initialized] flag file and the saved licence (key and type);
    and the [version] of the application's [version.json], if readable. *)
Record Disk := {
  install_state_json : MainProcess.StateFile;
  initialized_flag : bool;
  license_key_json : option (string * string);
  version_json : option string
}.

Definition touch_initialized (d : Disk) : Disk :=
  {| install_state_json := install_state_json d; initialized_flag := true;
     license_key_json := license_key_json d; version_json := version_json d |}.

Definition write_license (key type : string) (d : Disk) : Disk :=
  {| install_state_json := install_state_json d; initialized_flag := initialized_flag d;
     license_key_json := Some (key, type); version_json := version_json d |}.

Definition set_license (l : option (string * string)) (d : Disk) : Disk :=
  {| install_state_json := install_state_json d; initialized_flag := initialized_flag d;
     license_key_json := l; version_json := version_json d |}.

(** What the renderer sees of its host: the user agent; whether
    [window.electronAPI] is exposed (Electron) or not (a plain browser);
    the message of the error thrown by the page rendering inside
    [initializeKjer], if it throws; the Activity Log lines that the shell checks of [setupCLIIntegration] and
    [setupElectronDependencies] produce on this host; and what
    [license_key.json] reads as once the shell command of
    [saveLicenseKeyToDisk] has run here, given the shell that runs it, the
    key, the type and what the file read as before.  That command splices
    the JSON text of the key and the type into a quoted word of a command
    line that ['execute-command'] quotes once more, so what ends up in the
    file is the host's doing: a shell that is not installed, or a key with
    a quote character in it, leaves the file as it was or unreadable. *)
Record Host := {
  userAgent : string;
  electronAPI : bool;
  init_throws : option string;
  setup_log : list (string * Level);
  license_file_after :
    string -> string -> string -> option (string * string) -> option (string * string)
}.

(** ** The world of the renderer *)

(** The state the script's functions read and change.  [timers] is the
    queue of the callbacks that the scan engine, the defence engine and the
    activation set with [setTimeout]; the timers of the toasts, which only
    take their toast off the page, are kept apart in [toast_timers].
    [notifications] lists the texts of the toasts shown so far. *)
Record World := {
  localStorage : gmap string LSVal;
  KjerLastScanResults : option nat;
  scans : list ScanResults;
  defenses : list DefenseRun;
  timers : list Timer;
  clock : Z;
  random : list Z;
  monitor : list MonitorEntry;
  activity : list ActivityEntry;
  notifications : list string;
  toast_timers : list ToastTimer;
  disk : Disk;
  host : Host
}.

Definition with_localStorage (f : gmap string LSVal -> gmap string LSVal) (w : World) : World :=
  {| localStorage := f (localStorage w);
     KjerLastScanResults := KjerLastScanResults w;
     scans := scans w;
     defenses := defenses w;
     timers := timers w;
     clock := clock w;
     random := random w;
     monitor := monitor w;
     activity := activity w;
     notifications := notifications w;
     toast_timers := toast_timers w;
     disk := disk w;
     host := host w |}.

Definition with_KjerLastScanResults (f : option nat -> option nat) (w : World) : World :=
  {| localStorage := localStorage w;
     KjerLastScanResults := f (KjerLastScanResults w);
     scans := scans w;
     defenses := defenses w;
     timers := timers w;
     clock := clock w;
     random := random w;
     monitor := monitor w;
     activity := activity w;
     notifications := notifications w;
     toast_timers := toast_timers w;
     disk := disk w;
     host := host w |}.

Definition with_scans (f : list ScanResults -> list ScanResults) (w : World) : World :=
  {| localStorage := localStorage w;
     KjerLastScanResults := KjerLastScanResults w;
     scans := f (scans w);
     defenses := defenses w;
     timers := timers w;
     clock := clock w;
     random := random w;
     monitor := monitor w;
     activity := activity w;
     notifications := notifications w;
     toast_timers := toast_timers w;
     disk := disk w;
     host := host w |}.

Definition with_defenses (f : list DefenseRun -> list DefenseRun) (w : World) : World :=
  {| localStorage := localStorage w;
     KjerLastScanResults := KjerLastScanResults w;
     scans := scans w;
     defenses := f (defenses w);
     timers := timers w;
     clock := clock w;
     random := random w;
     monitor := monitor w;
     activity := activity w;
     notifications := notifications w;
     toast_timers := toast_timers w;
     disk := disk w;
     host := host w |}.

Definition with_timers (f : list Timer -> list Timer) (w : World) : World :=
  {| localStorage := localStorage w;
     KjerLastScanResults := KjerLastScanResults w;
     scans := scans w;
     defenses := defenses w;
     timers := f (timers w);
     clock := clock w;
     random := random w;
     monitor := monitor w;
     activity := activity w;
     notifications := notifications w;
     toast_timers := toast_timers w;
     disk := disk w;
     host := host w |}.

Definition with_clock (f : Z -> Z) (w : World) : World :=
  {| localStorage := localStorage w;
     KjerLastScanResults := KjerLastScanResults w;
     scans := scans w;
     defenses := defenses w;
     timers := timers w;
     clock := f (clock w);
     random := random w;
     monitor := monitor w;
     activity := activity w;
     notifications := notifications w;
     toast_timers := toast_timers w;
     disk := disk w;
     host := host w |}.

Definition with_random (f : list Z -> list Z) (w : World) : World :=
  {| localStorage := localStorage w;
     KjerLastScanResults := KjerLastScanResults w;
     scans := scans w;
     defenses := defenses w;
     timers := timers w;
     clock := clock w;
     random := f (random w);
     monitor := monitor w;
     activity := activity w;
     notifications := notifications w;
     toast_timers := toast_timers w;
     disk := disk w;
     host := host w |}.

Definition with_monitor (f : list MonitorEntry -> list MonitorEntry) (w : World) : World :=
  {| localStorage := localStorage w;
     KjerLastScanResults := KjerLastScanResults w;
     scans := scans w;
     defenses := defenses w;
     timers := timers w;
     clock := clock w;
     random := random w;
     monitor := f (monitor w);
     activity := activity w;
     notifications := notifications w;
     toast_timers := toast_timers w;
     disk := disk w;
     host := host w |}.

Definition with_activity (f : list ActivityEntry -> list ActivityEntry) (w : World) : World :=
  {| localStorage := localStorage w;
     KjerLastScanResults := KjerLastScanResults w;
     scans := scans w;
     defenses := defenses w;
     timers := timers w;
     clock := clock w;
     random := random w;
     monitor := monitor w;
     activity := f (activity w);
     notifications := notifications w;
     toast_timers := toast_timers w;
     disk := disk w;
     host := host w |}.

Definition with_notifications (f : list string -> list string) (w : World) : World :=
  {| localStorage := localStorage w;
     KjerLastScanResults := KjerLastScanResults w;
     scans := scans w;
     defenses := defenses w;
     timers := timers w;
     clock := clock w;
     random := random w;
     monitor := monitor w;
     activity := activity w;
     notifications := f (notifications w);
     toast_timers := toast_timers w;
     disk := disk w;
     host := host w |}.

Definition with_disk (f : Disk -> Disk) (w : World) : World :=
  {| localStorage := localStorage w;
     KjerLastScanResults := KjerLastScanResults w;
     scans := scans w;
     defenses := defenses w;
     timers := timers w;
     clock := clock w;
     random := random w;
     monitor := monitor w;
     activity := activity w;
     notifications := notifications w;
     toast_timers := toast_timers w;
     disk := f (disk w);
     host := host w |}.

Definition with_host (f : Host -> Host) (w : World) : World :=
  {| localStorage := localStorage w;
     KjerLastScanResults := KjerLastScanResults w;
     scans := scans w;
     defenses := defenses w;
     timers := timers w;
     clock := clock w;
     random := random w;
     monitor := monitor w;
     activity := activity w;
     notifications := notifications w;
     toast_timers := toast_timers w;
     disk := disk w;
     host := f (host w) |}.

Definition with_toast_timers (f : list ToastTimer -> list ToastTimer) (w : World) : World :=
  {| localStorage := localStorage w;
     KjerLastScanResults := KjerLastScanResults w;
     scans := scans w;
     defenses := defenses w;
     timers := timers w;
     clock := clock w;
     random := random w;
     monitor := monitor w;
     activity := activity w;
     notifications := notifications w;
     toast_timers := f (toast_timers w);
     disk := disk w;
     host := host w |}.

(** ** Effects: a state monad over the world *)

Definition M (A : Type) : Type := World -> A * World.

Global Instance M_ret : MRet M := fun A x w => (x, w).
Global Instance M_bind : MBind M :=
  fun A B f m w => let '(a, w') := m w in f a w'.

Definition get {A} (f : World -> A) : M A := fun w => (f w, w).
Definition modify (f : World -> World) : M unit := fun w => (tt, f w).
Definition exec {A} (m : M A) (w : World) : World := snd (m w).

(** [for (x of xs) body(x)]. *)
Fixpoint forEach {A} (xs : list A) (body : A -> M unit) : M unit :=
  match xs with
  | [] => mret tt
  | x :: rest => body x ;; forEach rest body
  end.

(** ** The sinks: Security Monitor, Activity Log, notifications *)

(** [entries.unshift(e); if (entries.length > maxEntries) entries.pop()]. *)
Definition unshift_capped {A} (maxEntries : nat) (e : A) (entries : list A) : list A :=
  let entries' := e :: entries in
  if (maxEntries <? length entries')%nat then removelast entries' else entries'.

Module SecurityMonitor.

Definition maxEntries : nat := 400.

Definition _fmt (tool message : string) (level : Level) (type : EntryType)
    (w : World) : MonitorEntry :=
  {| m_time := clock w; m_tool := tool; m_message := message;
     m_level := level; m_type := type |}.

Definition push (tool message : string) (level : Level) (type : EntryType) : M unit :=
  modify (fun w =>
    with_monitor (unshift_capped maxEntries (_fmt tool message level type w)) w).

Definition log (tool message : string) (level : Level) : M unit :=
  push tool message level Result.

Definition section (title : string) : M unit :=
  push "" title LInfo SectionHeader.

Fixpoint repeat_text (s : string) (n : nat) : string :=
  match n with
  | O => ""
  | S n' => s +:+ repeat_text s n'
  end.

Definition divider : M unit :=
  push "" (repeat_text "═" 46) LInfo Divider.

Definition clear : M unit := modify (with_monitor (fun _ => [])).

End SecurityMonitor.

Module ActivityLog.

Definition maxEntries : nat := 200.

Definition add (message : string) (level : Level) (tool : string)
    (important : bool) : M unit :=
  modify (fun w =>
    with_activity
      (unshift_capped maxEntries
         {| a_time := clock w; a_level := level; a_message := message;
            a_tool := tool; a_important := important |}) w).

End ActivityLog.

Definition logActivity (message : string) (level : Level) (tool : string)
    (important : bool) : M unit :=
  ActivityLog.add message level tool important.

Definition logSection (title : string) : M unit := SecurityMonitor.section title.

Definition logResult (tool message : string) (level : Level) : M unit :=
  SecurityMonitor.log tool message level.

Definition logDivider : M unit := SecurityMonitor.divider.

(** [localStorage.getItem(k) === text]. *)
Definition item_is (k text : string) (w : World) : bool :=
  bool_decide (localStorage w !! k = Some (LStr text)).

(** The toasts' queue, kept in firing order like the engine's. *)
Fixpoint enqueue_toast (t : ToastTimer) (q : list ToastTimer) : list ToastTimer :=
  match q with
  | [] => [t]
  | h :: q' => if (toast_due t <? toast_due h)%Z then t :: q else h :: enqueue_toast t q'
  end.

(** [showNotification] (the later of the script's two declarations): the
    toast is shown unless the stored ['notifications'] setting is the JSON
    text [false], the text [saveSetting] writes for a switched-off box
    ([saveSetting] stores the JSON text of a check box, [true] or
    [false]).  A toast that is shown is added to the page, its text is
    kept here, and its 4000 ms timer is set.  The definition covers a
    setting that is absent or holds one of these two texts: on another
    text [JSON.parse] gives another value (the toast is dropped on every
    falsy one), or throws and so ends the caller. *)
Definition showNotification (message : string) : M unit :=
  modify (fun w =>
    if item_is "notifications" "false" w then w
    else with_toast_timers
           (enqueue_toast {| toast_due := clock w + 4000; toast_task := ToastExit message |})
           (with_notifications (fun ns => (ns ++ [message])%list) w)).

(** The callbacks of the toast timers: the 4000 ms one adds the [exit]
    class and sets the 300 ms timer whose callback removes the element. *)
Definition run_toast_task (t : ToastTask) : M unit :=
  match t with
  | ToastExit message =>
      modify (fun w =>
        with_toast_timers
          (enqueue_toast {| toast_due := clock w + 300; toast_task := ToastRemove message |}) w)
  | ToastRemove _ => mret tt
  end.

(** One turn of the loop in which a toast timer fires. *)
Definition toast_turn (w : World) : World :=
  match toast_timers w with
  | [] => w
  | t :: rest =>
      exec (run_toast_task (toast_task t))
           (with_clock (Z.max (toast_due t)) (with_toast_timers (fun _ => rest) w))
  end.

(** [updateLastUpdateTime] writes the clock text into the page only. *)
Definition updateLastUpdateTime : M unit := mret tt.

(** ** [Math.random] and [ri] *)

(** One draw of [Math.random()], in millionths: the next number of the
    world's list of draws (0 once the list is used up). *)
Definition Math_random : M Z := fun w =>
  match random w with
  | [] => (0, w)
  | r :: rest => (r `mod` 1000000, with_random (fun _ => rest) w)
  end%Z.

(** [ri(min, max) = Math.floor(Math.random() * (max - min + 1)) + min], the
    product taken exactly on the millionths of the draw (the script
    computes it in double precision). *)
Definition ri (min max : Z) : M Z :=
  r ← Math_random;
  mret (r * (max - min + 1) / 1000000 + min)%Z.

(** A number inside a template literal. *)
Definition num (z : Z) : string := pretty z.

(** [(Math.random() * 10).toFixed(1)], as tenths and as the printed text. *)
Definition random_score_tenths : M Z :=
  r ← Math_random;
  mret ((r + 5000) / 10000)%Z.

Definition tenths_text (t : Z) : string :=
  num (t / 10) +:+ "." +:+ num (t `mod` 10).

(** ** The timer queue *)

(** A queue kept in firing order: by due time, and for equal due times in
    the order of the [setTimeout] calls. *)
Fixpoint enqueue (t : Timer) (q : list Timer) : list Timer :=
  match q with
  | [] => [t]
  | h :: q' => if (due t <? due h)%Z then t :: q else h :: enqueue t q'
  end.

(** [setTimeout(callback, delay)]. *)
Definition setTimeout (callback : Task) (delay : Z) : M unit :=
  modify (fun w =>
    with_timers (enqueue {| due := clock w + delay; task := callback |}) w).

(** ** The probe [_runToolScan] *)

(** What one [case] of the probe's [switch] leaves in [line], [level] and
    [flagged]. *)
Definition Reading : Type := string * Level * bool.

Definition reading (line : string) (level : Level) (flagged : bool) : M Reading :=
  mret (line, level, flagged).

(** The [case] labels of [switch (tool.key)] with their bodies. *)
Definition scan_cases : list (string * M Reading) := [
  (* Network *)
  ("wireshark",
    flows ← ri 0 8;
    anomalies ← ri 0 3;
    if (anomalies >? 1)%Z
    then reading (num flows +:+ " flows captured — " +:+ num anomalies +:+ " anomalous (unusual port/protocol activity)") LWarning true
    else reading (num flows +:+ " flows captured — traffic patterns normal") LSuccess false);
  ("suricata",
    alerts ← ri 0 5;
    high ← ri 0 2;
    if (high >? 0)%Z
    then reading (num alerts +:+ " alerts — " +:+ num high +:+ " HIGH severity (potential intrusion attempt)") LError true
    else if (alerts >? 2)%Z
    then reading (num alerts +:+ " low-severity IDS alerts — monitor for escalation") LWarning true
    else reading (num alerts +:+ " alerts — no active threats detected") LSuccess false);
  ("zeek",
    conns ← ri 0 3;
    exfil ← ri 0 1;
    if (exfil >? 0)%Z
    then reading ("Possible data exfiltration event — " +:+ num conns +:+ " suspicious long-duration connections") LCritical true
    else if (conns >? 0)%Z
    then reading (num conns +:+ " unusual connection(s) — inspect DNS/HTTP logs") LWarning true
    else reading "Network baseline clean — 0 exfiltration events" LSuccess false);
  (* Vulnerability *)
  ("nessus",
    vulns ← ri 0 8;
    crit ← ri 0 2;
    if (crit >? 0)%Z
    then reading (num vulns +:+ " vulnerabilities — " +:+ num crit +:+ " CRITICAL (immediate patch required)") LCritical true
    else if (vulns >? 3)%Z
    then
      h ← ri 1 3;
      m ← ri 1 3;
      reading (num vulns +:+ " vulnerabilities — " +:+ num h +:+ " HIGH, " +:+ num m +:+ " MEDIUM") LError true
    else reading (num vulns +:+ " low-severity vulnerabilities found")
           (if (vulns >? 0)%Z then LWarning else LSuccess) (vulns >? 0)%Z);
  ("openvas",
    vulns ← ri 0 12;
    crit ← ri 0 3;
    if (crit >? 0)%Z
    then reading (num vulns +:+ " vulnerabilities — " +:+ num crit +:+ " CRITICAL CVEs identified") LCritical true
    else if (vulns >? 4)%Z
    then reading (num vulns +:+ " vulnerabilities — remediation recommended") LError true
    else reading (num vulns +:+ " low-risk vulnerabilities in NVT database")
           (if (vulns >? 0)%Z then LWarning else LSuccess) false);
  ("gvm",
    score ← random_score_tenths;
    if (score >=? 70)%Z
    then reading ("CVSS score " +:+ tenths_text score +:+ " — HIGH risk exposure detected") LError true
    else if (score >=? 40)%Z
    then reading ("CVSS score " +:+ tenths_text score +:+ " — moderate exposure, patch cycle recommended") LWarning true
    else reading ("CVSS score " +:+ tenths_text score +:+ " — low exposure") LSuccess false);
  (* Malware / EDR *)
  ("clamav",
    files ← ri 1000 9999;
    threats ← ri 0 2;
    if (threats >? 0)%Z
    then reading (num files +:+ " files scanned — " +:+ num threats +:+ " threat(s) detected (quarantine recommended)") LCritical true
    else reading (num files +:+ " files scanned — clean") LSuccess false);
  ("rkhunter",
    warnings ← ri 0 3;
    if (warnings >? 1)%Z
    then reading (num warnings +:+ " warnings — suspicious kernel module or modified binary detected") LError true
    else if (warnings =? 1)%Z
    then reading (num warnings +:+ " warning — verify /dev and /proc entries manually") LWarning true
    else reading "No rootkits or backdoors found" LSuccess false);
  ("chkrootkit",
    hits ← ri 0 2;
    if (hits >? 0)%Z
    then reading (num hits +:+ " suspicious pattern(s) — possible rootkit infection") LCritical true
    else reading "No rootkit signatures matched" LSuccess false);
  ("malwarebytes",
    threats ← ri 0 3;
    if (threats >? 0)%Z
    then reading (num threats +:+ " threat(s) found — PUP/ransomware artifacts detected") LCritical true
    else reading "Scan complete — no malware detected" LSuccess false);
  ("windows-defender",
    threats ← ri 0 2;
    if (threats >? 0)%Z
    then reading (num threats +:+ " threat(s) quarantined automatically") LWarning true
    else reading "Real-time protection active — system clean" LSuccess false);
  ("kaspersky",
    threats ← ri 0 2;
    if (threats >? 0)%Z
    then reading (num threats +:+ " endpoint threat(s) — behavior analysis flagged anomalous process") LError true
    else reading "Endpoint scan complete — no threats" LSuccess false);
  (* File integrity *)
  ("aide",
    changes ← ri 0 5;
    if (changes >? 2)%Z
    then reading (num changes +:+ " unauthorised file changes — potential tampering detected") LCritical true
    else if (changes >? 0)%Z
    then reading (num changes +:+ " file change(s) since last baseline — review required") LWarning true
    else reading "File integrity database matches — no unauthorised changes" LSuccess false);
  ("tripwire",
    violations ← ri 0 4;
    if (violations >? 0)%Z
    then reading (num violations +:+ " policy violation(s) — system file(s) modified outside change window")
           (if (violations >? 2)%Z then LCritical else LWarning) true
    else reading "No policy violations — change management clean" LSuccess false);
  (* Memory forensics *)
  ("volatility",
    procs ← ri 0 3;
    inject ← ri 0 1;
    if (inject >? 0)%Z
    then
      n ← ri 1 3;
      reading ("Code injection detected in " +:+ num n +:+ " process(es) — possible in-memory malware") LCritical true
    else if (procs >? 1)%Z
    then reading (num procs +:+ " anomalous process(es) in memory — verify parent-child chain") LWarning true
    else reading "Memory analysis clean — no injections or hidden processes" LSuccess false);
  (* Compliance and audit *)
  ("lynis",
    score ← ri 45 90;
    if (score <? 60)%Z
    then reading ("Hardening Index: " +:+ num score +:+ "/100 — significant configuration weaknesses") LError true
    else if (score <? 75)%Z
    then reading ("Hardening Index: " +:+ num score +:+ "/100 — some hardening improvements recommended") LWarning true
    else reading ("Hardening Index: " +:+ num score +:+ "/100 — good security posture") LSuccess false);
  ("cis-cat",
    pct ← ri 50 95;
    issues ← ri 0 8;
    if (pct <? 70)%Z
    then reading ("CIS Benchmark score " +:+ num pct +:+ "% — " +:+ num issues +:+ " critical misconfigurations") LError true
    else if (pct <? 85)%Z
    then reading ("CIS Benchmark score " +:+ num pct +:+ "% — " +:+ num issues +:+ " compliance gaps") LWarning true
    else reading ("CIS Benchmark score " +:+ num pct +:+ "% — compliant") LSuccess false);
  ("osquery",
    anomalies ← ri 0 6;
    unauth ← ri 0 2;
    if (unauth >? 0)%Z
    then reading (num unauth +:+ " unauthorised access event(s) — check privileged accounts") LCritical true
    else if (anomalies >? 3)%Z
    then reading (num anomalies +:+ " anomalous system events — unusual process or socket activity") LWarning true
    else reading (num anomalies +:+ " minor event(s) — system queries normal") LInfo false);
  ("auditd",
    events ← ri 0 10;
    priv ← ri 0 2;
    if (priv >? 0)%Z
    then reading (num priv +:+ " privilege-escalation event(s) in audit log — investigate immediately") LCritical true
    else if (events >? 5)%Z
    then
      n ← ri 1 3;
      reading (num events +:+ " audit events logged — " +:+ num n +:+ " require review") LWarning true
    else reading (num events +:+ " audit events — no suspicious escalation") LSuccess false);
  ("tiger",
    issues ← ri 0 6;
    if (issues >? 3)%Z
    then reading (num issues +:+ " security issues — world-writable files or weak permissions detected") LError true
    else if (issues >? 0)%Z
    then reading (num issues +:+ " minor configuration issue(s) found") LWarning true
    else reading "Security audit passed — permissions and config look clean" LSuccess false);
  (* SIEM *)
  ("splunk",
    events ← ri 100 9999;
    alerts ← ri 0 5;
    if (alerts >? 2)%Z
    then reading (num events +:+ " events ingested — " +:+ num alerts +:+ " correlation alerts triggered") LWarning true
    else reading (num events +:+ " events ingested — " +:+ num alerts +:+ " low-priority alert(s)") LInfo false);
  ("elastic-stack",
    docs ← ri 500 50000;
    hits ← ri 0 4;
    if (hits >? 2)%Z
    then reading (num docs +:+ " documents indexed — " +:+ num hits +:+ " detection rules fired") LWarning true
    else reading (num docs +:+ " documents indexed — " +:+ num hits +:+ " alert(s)") LInfo false)
  ].

(** [switch (k) { case ...: ...; default: ... }]. *)
Definition switch {A} (k : string) (cases : list (string * A)) (default_case : A) : A :=
  default default_case (prop cases k).

(** Simulate one tool's scan and write a result line; returns a finding
    object or [null]. *)
Definition _runToolScan (tool : ToolView) (phase : string) : M (option Finding.t) :=
  let name := name (entry tool) in
  '(line, level, flagged) ← switch (key tool) scan_cases (reading "Scan completed" LSuccess false);
  logResult name line level ;;
  mret (if flagged : bool
        then Some (Finding.mk phase name (key tool) level line None)
        else None).

(** ** Reading [localStorage] *)

Definition dquote : string := String (ascii_of_nat 34) EmptyString.

(** [arr.join(sep)]. *)
Fixpoint join (sep : string) (arr : list string) : string :=
  match arr with
  | [] => ""
  | [x] => x
  | x :: rest => x +:+ sep +:+ join sep rest
  end.

(** The JSON text of an installed-tools object (the order of its properties
    is that of the finite map, not the order of insertion). *)
Definition JSON_stringify (o : gmap string InstalledVal) : string :=
  let value v :=
    match v with
    | ITrue => "true"
    | IMeta status timestamp =>
        "{" +:+ dquote +:+ "status" +:+ dquote +:+ ":" +:+ dquote +:+ status +:+ dquote +:+ ","
            +:+ dquote +:+ "timestamp" +:+ dquote +:+ ":" +:+ dquote +:+ num timestamp +:+ dquote +:+ "}"
    end in
  "{" +:+ join "," (map (fun '(k, v) => dquote +:+ k +:+ dquote +:+ ":" +:+ value v) (map_to_list o)) +:+ "}".

Definition text_of (v : LSVal) : string :=
  match v with
  | LStr s => s
  | LInstalled o => JSON_stringify o
  end.

(** [localStorage.getItem(k)]: the stored text, or [null]. *)
Definition getItem (k : string) (w : World) : option string :=
  text_of <$> localStorage w !! k.

(** [a || b] where [a] is a text or [null]: the empty text is falsy. *)
Definition or_else (a : option string) (b : string) : string :=
  match a with
  | Some s => if decide (s = "") then b else s
  | None => b
  end.

Definition setItem (k text : string) : M unit :=
  modify (with_localStorage (<[k := LStr text]>)).

Definition removeItem (k : string) : M unit :=
  modify (with_localStorage (delete k)).

(** ** The two declarations of [getInstalledTools] *)

Abbreviation InstalledObj := (gmap string InstalledVal).

(** The earlier declaration: the object stored under ['installedTools'], or
    [{}] when nothing (or the empty text) is stored.  [None] stands for
    [JSON.parse] applied to a text that is not such an object. *)
Definition getInstalledTools_first (ls : gmap string LSVal) : option InstalledObj :=
  match ls !! "installedTools" with
  | None => Some ∅
  | Some (LStr s) => if decide (s = "") then Some ∅ else None
  | Some (LInstalled o) => Some o
  end.

(** The later declaration: one [localStorage] key per catalogue entry, built
    from the entry's [id]. *)
Definition getInstalledTools_second (ls : gmap string LSVal) : InstalledObj :=
  foldl (fun installedTools '(toolKey, tool) =>
           let isInstalled :=
             bool_decide (ls !! ("tool_" +:+ JS.interpolate (id tool) +:+ "_installed")
                          = Some (LStr "true")) in
           if isInstalled then <[name tool := ITrue]> installedTools else installedTools)
        ∅ TOOLS_DATABASE.

(** The script declares the function twice.  When a classic script is
    instantiated its function declarations are bound in source order, so the
    name denotes the last of them everywhere in the script. *)
Inductive Declaration := EarlierDeclaration | LaterDeclaration.

Definition declarations_of_getInstalledTools : list Declaration :=
  [EarlierDeclaration; LaterDeclaration].

Definition binding_of (declarations : list Declaration) : Declaration :=
  List.last declarations EarlierDeclaration.

Definition call_declaration (d : Declaration) (ls : gmap string LSVal) : option InstalledObj :=
  match d with
  | EarlierDeclaration => getInstalledTools_first ls
  | LaterDeclaration => Some (getInstalledTools_second ls)
  end.

(** [getInstalledTools()] as the script's callers get it. *)
Definition getInstalledTools (ls : gmap string LSVal) : InstalledObj :=
  getInstalledTools_second ls.

(** ** The engine

    The functions below call [getInstalledTools] and [_runToolScan] by name.
    They are written once over these two names: [reader] is whatever
    [getInstalledTools] is bound to (a function of [localStorage]), [probe]
    is the tool probe.  The script's own functions are obtained after the
    section by supplying [getInstalledTools] and [_runToolScan]. *)

Definition update_findings (f : list Finding.t -> list Finding.t) (r : ScanResults) : ScanResults :=
  {| startedAt := startedAt r; completedAt := completedAt r; findings := f (findings r);
     critical := critical r; high := high r; medium := medium r; low := low r;
     toolsRun := toolsRun r |}.

Definition inc_critical (r : ScanResults) : ScanResults :=
  {| startedAt := startedAt r; completedAt := completedAt r; findings := findings r;
     critical := S (critical r); high := high r; medium := medium r; low := low r;
     toolsRun := toolsRun r |}.

Definition inc_high (r : ScanResults) : ScanResults :=
  {| startedAt := startedAt r; completedAt := completedAt r; findings := findings r;
     critical := critical r; high := S (high r); medium := medium r; low := low r;
     toolsRun := toolsRun r |}.

Definition inc_medium (r : ScanResults) : ScanResults :=
  {| startedAt := startedAt r; completedAt := completedAt r; findings := findings r;
     critical := critical r; high := high r; medium := S (medium r); low := low r;
     toolsRun := toolsRun r |}.

Definition inc_low (r : ScanResults) : ScanResults :=
  {| startedAt := startedAt r; completedAt := completedAt r; findings := findings r;
     critical := critical r; high := high r; medium := medium r; low := S (low r);
     toolsRun := toolsRun r |}.

Definition inc_toolsRun (r : ScanResults) : ScanResults :=
  {| startedAt := startedAt r; completedAt := completedAt r; findings := findings r;
     critical := critical r; high := high r; medium := medium r; low := low r;
     toolsRun := S (toolsRun r) |}.

Definition set_completedAt (t : Z) (r : ScanResults) : ScanResults :=
  {| startedAt := startedAt r; completedAt := Some t; findings := findings r;
     critical := critical r; high := high r; medium := medium r; low := low r;
     toolsRun := toolsRun r |}.

(** The [if (finding) { ... }] block of a probe callback: append the finding
    and count it in the bucket of its level. *)
Definition record_finding (finding : Finding.t) (r : ScanResults) : ScanResults :=
  let r := update_findings (fun fs => (fs ++ [finding])%list) r in
  match Finding.level finding with
  | LCritical => inc_critical r
  | LError => inc_high r
  | LWarning => inc_medium r
  | LInfo => if default false (Finding.flagged finding) then inc_low r else r
  | LSuccess => r
  end.

(** The phases of the scan with their roles, in the order of the [phases]
    object literal. *)
Definition scan_phases : list (string * list string) := [
    ("NETWORK ANALYSIS",   ["network_scan"]);
    ("VULNERABILITY SCAN", ["vuln_scan"]);
    ("MALWARE & EDR",      ["malware_scan"]);
    ("FILE INTEGRITY",     ["integrity_scan"]);
    ("MEMORY FORENSICS",   ["memory_scan"]);
    ("COMPLIANCE & AUDIT", ["compliance_scan"]);
    ("SIEM & LOG INGEST",  ["siem"])
  ].

(** The locale's time text of [toLocaleTimeString] is not modelled; the
    clock value is printed in its place. *)
Definition toLocaleTimeString (t : Z) : string := num t.

(** [(ms / 1000).toFixed(1)], rounding the exact quotient half up. *)
Definition seconds_text (ms : Z) : string := tenths_text ((ms + 50) / 100).

Definition threatLevel (r : ScanResults) : string :=
  if (0 <? critical r)%nat then "CRITICAL"
  else if (0 <? high r)%nat then "HIGH"
  else if (0 <? medium r)%nat then "MEDIUM"
  else "CLEAN".

Definition summaryLevel (r : ScanResults) : Level :=
  if (0 <? critical r)%nat then LCritical
  else if (0 <? high r)%nat then LError
  else if (0 <? medium r)%nat then LWarning
  else LSuccess.

Definition nnum (n : nat) : string := num (Z.of_nat n).

Module Engine.
Section Engine.

Variable reader : gmap string LSVal -> InstalledObj.
Variable probe : ToolView -> string -> M (option Finding.t).

(** Return the subset of installed tools that match a given role array. *)
Definition getToolsByRole (roleKeys : list string) (w : World) : list ToolView :=
  let installed := reader (localStorage w) in
  let installedKeys :=
    filter (fun kt : string * Tool => is_Some (installed !! name kt.2)) TOOLS_DATABASE in
  let wanted := flat_map role_keys roleKeys in
  map (fun kt : string * Tool => {| key := kt.1; entry := kt.2 |})
      (filter (fun kt : string * Tool => kt.1 ∈ wanted) installedKeys).

Definition setToolInstalled (toolName : string) (isInstalled : bool) : M unit :=
  modify (fun w =>
    let installed := reader (localStorage w) in
    let installed :=
      if isInstalled then <[toolName := IMeta "installed" (clock w)]> installed
      else delete toolName installed in
    with_localStorage (<["installedTools" := LInstalled installed]>) w).

(** *** The scan engine *)

Definition new_results : M nat := fun w =>
  (length (scans w),
   with_scans (fun objs =>
     (objs ++ [ {| startedAt := clock w; completedAt := None; findings := [];
                   critical := 0; high := 0; medium := 0; low := 0; toolsRun := 0 |} ])%list) w).

(** [tools.forEach(tool => { setTimeout(..., globalDelay); globalDelay += 550 })]. *)
Fixpoint schedule_probes (results : nat) (phaseName : string) (tools : list ToolView)
    (globalDelay : Z) : M Z :=
  match tools with
  | [] => mret globalDelay
  | tool :: rest =>
      setTimeout (TScanProbe results tool phaseName) globalDelay ;;
      schedule_probes results phaseName rest (globalDelay + 550)
  end.

(** [activePhases.forEach(([phaseName, tools]) => { ... })]. *)
Fixpoint schedule_phases (results : nat) (activePhases : list (string * list ToolView))
    (globalDelay : Z) : M Z :=
  match activePhases with
  | [] => mret globalDelay
  | (phaseName, tools) :: rest =>
      setTimeout (TSection phaseName) globalDelay ;;
      globalDelay ← schedule_probes results phaseName tools (globalDelay + 300);
      schedule_phases results rest (globalDelay + 200)
  end.

Definition performComprehensiveScan : M unit := fun w =>
  let installed := reader (localStorage w) in
  if bool_decide (size installed = 0) then
    (showNotification "No tools installed. Use the Tool Box to install security tools first." ;;
     logActivity "Scan aborted — no security tools installed" LWarning "" false) w
  else
    let phases :=
      map (fun pr : string * list string => (pr.1, getToolsByRole pr.2 w)) scan_phases in
    let activePhases :=
      filter (fun pt : string * list ToolView => 0 < length pt.2) phases in
    if bool_decide (length activePhases = 0) then
      (showNotification "Installed tools have no scanning capability. Try installing Nessus, ClamAV, Lynis, or Suricata." ;;
       logActivity "Scan aborted — no scanner-role tools found among installed tools" LWarning "" false) w
    else
      (results ← new_results;
       modify (with_KjerLastScanResults (fun _ => None)) ;;
       SecurityMonitor.clear ;;
       SecurityMonitor.divider ;;
       now ← get clock;
       SecurityMonitor.section ("KJER SECURITY SCAN — " +:+ toLocaleTimeString now) ;;
       os ← get (fun w => or_else (getItem "userDistro" w)
                             (or_else (getItem "userOS" w) "this system"));
       SecurityMonitor.log ""
         ("Target: " +:+ os +:+ "  |  Tools engaged: "
            +:+ nnum (foldl (fun a (pt : string * list ToolView) => a + length pt.2) 0 activePhases))
         LInfo ;;
       SecurityMonitor.divider ;;
       showNotification "Security scan started — results streaming to Activity Monitor..." ;;
       updateLastUpdateTime ;;
       globalDelay ← schedule_phases results activePhases 400;
       setTimeout (TScanSummary results) (globalDelay + 400)) w.

(** The probe callback of the scan. *)
Definition scan_probe_callback (results : nat) (tool : ToolView) (phaseName : string) : M unit :=
  finding ← probe tool phaseName;
  modify (with_scans (alter inc_toolsRun results)) ;;
  match finding with
  | Some finding => modify (with_scans (alter (record_finding finding) results))
  | None => mret tt
  end.

(** The summary callback of the scan.  A dangling reference cannot arise:
    the callback is only ever scheduled for the object the scan created. *)
Definition scan_summary_callback (results : nat) : M unit :=
  now ← get clock;
  modify (with_scans (alter (set_completedAt now) results)) ;;
  modify (with_KjerLastScanResults (fun _ => Some results)) ;;
  obj ← get (fun w => scans w !! results);
  match obj with
  | None => mret tt
  | Some r =>
      let elapsed := seconds_text (now - startedAt r) in
      SecurityMonitor.divider ;;
      SecurityMonitor.section ("SCAN COMPLETE — " +:+ elapsed +:+ "s") ;;
      SecurityMonitor.log ""
        ("Threat Level: " +:+ threatLevel r +:+ "  |  Critical: " +:+ nnum (critical r)
           +:+ "  High: " +:+ nnum (high r) +:+ "  Medium: " +:+ nnum (medium r)
           +:+ "  Low: " +:+ nnum (low r))
        (summaryLevel r) ;;
      (if (0 <? length (findings r))%nat
       then SecurityMonitor.log ""
              (nnum (length (findings r)) +:+ " finding(s) recorded — click DEFEND to apply countermeasures")
              LWarning
       else SecurityMonitor.log "" "No actionable findings — system posture looks good" LSuccess) ;;
      SecurityMonitor.divider ;;
      logActivity
        (if (0 <? length (findings r))%nat
         then "Scan complete — " +:+ nnum (length (findings r))
                +:+ " threat(s) detected  |  Threat level: " +:+ threatLevel r
         else "Scan complete — no threats detected")
        (summaryLevel r) "" true ;;
      showNotification
        ("Scan complete | " +:+ threatLevel r +:+ " | " +:+ nnum (critical r) +:+ " critical, "
           +:+ nnum (high r) +:+ " high, " +:+ nnum (medium r) +:+ " medium")
  end.

(** *** The defence engine *)

Definition inc_actionsTotal (d : DefenseRun) : DefenseRun :=
  {| scanResults := scanResults d; hasScanData := hasScanData d;
     hasNetworkThreat := hasNetworkThreat d; hasMalware := hasMalware d;
     hasIntegrityViolation := hasIntegrityViolation d;
     hasComplianceGap := hasComplianceGap d; hasMemoryThreat := hasMemoryThreat d;
     hasVulns := hasVulns d; broadMode := broadMode d;
     actionsTotal := S (actionsTotal d); toolsEngaged := toolsEngaged d |}.

Definition add_toolsEngaged (n : string) (d : DefenseRun) : DefenseRun :=
  {| scanResults := scanResults d; hasScanData := hasScanData d;
     hasNetworkThreat := hasNetworkThreat d; hasMalware := hasMalware d;
     hasIntegrityViolation := hasIntegrityViolation d;
     hasComplianceGap := hasComplianceGap d; hasMemoryThreat := hasMemoryThreat d;
     hasVulns := hasVulns d; broadMode := broadMode d;
     actionsTotal := actionsTotal d; toolsEngaged := {[ n ]} ∪ toolsEngaged d |}.

(** [findings.some(f => keys.includes(f.key) && levels.includes(f.level))]. *)
Definition some_finding (keys : list string) (levels : list Level)
    (findings : list Finding.t) : bool :=
  existsb (fun f => JS.arr_includes keys (Finding.key f)
                    && bool_decide (Finding.level f ∈ levels)) findings.

(** [scanResults && scanResults.completedAt]: a [Date] object is truthy. *)
Definition has_scan_data (w : World) : bool :=
  match KjerLastScanResults w with
  | None => false
  | Some ref =>
      match scans w !! ref with
      | Some r => bool_decide (is_Some (completedAt r))
      | None => false
      end
  end.

(** [hasScanData ? scanResults.findings : []], read through the reference. *)
Definition findings_of (ref : option nat) (scanData : bool) (w : World) : list Finding.t :=
  if scanData then
    match ref ≫= (fun i => scans w !! i) with
    | Some r => findings r
    | None => []
    end
  else [].

Definition new_defense (d : DefenseRun) : M nat := fun w =>
  (length (defenses w), with_defenses (fun objs => (objs ++ [d])%list) w).

(** [tools.forEach(tool => { setTimeout(..., delay); delay += step })]. *)
Fixpoint schedule_defenders (run : nat) (ph : DefPhase) (tools : list ToolView)
    (step delay : Z) : M Z :=
  match tools with
  | [] => mret delay
  | tool :: rest =>
      setTimeout (TDefend run ph tool) delay ;;
      schedule_defenders run ph rest step (delay + step)
  end.

(** One [if (tools.length > 0 && (...)) { ... }] block of the function. *)
Definition schedule_defense_phase (run : nat) (ph : DefPhase) (title : string)
    (tools : list ToolView) (triggered : bool) (step delay : Z) : M Z :=
  if (0 <? length tools)%nat && triggered then
    setTimeout (TSection title) delay ;;
    delay ← schedule_defenders run ph tools step (delay + 300);
    mret (delay + 200)%Z
  else mret delay.

Definition networkDefenders (w : World) : list ToolView :=
  filter (fun t => JS.arr_includes ["ufw"; "fail2ban"; "suricata"] (key t))
         (getToolsByRole ["firewall"; "ips"] w).

Definition avTools (w : World) : list ToolView := getToolsByRole ["av_remediate"] w.

Definition macTools (w : World) : list ToolView :=
  filter (fun t => JS.arr_includes ["apparmor"; "selinux"] (key t))
         (getToolsByRole ["firewall"] w).

Definition integrityTools (w : World) : list ToolView := getToolsByRole ["integrity_scan"] w.

Definition complianceDefenders (w : World) : list ToolView :=
  filter (fun t => JS.arr_includes ["lynis"; "auditd"] (key t))
         (getToolsByRole ["compliance_scan"] w).

Definition siemTools (w : World) : list ToolView := getToolsByRole ["siem"] w.

(** [Math.round(ms / 1000)]. *)
Definition round_seconds (ms : Z) : Z := ((ms + 500) / 1000)%Z.

Definition activateSmartDefense : M unit := fun w =>
  let installed := reader (localStorage w) in
  if bool_decide (size installed = 0) then
    (showNotification "No tools installed. Install defensive tools first." ;;
     logActivity "Defend aborted — no tools installed" LWarning "" false) w
  else
    let scanResults := KjerLastScanResults w in
    let hasScanData := has_scan_data w in
    (SecurityMonitor.clear ;;
     SecurityMonitor.divider ;;
     now ← get clock;
     SecurityMonitor.section ("KJER SMART DEFENSE — " +:+ toLocaleTimeString now) ;;
     (if hasScanData then
        match scanResults ≫= (fun i => scans w !! i) with
        | Some r =>
            let age := round_seconds (now - default 0%Z (completedAt r)) in
            SecurityMonitor.log ""
              ("Using scan from " +:+ num age +:+ "s ago  |  " +:+ nnum (critical r)
                 +:+ " critical, " +:+ nnum (high r) +:+ " high findings") LInfo
        | None => mret tt
        end
      else
        SecurityMonitor.log "" "No recent scan — running broad defensive hardening" LWarning ;;
        SecurityMonitor.log "" "Tip: Run SCAN first for targeted, finding-based defense" LInfo ;;
        logActivity "No recent scan data — running broad defensive hardening" LWarning "" false) ;;
     SecurityMonitor.divider ;;
     showNotification "Smart Defense activated — watch the Activity Monitor..." ;;
     updateLastUpdateTime ;;
     let findings := findings_of scanResults hasScanData w in
     let hasNetworkThreat :=
       some_finding ["wireshark"; "suricata"; "zeek"] [LCritical; LError; LWarning] findings in
     let hasMalware :=
       some_finding ["clamav"; "rkhunter"; "chkrootkit"; "malwarebytes"; "windows-defender"; "kaspersky"]
                    [LCritical; LError] findings in
     let hasIntegrityViolation :=
       some_finding ["aide"; "tripwire"] [LCritical; LWarning] findings in
     let hasComplianceGap :=
       some_finding ["lynis"; "cis-cat"; "osquery"; "auditd"; "tiger"]
                    [LCritical; LError; LWarning] findings in
     let hasMemoryThreat :=
       some_finding ["volatility"] [LCritical; LWarning] findings in
     let hasVulns :=
       some_finding ["nessus"; "openvas"; "gvm"] [LCritical; LError; LWarning] findings in
     let broadMode := negb hasScanData in
     run ← new_defense
             {| scanResults := scanResults; hasScanData := hasScanData;
                hasNetworkThreat := hasNetworkThreat; hasMalware := hasMalware;
                hasIntegrityViolation := hasIntegrityViolation;
                hasComplianceGap := hasComplianceGap; hasMemoryThreat := hasMemoryThreat;
                hasVulns := hasVulns; broadMode := broadMode;
                actionsTotal := 0; toolsEngaged := ∅ |};
     delay ← schedule_defense_phase run NetworkPerimeter "PHASE 1 — NETWORK & PERIMETER"
               (networkDefenders w) (broadMode || hasNetworkThreat || hasVulns) 500 400;
     delay ← schedule_defense_phase run MalwareContainment "PHASE 2 — MALWARE CONTAINMENT"
               (avTools w) (broadMode || hasMalware || hasMemoryThreat) 500 delay;
     delay ← schedule_defense_phase run AccessControl "PHASE 3 — ACCESS CONTROL ENFORCEMENT"
               (macTools w) (broadMode || hasComplianceGap || hasMalware) 500 delay;
     delay ← schedule_defense_phase run FileIntegrity "PHASE 4 — FILE INTEGRITY"
               (integrityTools w) (broadMode || hasIntegrityViolation) 450 delay;
     delay ← schedule_defense_phase run AuditHardening "PHASE 5 — AUDIT HARDENING"
               (complianceDefenders w) (broadMode || hasComplianceGap) 500 delay;
     delay ← schedule_defense_phase run SiemAlertRules "PHASE 6 — SIEM ALERT RULES"
               (siemTools w) (broadMode || (0 <? length findings)%nat) 450 delay;
     setTimeout (TDefenseSummary run) (delay + 400)) w.

(** The callbacks of the defence phases.  Each begins with
    [toolsEngaged.add(t.name)]; [act] is [actionsTotal++]. *)
Definition act (run : nat) : M unit :=
  modify (with_defenses (alter inc_actionsTotal run)).

Definition network_cases (run : nat) (d : DefenseRun) (n : string) : list (string * M unit) := [
  ("ufw",
    blocked ← ri 1 5;
    logResult n ("Rules tightened — " +:+ num blocked +:+ " suspicious IP range(s) blocked, default-deny enforced") LSuccess ;;
    act run);
  ("fail2ban",
    k ← ri 1 3;
    let services := take (Z.to_nat k) ["SSH"; "HTTP"; "FTP"; "SMTP"] in
    logResult n ("Activated on " +:+ join "/" services +:+ " — ban threshold: 3 failures / 10 min") LSuccess ;;
    act run);
  ("suricata",
    (if hasNetworkThreat d
     then logResult n "Switched to IPS mode — malicious traffic will be dropped in-line" LWarning
     else logResult n "Rules reloaded — threat signatures updated to latest ET ruleset" LInfo) ;;
    act run)
].

Definition malware_cases (run : nat) (d : DefenseRun) (n : string) : list (string * M unit) := [
  ("clamav",
    quarantined ← (if hasMalware d then ri 1 3 else mret 0%Z);
    (if (quarantined >? 0)%Z
     then logResult n (num quarantined +:+ " file(s) quarantined in /var/lib/clamav/quarantine") LWarning
     else logResult n "Full scan run — no files quarantined, definitions updated" LSuccess) ;;
    act run);
  ("rkhunter",
    logResult n "--propupd run to update baseline file properties" LInfo ;;
    (if hasMalware d
     then logResult n "Suspicious module(s) logged — manual kernel review recommended" LWarning
     else mret tt) ;;
    act run);
  ("chkrootkit",
    clean ← (if negb (hasMalware d) then mret true
             else r ← Math_random; mret (r >? 500000)%Z);
    logResult n
      (if clean : bool then "Second-pass clean — rootkit signatures not confirmed"
       else "Persistent pattern detected — escalate to memory analysis")
      (if clean then LSuccess else LCritical) ;;
    act run);
  ("malwarebytes",
    remediated ← (if hasMalware d then ri 1 3 else mret 0%Z);
    logResult n
      (if (remediated >? 0)%Z
       then num remediated +:+ " threat(s) remediated — ransomware artifacts removed"
       else "Remediation scan complete — system clean")
      (if (remediated >? 0)%Z then LWarning else LSuccess) ;;
    act run);
  ("windows-defender",
    logResult n "Real-time protection confirmed active — cloud lookup enabled" LSuccess ;;
    act run);
  ("kaspersky",
    logResult n "Endpoint protection reinforced — network attack blocker toggled ON" LSuccess ;;
    act run)
].

Definition access_cases (run : nat) (d : DefenseRun) (n : string) : list (string * M unit) := [
  ("apparmor",
    profileCount ← ri 8 20;
    logResult n ("Enforcing " +:+ num profileCount +:+ " profiles — unconfined processes investigated") LSuccess ;;
    act run);
  ("selinux",
    (if hasComplianceGap d
     then logResult n "Switched to Enforcing mode — AVC denials will now block policy violations" LWarning
     else logResult n "Mode confirmed: Enforcing — policy context intact" LSuccess) ;;
    act run)
].

Definition audit_cases (run : nat) (d : DefenseRun) (n : string) : list (string * M unit) := [
  ("lynis",
    applied ← ri 3 9;
    logResult n (num applied +:+ " hardening recommendation(s) applied from last audit report") LSuccess ;;
    act run);
  ("auditd",
    logResult n "Audit rules loaded — privilege-escalation and file-write syscalls monitored" LInfo ;;
    act run)
].

Definition defend_callback (run : nat) (ph : DefPhase) (t : ToolView) : M unit :=
  obj ← get (fun w => defenses w !! run);
  match obj with
  | None => mret tt
  | Some d =>
      let n := name (entry t) in
      modify (with_defenses (alter (add_toolsEngaged n) run)) ;;
      match ph with
      | NetworkPerimeter => switch (key t) (network_cases run d n) (mret tt)
      | MalwareContainment => switch (key t) (malware_cases run d n) (mret tt)
      | AccessControl => switch (key t) (access_cases run d n) (mret tt)
      | FileIntegrity =>
          (if hasIntegrityViolation d
           then logResult n "Flagged files logged — baseline will NOT auto-update (manual review required)" LWarning
           else logResult n "Baseline re-checked — updating database with approved changes" LSuccess) ;;
          act run
      | AuditHardening => switch (key t) (audit_cases run d n) (mret tt)
      | SiemAlertRules =>
          rules ← ri 2 8;
          logResult n (num rules +:+ " detection rule(s) pushed — alerting on findings from this scan") LInfo ;;
          act run
      end
  end.

(** The postures of the defence summary and their texts. *)
Inductive Posture :=
  | NO_DEFENSIVE_TOOLS | HARDENED_preventive | INCIDENT_RESPONSE_ACTIVE | HARDENED.

Definition posture_text (p : Posture) : string :=
  match p with
  | NO_DEFENSIVE_TOOLS => "NO DEFENSIVE TOOLS INSTALLED"
  | HARDENED_preventive => "HARDENED (preventive)"
  | INCIDENT_RESPONSE_ACTIVE => "INCIDENT RESPONSE ACTIVE"
  | HARDENED => "HARDENED"
  end.

(** The conditional that computes [posture] in the summary callback. *)
Definition posture (d : DefenseRun) (w : World) : Posture :=
  let findings := findings_of (scanResults d) (hasScanData d) w in
  if bool_decide (actionsTotal d = 0) then NO_DEFENSIVE_TOOLS
  else if bool_decide (length findings = 0) then HARDENED_preventive
  else if hasScanData d
          && match scanResults d ≫= (fun i => scans w !! i) with
             | Some r => (0 <? critical r)%nat
             | None => false
             end
       then INCIDENT_RESPONSE_ACTIVE
       else HARDENED.

Definition defense_summary_callback (run : nat) : M unit :=
  obj ← get (fun w => defenses w !! run);
  match obj with
  | None => mret tt
  | Some d =>
      posture ← get (posture d);
      let actionsTotal := actionsTotal d in
      let engaged := size (toolsEngaged d) in
      SecurityMonitor.divider ;;
      SecurityMonitor.section "DEFENSE COMPLETE" ;;
      SecurityMonitor.log ""
        ("Actions taken: " +:+ nnum actionsTotal +:+ "  |  Tools engaged: " +:+ nnum engaged
           +:+ "  |  Posture: " +:+ posture_text posture)
        (if (0 <? actionsTotal)%nat then LSuccess else LWarning) ;;
      (if bool_decide (actionsTotal = 0)
       then SecurityMonitor.log ""
              "Install defensive tools (UFW, Fail2ban, ClamAV, AppArmor) for automated response"
              LWarning
       else mret tt) ;;
      SecurityMonitor.divider ;;
      logActivity
        (if (0 <? actionsTotal)%nat
         then "Defense complete — " +:+ nnum actionsTotal +:+ " action(s)  |  Posture: "
                +:+ posture_text posture
         else "Defense complete — no defensive tools installed")
        (if (0 <? actionsTotal)%nat then LSuccess else LWarning) "" true ;;
      showNotification
        ("Defense complete — " +:+ nnum actionsTotal +:+ " action(s), " +:+ nnum engaged
           +:+ " tool(s) engaged | " +:+ posture_text posture)
  end.

(** *** The install toggle *)

(** The reply of the backend script to one [BackendAPI] call. *)
Record BackendResult := {
  success : bool;
  message : option string;
  license_version : option string;
  version : option string
}.

(** [BackendAPI.callBackend]: without [window.electronAPI], or when the
    command gives no output or fails ([reply = None]), the result is
    [{ success: false, error }]. *)
Definition callBackend (reply : option BackendResult) (w : World) : BackendResult :=
  let failed := {| success := false; message := None;
                   license_version := None; version := None |} in
  if electronAPI (host w) then default failed reply else failed.

(** [installTool(toolName)]; [reply] is what the backend answers at the
    [await].  The two halves of the call, before and after the [await],
    are run back to back: what the event loop runs while the call waits
    for the backend is not part of it.  [toolName in installed] is read as
    a lookup of the object's own keys: the names the tool cards pass are
    those of the catalogue, none of which [Object.prototype] defines.
    [renderToolsList] at the end redraws the page only. *)
Definition installTool (toolName : string) (reply : option BackendResult) : M unit := fun w =>
  let installed := reader (localStorage w) in
  let isInstalled := bool_decide (is_Some (installed !! toolName)) in
  let result := callBackend reply w in
  if isInstalled then
    (showNotification ("Uninstalling " +:+ toolName +:+ "...") ;;
     logActivity ("Uninstallation started for " +:+ toolName) LInfo "" false ;;
     if success result then
       setToolInstalled toolName false ;;
       showNotification (toolName +:+ " uninstalled successfully!") ;;
       logActivity (toolName +:+ " uninstalled") LSuccess "" true
     else
       showNotification ("Failed to uninstall " +:+ toolName +:+ ": " +:+ JS.interpolate (message result)) ;;
       logActivity (toolName +:+ " uninstallation failed: " +:+ JS.interpolate (message result)) LError "" false) w
  else
    (showNotification ("Installing " +:+ toolName +:+ "... This may take several minutes.") ;;
     logActivity ("Installation started for " +:+ toolName) LInfo "" false ;;
     if success result then
       setToolInstalled toolName true ;;
       showNotification (toolName +:+ " installed successfully!") ;;
       logActivity (toolName +:+ " installation completed") LSuccess "" true
     else
       showNotification ("Failed to install " +:+ toolName +:+ ": " +:+ JS.interpolate (message result)) ;;
       logActivity (toolName +:+ " installation failed: " +:+ JS.interpolate (message result)) LError "" true) w.

(** [renderToolsList] reads the flag and hands it to [createToolCard],
    which disables the install button with it. *)
Definition isInitialized (w : World) : bool := item_is "kterInitialized" "true" w.

Definition isButtonDisabled (isIncompatible isInitialized : bool) : bool :=
  isIncompatible || negb isInitialized.

(** *** Activation and initialisation *)

Definition detectOS (w : World) : string :=
  let ua := JS.toLowerCase (userAgent (host w)) in
  if JS.includes "win" ua then "windows"
  else if JS.includes "mac" ua then "macos"
  else if JS.includes "linux" ua then "linux"
  else if JS.includes "android" ua then "android"
  else "unknown".

Definition osName_of (os : string) : string :=
  default "" (prop [("windows", "Windows"); ("macos", "macOS"); ("linux", "Linux");
                    ("android", "Android"); ("unknown", "Unknown")] os).

Definition toISOString (t : Z) : string := num t.

(** The shell of [saveLicenseKeyToDisk]:
    [(localStorage.getItem('userOS') || 'linux') === 'windows' ? 'powershell' : 'bash']. *)
Definition license_shell (w : World) : string :=
  if bool_decide (or_else (getItem "userOS" w) "linux" = "windows")
  then "powershell" else "bash".

(** [saveLicenseKeyToDisk]: the shell command that writes
    [license_key.json] runs only through [window.electronAPI]; what it
    leaves in the file is the host's [license_file_after].  The caller does
    not await the command; its effect is taken at the call. *)
Definition saveLicenseKeyToDisk (key type : string) : M unit :=
  modify (fun w =>
    if electronAPI (host w)
    then with_disk
           (set_license (license_file_after (host w) (license_shell w) key type
                           (license_key_json (disk w)))) w
    else w).

(** What [activateKjer] writes into the status line of the dialog. *)
Inductive ActivationStatus :=
  | InvalidFormat
  | ActivationSuccessful
  | ReinitializationPrompt (newVersion currentVersion : string)
  | ActivationFailed (message : string).

(** [a || b] on texts that may be missing. *)
Definition first_truthy (a b : option string) : option string :=
  match a with
  | Some s => if decide (s = "") then b else Some s
  | None => b
  end.

Definition truthy (a : option string) : option string := first_truthy a None.

(** [activateKjer()]; [input] is the text of the key field and [reply]
    the backend's answer at the [await].  The two halves of the call,
    before and after the [await], are run back to back, so the clock of
    the world is the time at which the call resumes with the answer.  The
    key is handled as bytes: for a key of ASCII characters ([JS.is_ascii])
    its [trim], its case changes and its [length] are the script's. *)
Definition activateKjer (input : string) (reply : option BackendResult) : M ActivationStatus :=
  fun w =>
  let licenseKey := JS.toUpperCase (JS.trim input) in
  let keyLower := JS.toLowerCase licenseKey in
  let licenseType :=
    if JS.includes "ent" keyLower then "enterprise"
    else if JS.includes "pro" keyLower then "professional"
    else or_else (getItem "kterLicenseType" w) "personal" in
  if bool_decide (licenseKey = "") || negb (String.length licenseKey =? 24)%nat then
    (InvalidFormat, w)
  else
    let result := callBackend reply w in
    if success result then
      (setItem "kterLicenseKey" licenseKey ;;
       setItem "kterLicenseType" licenseType ;;
       setItem "kterActivated" "true" ;;
       saveLicenseKeyToDisk licenseKey licenseType ;;
       let newVersion := first_truthy (license_version result) (truthy (version result)) in
       currentVersion ← get (fun w => or_else (getItem "kterVersion" w) "1.0.0");
       isInitialized ← get isInitialized;
       match newVersion with
       | Some newVersion =>
           if bool_decide (newVersion ≠ currentVersion) && isInitialized then
             setItem "kterVersion" newVersion ;;
             mret (ReinitializationPrompt newVersion currentVersion)
           else
             setItem "kterVersion" newVersion ;;
             setTimeout TInitializeAfterActivation 1500 ;;
             mret ActivationSuccessful
       | None =>
           setTimeout TInitializeAfterActivation 1500 ;;
           mret ActivationSuccessful
       end) w
    else (ActivationFailed (JS.interpolate (message result)), w).

(** [BackendAPI.getInstallState]: the IPC call to the main process, or
    [{ success: false, state: null }] without the bridge. *)
Definition getInstallState (w : World) : MainProcess.Reply :=
  if electronAPI (host w)
  then MainProcess.read_install_state (install_state_json (disk w))
                                      (initialized_flag (disk w))
  else {| MainProcess.success := false; MainProcess.state := None;
          MainProcess.error := None |}.

(** [loadInstallStateIntoApp], run once when the page loads; it returns
    the stored ['userOS']. *)
Definition loadInstallStateIntoApp : M (option string) :=
  result ← get getInstallState;
  (match MainProcess.state result with
   | Some st =>
       if MainProcess.success result then
         (match truthy (MainProcess.s_os st) with
          | Some os =>
              setItem "userOS" os ;;
              (match truthy (MainProcess.s_distro st) with
               | Some distro => setItem "userDistro" distro
               | None => mret tt
               end) ;;
              (match truthy (MainProcess.s_installed_at st) with
               | Some installed_at => setItem "installedAt" installed_at
               | None => mret tt
               end) ;;
              logActivity ("OS detected at install time: "
                             +:+ or_else (MainProcess.s_distro st) os) LSuccess "" false
          | None => mret tt
          end) ;;
         (if MainProcess.initialized st
          then setItem "kterInitialized" "true" ;;
               logActivity "Initialization state restored from disk" LInfo "" false
          else removeItem "kterInitialized")
       else mret tt
   | None => mret tt
   end) ;;
  vf ← get (fun w => if electronAPI (host w) then version_json (disk w) else None);
  (match truthy vf with
   | Some v => setItem "kterVersion" v
   | None => mret tt
   end) ;;
  hasOS ← get (fun w => bool_decide (or_else (getItem "userOS" w) "" ≠ ""));
  (if hasOS : bool then mret tt
   else os ← get detectOS; setItem "userOS" os) ;;
  hasKey ← get (fun w => bool_decide (or_else (getItem "kterLicenseKey" w) "" ≠ ""));
  (if hasKey : bool then mret tt
   else
     cached ← get (fun w => if electronAPI (host w) then license_key_json (disk w) else None);
     match cached with
     | Some (key, type) =>
         if bool_decide (key = "") then mret tt
         else
           setItem "kterLicenseKey" key ;;
           (if bool_decide (type = "") then mret tt else setItem "kterLicenseType" type) ;;
           setItem "kterActivated" "true" ;;
           logActivity "License key restored from saved state" LInfo "" false
     | None => mret tt
     end) ;;
  get (getItem "userOS").

(** [syncPreInstalledTools]: the bridge of [preload.js] exposes no
    [readSystemAnalysis], so no analysis is ever read and the function
    ends at its "analysis data unavailable" exit. *)
Definition syncPreInstalledTools (osName : string) : M unit :=
  api ← get (fun w => electronAPI (host w));
  (if negb (bool_decide (osName = "windows")) && api
   then logActivity "Running system tool detection…" LInfo "" false
   else mret tt) ;;
  logActivity "Tool detection skipped — analysis data unavailable" LInfo "" false.

(** The part of [initializeDashboard] that leaves a trace: its closing
    Activity Log line. *)
Definition initializeDashboard : M unit :=
  installedDistro ← get (fun w => or_else (getItem "userDistro" w) (osName_of (detectOS w)));
  logActivity ("Security framework active for: " +:+ installedDistro) LInfo "" false.

Definition initializeKjer : M unit :=
  logActivity "Beginning Kjer initialization..." LInfo "" false ;;
  installedOS ← get (fun w => or_else (getItem "userOS" w) (detectOS w));
  installedDistro ← get (fun w => or_else (getItem "userDistro" w) installedOS);
  logActivity ("Activating security framework for: " +:+ installedDistro) LInfo "" false ;;
  setItem "kterInitialized" "true" ;;
  now ← get clock;
  setItem "initializationDate" (toISOString now) ;;
  hasOS ← get (fun w => bool_decide (or_else (getItem "userOS" w) "" ≠ ""));
  (if hasOS : bool then mret tt else setItem "userOS" installedOS) ;;
  modify (fun w =>
    if electronAPI (host w)
    then with_disk touch_initialized w
    else w) ;;
  throws ← get (fun w => init_throws (host w));
  match throws with
  | Some initErr =>
    removeItem "kterInitialized" ;;
    logActivity ("Initialization failed: " +:+ initErr) LError "" true ;;
    showNotification "✗ Initialization failed. Check the activity log for details."
  | None =>
    initializeDashboard ;;
    (if bool_decide (installedOS = "linux")
     then logActivity "Linux environment confirmed — enhanced Linux security profiles activated" LSuccess "" false
     else if bool_decide (installedOS = "macos")
     then logActivity "macOS environment confirmed — macOS security profiles activated" LSuccess "" false
     else if bool_decide (installedOS = "windows")
     then logActivity "Windows environment confirmed — Windows-optimized security suite activated" LSuccess "" false
     else mret tt) ;;
    syncPreInstalledTools installedOS ;;
    lines ← get (fun w => setup_log (host w));
    forEach lines (fun l => logActivity l.1 l.2 "" false) ;;
    setTimeout TInitializationComplete 2000
  end.

(** *** The event loop *)

Definition run_task (t : Task) : M unit :=
  match t with
  | TSection title => logSection title
  | TScanProbe results tool phaseName => scan_probe_callback results tool phaseName
  | TScanSummary results => scan_summary_callback results
  | TDefend run ph tool => defend_callback run ph tool
  | TDefenseSummary run => defense_summary_callback run
  | TInitializeAfterActivation => initializeKjer
  | TInitializationComplete =>
      logActivity "Initialization complete — Kjer is fully operational" LSuccess "" true ;;
      showNotification "✓ Kjer initialized successfully!"
  end.

(** One turn of the loop: the timer at the head of the queue fires, no
    earlier than its due time. *)
Definition turn (w : World) : World :=
  match timers w with
  | [] => w
  | t :: rest =>
      exec (run_task (task t))
           (with_clock (Z.max (due t)) (with_timers (fun _ => rest) w))
  end.

(** [n] turns of the loop. *)
Fixpoint turns (n : nat) (w : World) : World :=
  match n with
  | O => w
  | S n' => turns n' (turn w)
  end.

End Engine.
End Engine.

(** ** The script's functions *)

Definition getToolsByRole := Engine.getToolsByRole getInstalledTools.
Definition setToolInstalled := Engine.setToolInstalled getInstalledTools.
Definition performComprehensiveScan := Engine.performComprehensiveScan getInstalledTools.
Definition activateSmartDefense := Engine.activateSmartDefense getInstalledTools.
Definition installTool := Engine.installTool getInstalledTools.
Definition activateKjer := Engine.activateKjer.
Definition initializeKjer := Engine.initializeKjer.
Definition turn := Engine.turn _runToolScan.
Definition turns := Engine.turns _runToolScan.

Local Open Scope list_scope.

(** ** Notions used to state the properties *)

(** What a reader of the Result Store sees: the object behind
    [window.KjerLastScanResults], or nothing for [null]. *)
Definition observe (w : World) : option ScanResults :=
  KjerLastScanResults w ≫= (fun ref => scans w !! ref).

(** No callback of a scan, of a defence run or of an activation is pending
    (the toasts' timers are not looked at). *)
Definition idle (w : World) : Prop := timers w = [].

(** [keeps proj m]: running [m] does not change the part [proj] of the
    world. *)
Definition keeps {A B} (proj : World -> B) (m : M A) : Prop :=
  forall w, proj (m w).2 = proj w.

(** [post m w Q]: the result and the world that [m] leaves from [w]
    satisfy [Q]. *)
Definition post {A} (m : M A) (w : World) (Q : A -> World -> Prop) : Prop :=
  Q (m w).1 (m w).2.

(** Everything of the world but the Security Monitor and the random draws. *)
Definition core (w : World) :=
  (localStorage w, KjerLastScanResults w, scans w, defenses w, timers w,
   clock w, activity w, notifications w, disk w, host w).

(** An effect that touches only the Security Monitor and the list of
    random draws. *)
Definition only_sinks {A} (m : M A) : Prop := keeps core m.

(** A probe is admissible when it keeps to the monitor and its draws, as
    [_runToolScan] does. *)
Definition probe_frame (probe : ToolView -> string -> M (option Finding.t)) : Prop :=
  forall tool phaseName, only_sinks (probe tool phaseName).

(** The probes of one scan in dispatch order: phase by phase, and inside a
    phase in the order [getToolsByRole] returns the tools. *)
Definition scan_plan (reader : gmap string LSVal -> InstalledObj) (w : World)
    : list (ToolView * string) :=
  flat_map (fun pr : string * list string =>
              map (fun t => (t, pr.1)) (Engine.getToolsByRole reader pr.2 w))
           scan_phases.

(** What a probe callback does to the results object, given what the probe
    returned. *)
Definition apply_outcome (r : ScanResults) (outcome : option Finding.t) : ScanResults :=
  match outcome with
  | Some finding => record_finding finding (inc_toolsRun r)
  | None => inc_toolsRun r
  end.

(** The number of findings of a list that satisfy a test. *)
Fixpoint count (test : Finding.t -> bool) (fs : list Finding.t) : nat :=
  match fs with
  | [] => 0
  | f :: rest => (if test f then 1 else 0) + count test rest
  end.

Definition is_level (l : Level) (f : Finding.t) : bool :=
  bool_decide (Finding.level f = l).

Definition is_flagged_info (f : Finding.t) : bool :=
  bool_decide (Finding.level f = LInfo) && default false (Finding.flagged f).

(** The counters of a results object agree with its findings. *)
Definition counts_agree (r : ScanResults) : Prop :=
  critical r = count (is_level LCritical) (findings r) /\
  high r = count (is_level LError) (findings r) /\
  medium r = count (is_level LWarning) (findings r) /\
  low r = count is_flagged_info (findings r).

(** Every catalogue tool installed, as the later reader reports it when the
    single key it reads holds ['true']. *)
Definition all_installed : InstalledObj :=
  foldl (fun acc (kt : string * Tool) => <[name kt.2 := ITrue]> acc) ∅ TOOLS_DATABASE.

(** The value the [read-install-state] reply reports for [initialized]
    ([false] when the reply carries no state). *)
Definition reported_initialized (r : MainProcess.Reply) : bool :=
  match MainProcess.state r with
  | Some st => MainProcess.initialized st
  | None => false
  end.

(** Writing (or removing) the gate's flag ['kterInitialized']. *)
Definition set_flag (v : option LSVal) (w : World) : World :=
  with_localStorage (partial_alter (fun _ => v) "kterInitialized") w.

(** The callbacks one scan leaves in the queue before its summary: per
    active phase, the section header and then one probe per tool. *)
Definition scan_units (r : nat) (activePhases : list (string * list ToolView)) : list Task :=
  flat_map (fun pt : string * list ToolView =>
              TSection pt.1 :: map (fun t => TScanProbe r t pt.1) pt.2) activePhases.

(** The [activePhases] of a scan: the phases with at least one tool. *)
Definition active_phases (reader : gmap string LSVal -> InstalledObj) (w : World)
    : list (string * list ToolView) :=
  filter (fun pt : string * list ToolView => 0 < length pt.2)
         (map (fun pr : string * list string => (pr.1, Engine.getToolsByRole reader pr.2 w))
              scan_phases).

(** Every timer of the queue is due by [bound]. *)
Definition late_enough (bound : Z) (q : list Timer) : Prop :=
  Forall (fun t => (due t <= bound)%Z) q.

(** What a scheduling loop does: it appends timers to the queue, in order,
    and changes nothing else. *)
Definition appends (w : World) (res : Z * World) (d : Z) (tasks : list Task) : Prop :=
  (d <= res.1)%Z /\
  exists q, res.2 = with_timers (fun _ => timers w ++ q) w /\
            map task q = tasks /\
            late_enough (clock w + res.1) (timers w ++ q).

(** The part of the world the engine's logic depends on: everything but
    the sinks (monitor, activity log, notifications) and the random draws. *)
Definition essence (w : World) :=
  (localStorage w, KjerLastScanResults w, scans w, defenses w, timers w,
   clock w, disk w, host w).

(** The fresh [results] object of a scan started in [w]. *)
Definition init_results (w : World) : ScanResults :=
  {| startedAt := clock w; completedAt := None; findings := [];
     critical := 0; high := 0; medium := 0; low := 0; toolsRun := 0 |}.

(** A section header, or a probe callback of the scan whose results
    object is [r]. *)
Definition is_unit_of (r : nat) (t : Task) : Prop :=
  match t with
  | TSection _ => True
  | TScanProbe r' _ _ => r' = r
  | _ => False
  end.

(** The probes among a list of callbacks, in order. *)
Definition probes_of (ts : list Task) : list (ToolView * string) :=
  omap (fun t => match t with
                 | TScanProbe _ tool ph => Some (tool, ph)
                 | _ => None
                 end) ts.

(** [o] is what the probe returned for this tool and phase in some world. *)
Definition produced_by (probe : ToolView -> string -> M (option Finding.t))
    (tp : ToolView * string) (o : option Finding.t) : Prop :=
  exists w0, o = (probe tp.1 tp.2 w0).1.

(** A small world to evaluate on: nothing stored, nothing pending. *)
Definition fresh_world : World :=
  {| localStorage := ∅; KjerLastScanResults := None; scans := []; defenses := [];
     timers := []; clock := 0; random := []; monitor := []; activity := [];
     notifications := []; toast_timers := [];
     disk := {| install_state_json := MainProcess.Missing; initialized_flag := false;
                license_key_json := None; version_json := None |};
     host := {| userAgent := "Mozilla/5.0 (X11; Linux x86_64)"; electronAPI := true;
                init_throws := None; setup_log := [];
                license_file_after := fun _ key type _ => Some (key, type) |} |}.

(** The world a scan leaves once all its timers have fired. *)
Definition complete_scan (reader : gmap string LSVal -> InstalledObj)
    (probe : ToolView -> string -> M (option Finding.t)) (w : World) : World :=
  let w1 := exec (Engine.performComprehensiveScan reader) w in
  Engine.turns probe (length (timers w1)) w1.

(** The keys of the tools the scan phases can dispatch, all tools installed. *)
Definition scanner_keys : list string :=
  flat_map (fun pr : string * list string =>
              map fst (filter (fun kt : string * Tool => kt.1 ∈ flat_map role_keys pr.2)
                              TOOLS_DATABASE))
           scan_phases.

(** A world in which the later reader reports every catalogue tool
    installed. *)
Definition equipped_world : World :=
  with_localStorage (fun _ => {[ "tool_undefined_installed" := LStr "true" ]}) fresh_world.

(** A complete earlier result, and a world whose Result Store holds it. *)
Definition earlier_result : ScanResults :=
  {| startedAt := 0; completedAt := Some 5000%Z; findings := [];
     critical := 0; high := 0; medium := 0; low := 0; toolsRun := 3 |}.

Definition stale_world : World :=
  with_KjerLastScanResults (fun _ => Some 0)
    (with_scans (fun _ => [earlier_result]) equipped_world).

(** A probe that answers from a fixed table, as a test double would: one
    critical finding for ClamAV, nothing for any other tool. *)
Definition clamav_stub (tool : ToolView) (phaseName : string) : option Finding.t :=
  if bool_decide (key tool = "clamav")
  then Some (Finding.mk phaseName (name (entry tool)) (key tool) LCritical "1 threat" None)
  else None.

Definition stub_probe (tool : ToolView) (phaseName : string) : M (option Finding.t) :=
  mret (clamav_stub tool phaseName).

(** ** Notions of the defence run and of the gate *)

(** The callbacks one defence phase leaves in the queue. *)
Definition phase_units (run : nat) (ph : DefPhase) (title : string)
    (tools : list ToolView) (triggered : bool) : list Task :=
  if (0 <? length tools)%nat && triggered
  then TSection title :: map (TDefend run ph) tools
  else [].

(** The variables of a defence run started in [w], as the function
    computes them on entry. *)
Definition defense_entry (w : World) : DefenseRun :=
  let scanData := Engine.has_scan_data w in
  let fs := Engine.findings_of (KjerLastScanResults w) scanData w in
  {| scanResults := KjerLastScanResults w;
     hasScanData := scanData;
     hasNetworkThreat :=
       Engine.some_finding ["wireshark"; "suricata"; "zeek"] [LCritical; LError; LWarning] fs;
     hasMalware :=
       Engine.some_finding ["clamav"; "rkhunter"; "chkrootkit"; "malwarebytes";
                            "windows-defender"; "kaspersky"] [LCritical; LError] fs;
     hasIntegrityViolation := Engine.some_finding ["aide"; "tripwire"] [LCritical; LWarning] fs;
     hasComplianceGap :=
       Engine.some_finding ["lynis"; "cis-cat"; "osquery"; "auditd"; "tiger"]
                           [LCritical; LError; LWarning] fs;
     hasMemoryThreat := Engine.some_finding ["volatility"] [LCritical; LWarning] fs;
     hasVulns := Engine.some_finding ["nessus"; "openvas"; "gvm"] [LCritical; LError; LWarning] fs;
     broadMode := negb scanData;
     actionsTotal := 0;
     toolsEngaged := ∅ |}.

(** The callbacks a defence run leaves in the queue before its summary. *)
Definition defense_units (reader : gmap string LSVal -> InstalledObj) (run : nat) (w : World)
    : list Task :=
  let d := defense_entry w in
  let fs := Engine.findings_of (KjerLastScanResults w) (hasScanData d) w in
  phase_units run NetworkPerimeter "PHASE 1 — NETWORK & PERIMETER"
    (Engine.networkDefenders reader w) (broadMode d || hasNetworkThreat d || hasVulns d)
  ++ phase_units run MalwareContainment "PHASE 2 — MALWARE CONTAINMENT"
    (Engine.avTools reader w) (broadMode d || hasMalware d || hasMemoryThreat d)
  ++ phase_units run AccessControl "PHASE 3 — ACCESS CONTROL ENFORCEMENT"
    (Engine.macTools reader w) (broadMode d || hasComplianceGap d || hasMalware d)
  ++ phase_units run FileIntegrity "PHASE 4 — FILE INTEGRITY"
    (Engine.integrityTools reader w) (broadMode d || hasIntegrityViolation d)
  ++ phase_units run AuditHardening "PHASE 5 — AUDIT HARDENING"
    (Engine.complianceDefenders reader w) (broadMode d || hasComplianceGap d)
  ++ phase_units run SiemAlertRules "PHASE 6 — SIEM ALERT RULES"
    (Engine.siemTools reader w) (broadMode d || (0 <? length fs)%nat).

(** What the rest of a scheduling function does: it appends timers, in
    order, and changes nothing else. *)
Definition appends_all (w w' : World) (tasks : list Task) : Prop :=
  exists q, w' = with_timers (fun _ => timers w ++ q) w /\ map task q = tasks.

(** Keys for which a phase's [switch] has a [case]; the two phases without
    a [switch] act for every tool. *)
Definition acts (ph : DefPhase) (k : string) : bool :=
  match ph with
  | NetworkPerimeter => JS.arr_includes ["ufw"; "fail2ban"; "suricata"] k
  | MalwareContainment =>
      JS.arr_includes ["clamav"; "rkhunter"; "chkrootkit"; "malwarebytes";
                       "windows-defender"; "kaspersky"] k
  | AccessControl => JS.arr_includes ["apparmor"; "selinux"] k
  | AuditHardening => JS.arr_includes ["lynis"; "auditd"] k
  | FileIntegrity | SiemAlertRules => true
  end.

(** [toolsEngaged.add(t.name)] followed by [actionsTotal++]. *)
Definition engage (n : string) (d : DefenseRun) : DefenseRun :=
  Engine.inc_actionsTotal (Engine.add_toolsEngaged n d).

(** A callback of defence run [run] that takes an action, or a section
    header. *)
Definition is_defense_unit (run : nat) (t : Task) : Prop :=
  match t with
  | TSection _ => True
  | TDefend r ph tool => r = run /\ acts ph (key tool) = true
  | _ => False
  end.

(** What a callback does to the variables of its run. *)
Definition unit_effect (t : Task) (d : DefenseRun) : DefenseRun :=
  match t with
  | TDefend _ _ tool => engage (name (entry tool)) d
  | _ => d
  end.

Definition is_defend (t : Task) : bool :=
  match t with TDefend _ _ _ => true | _ => false end.

(** An effect that changes the defence runs by [f] and otherwise touches
    only the monitor and the random draws. *)
Definition bumps {A} (f : list DefenseRun -> list DefenseRun) (m : M A) : Prop :=
  forall w, core (m w).2 = core (with_defenses f w).

(** The line the summary callback writes to the Activity Log. *)
Definition summary_line (actions : nat) (p : Engine.Posture) : string :=
  if (0 <? actions)%nat
  then "Defense complete — " +:+ nnum actions +:+ " action(s)  |  Posture: "
         +:+ Engine.posture_text p
  else "Defense complete — no defensive tools installed".

(** The variables of a run once its callbacks [units] have fired. *)
Definition after_units (units : list Task) (d : DefenseRun) : DefenseRun :=
  foldl (fun d t => unit_effect t d) d units.

(** The world a defence run leaves once all its timers have fired. *)
Definition complete_defense (reader : gmap string LSVal -> InstalledObj)
    (probe : ToolView -> string -> M (option Finding.t)) (w : World) : World :=
  let w1 := exec (Engine.activateSmartDefense reader) w in
  Engine.turns probe (length (timers w1)) w1.

(** The number of actions the callbacks [units] take. *)
Fixpoint actions_taken (units : list Task) : nat :=
  match units with
  | [] => 0
  | t :: rest => (if is_defend t then 1 else 0) + actions_taken rest
  end.

(** The findings a defence run started in [w] works from:
    [hasScanData ? scanResults.findings : []]. *)
Definition findings_used (w : World) : list Finding.t :=
  Engine.findings_of (KjerLastScanResults w) (Engine.has_scan_data w) w.

(** The posture in the specification's words: no defensive tools if no
    action was taken, else preventive hardening if no findings were used,
    else incident response if one of them is critical, else hardened. *)
Definition claimed_posture (actions : nat) (used : list Finding.t) : Engine.Posture :=
  if bool_decide (actions = 0) then Engine.NO_DEFENSIVE_TOOLS
  else match used with
       | [] => Engine.HARDENED_preventive
       | _ :: _ =>
           if existsb (is_level LCritical) used
           then Engine.INCIDENT_RESPONSE_ACTIVE
           else Engine.HARDENED
       end.

(** A defence phase is engaged when a callback of it is in the queue. *)
Definition engages (ph : DefPhase) (run : nat) (w : World) : Prop :=
  exists tool, TDefend run ph tool ∈ map task (timers w).

(** The trigger of Malware Containment as the specification words it... *)
Definition claimed_malware_trigger (f : Finding.t) : Prop :=
  Finding.key f ∈ role_keys "malware_scan" ++ role_keys "memory_scan" /\
  Finding.level f ∈ [LCritical; LError].

(** ... and as the function computes it: [hasMalware || hasMemoryThreat]. *)
Definition malware_trigger (f : Finding.t) : Prop :=
  (Finding.key f ∈ role_keys "malware_scan" /\ Finding.level f ∈ [LCritical; LError]) \/
  (Finding.key f ∈ role_keys "memory_scan" /\ Finding.level f ∈ [LCritical; LWarning]).

(** A complete result with one critical finding of ClamAV, and a world
    whose Result Store holds it. *)
Definition clamav_finding : Finding.t :=
  Finding.mk "MALWARE & EDR" "ClamAV" "clamav" LCritical "1 threat" None.

Definition infected_result : ScanResults :=
  {| startedAt := 0; completedAt := Some 5000%Z; findings := [clamav_finding];
     critical := 1; high := 0; medium := 0; low := 0; toolsRun := 22 |}.

Definition infected_world : World :=
  with_KjerLastScanResults (fun _ => Some 0)
    (with_scans (fun _ => [infected_result]) equipped_world).

(** A complete result whose only finding is a warning of Volatility, and a
    world whose Result Store holds it. *)
Definition volatility_finding : Finding.t :=
  Finding.mk "MEMORY FORENSICS" "Volatility" "volatility" LWarning
    "2 anomalous process(es) in memory — verify parent-child chain" None.

Definition memory_warning_result : ScanResults :=
  {| startedAt := 0; completedAt := Some 5000%Z; findings := [volatility_finding];
     critical := 0; high := 0; medium := 1; low := 0; toolsRun := 22 |}.

Definition memory_warning_world : World :=
  with_KjerLastScanResults (fun _ => Some 0)
    (with_scans (fun _ => [memory_warning_result]) equipped_world).

(** [flag_blind m]: the effect [m] neither reads nor writes the gate's
    flag: it runs the same whatever the flag holds, and leaves it alone. *)
Definition flag_blind {A} (m : M A) : Prop :=
  forall v w, m (set_flag v w) = ((m w).1, set_flag v (m w).2).

(** The backend's answer to a successful install. *)
Definition installed_reply : Engine.BackendResult :=
  {| Engine.success := true; Engine.message := None;
     Engine.license_version := None; Engine.version := None |}.

(** The version a successful activation reports:
    [result.license_version || result.version || null]. *)
Definition activation_version (reply : option Engine.BackendResult) (w : World)
    : option string :=
  Engine.first_truthy (Engine.license_version (Engine.callBackend reply w))
                      (Engine.truthy (Engine.version (Engine.callBackend reply w))).

(** [isUpgrade] of [activateKjer]: a version is reported, it is not the
    stored one, and Kjer is initialised. *)
Definition is_upgrade (reply : option Engine.BackendResult) (w : World) : bool :=
  match activation_version reply w with
  | Some newVersion =>
      bool_decide (newVersion ≠ or_else (getItem "kterVersion" w) "1.0.0")
      && Engine.isInitialized w
  | None => false
  end.

(** The licence type [activateKjer] infers for a key. *)
Definition inferred_type (licenseKey : string) (w : World) : string :=
  if JS.includes "ent" (JS.toLowerCase licenseKey) then "enterprise"
  else if JS.includes "pro" (JS.toLowerCase licenseKey) then "professional"
  else or_else (getItem "kterLicenseType" w) "personal".

(** The backend's answer to an accepted key. *)
Definition accepted_reply : Engine.BackendResult :=
  {| Engine.success := true; Engine.message := None;
     Engine.license_version := Some "1.0.0"; Engine.version := None |}.

(** ** Notions and functions of the further properties *)

(** The levels at which a result line counts as a threat. *)
Definition severe (l : Level) : bool :=
  match l with
  | LWarning | LError | LCritical => true
  | LInfo | LSuccess => false
  end.

(** A [case] of the probe that flags its line only at a severe level. *)
Definition flags_severe (m : M Reading) : Prop :=
  forall w, let '(_, level, flagged) := (m w).1 in flagged = true -> severe level = true.

(** The line the scan's summary writes to the Activity Log. *)
Definition scan_summary_line (r : ScanResults) : string :=
  if (0 <? length (findings r))%nat
  then "Scan complete — " +:+ nnum (length (findings r))
         +:+ " threat(s) detected  |  Threat level: " +:+ threatLevel r
  else "Scan complete — no threats detected".

(** A finding is of a declared phase, of a tool that holds a role of that
    phase, under the tool's catalogue name, and of an installed tool. *)
Definition well_placed (installed : InstalledObj) (f : Finding.t) : Prop :=
  exists (roles : list string) (tool : Tool),
    (Finding.phase f, roles) ∈ scan_phases /\
    Finding.key f ∈ flat_map role_keys roles /\
    (Finding.key f, tool) ∈ TOOLS_DATABASE /\
    Finding.tool f = name tool /\
    is_Some (installed !! name tool).

(** The probe timers of one phase, the first due at [at], 550 ms apart. *)
Fixpoint probe_timers (r : nat) (ph : string) (tools : list ToolView) (at_ : Z) : list Timer :=
  match tools with
  | [] => []
  | tool :: rest =>
      {| due := at_; task := TScanProbe r tool ph |} :: probe_timers r ph rest (at_ + 550)
  end.

(** The timers of the phases: the header of a phase, its probes from 300
    ms later, and the next phase 200 ms after the slot of the last probe. *)
Fixpoint phase_timers (r : nat) (phases : list (string * list ToolView)) (at_ : Z)
    : list Timer :=
  match phases with
  | [] => []
  | (ph, tools) :: rest =>
      {| due := at_; task := TSection ph |}
      :: probe_timers r ph tools (at_ + 300)
      ++ phase_timers r rest (at_ + 300 + 550 * Z.of_nat (length tools) + 200)
  end.

(** The time the phases take: 500 ms per phase and 550 ms per probe. *)
Fixpoint scan_span (phases : list (string * list ToolView)) : Z :=
  match phases with
  | [] => 0
  | (_, tools) :: rest => 500 + 550 * Z.of_nat (length tools) + scan_span rest
  end.

(** Every timer of the list is due from [from] on and before [bound], and
    the due times increase strictly along the list. *)
Fixpoint ascending (from bound : Z) (q : list Timer) : Prop :=
  match q with
  | [] => (from <= bound)%Z
  | t :: rest => (from <= due t)%Z /\ ascending (due t + 1) bound rest
  end.

(** The phases in the order the function goes through them. *)
Definition defense_phases : list DefPhase :=
  [NetworkPerimeter; MalwareContainment; AccessControl; FileIntegrity;
   AuditHardening; SiemAlertRules].

Definition phase_title (ph : DefPhase) : string :=
  match ph with
  | NetworkPerimeter => "PHASE 1 — NETWORK & PERIMETER"
  | MalwareContainment => "PHASE 2 — MALWARE CONTAINMENT"
  | AccessControl => "PHASE 3 — ACCESS CONTROL ENFORCEMENT"
  | FileIntegrity => "PHASE 4 — FILE INTEGRITY"
  | AuditHardening => "PHASE 5 — AUDIT HARDENING"
  | SiemAlertRules => "PHASE 6 — SIEM ALERT RULES"
  end.

(** The tools a phase would engage. *)
Definition phase_tools (reader : gmap string LSVal -> InstalledObj) (ph : DefPhase)
    (w : World) : list ToolView :=
  match ph with
  | NetworkPerimeter => Engine.networkDefenders reader w
  | MalwareContainment => Engine.avTools reader w
  | AccessControl => Engine.macTools reader w
  | FileIntegrity => Engine.integrityTools reader w
  | AuditHardening => Engine.complianceDefenders reader w
  | SiemAlertRules => Engine.siemTools reader w
  end.

(** The second half of the [if] that guards a phase. *)
Definition phase_trigger (d : DefenseRun) (fs : list Finding.t) (ph : DefPhase) : bool :=
  match ph with
  | NetworkPerimeter => broadMode d || hasNetworkThreat d || hasVulns d
  | MalwareContainment => broadMode d || hasMalware d || hasMemoryThreat d
  | AccessControl => broadMode d || hasComplianceGap d || hasMalware d
  | FileIntegrity => broadMode d || hasIntegrityViolation d
  | AuditHardening => broadMode d || hasComplianceGap d
  | SiemAlertRules => broadMode d || (0 <? length fs)%nat
  end.

(** The [delay += ...] step between the tools of a phase. *)
Definition phase_step (ph : DefPhase) : Z :=
  match ph with
  | FileIntegrity | SiemAlertRules => 450
  | _ => 500
  end.

(** The roles a phase draws its tools from, and the keys it keeps. *)
Definition phase_roles (ph : DefPhase) : list string :=
  match ph with
  | NetworkPerimeter => ["firewall"; "ips"]
  | MalwareContainment => ["av_remediate"]
  | AccessControl => ["firewall"]
  | FileIntegrity => ["integrity_scan"]
  | AuditHardening => ["compliance_scan"]
  | SiemAlertRules => ["siem"]
  end.

Definition phase_keeps (ph : DefPhase) (k : string) : bool :=
  match ph with
  | NetworkPerimeter => JS.arr_includes ["ufw"; "fail2ban"; "suricata"] k
  | AccessControl => JS.arr_includes ["apparmor"; "selinux"] k
  | AuditHardening => JS.arr_includes ["lynis"; "auditd"] k
  | MalwareContainment | FileIntegrity | SiemAlertRules => true
  end.

(** The names of the catalogue tools a phase can engage, all installed. *)
Definition phase_pool (ph : DefPhase) : list string :=
  map (fun kt : string * Tool => name kt.2)
      (filter (fun kt : string * Tool =>
                 kt.1 ∈ flat_map role_keys (phase_roles ph) /\ phase_keeps ph kt.1 = true)
              TOOLS_DATABASE).

Definition defender_names : list string := flat_map phase_pool defense_phases.

(** The tool names of the defence callbacks of a list, in order. *)
Definition names_of (units : list Task) : list string :=
  omap (fun t => match t with
                 | TDefend _ _ tool => Some (name (entry tool))
                 | _ => None
                 end) units.

(** A reader that reports UFW installed and nothing else. *)
Definition only_ufw (ls : gmap string LSVal) : InstalledObj := {[ "UFW" := ITrue ]}.

(** What the licence part of [loadInstallStateIntoApp] depends on and
    writes: the three licence entries, the host and the disk. *)
Definition licence_view (w : World) :=
  (localStorage w !! "kterLicenseKey", localStorage w !! "kterLicenseType",
   localStorage w !! "kterActivated", host w, disk w).

(** A world whose licence is on the disk only. *)
Definition licensed_disk_world : World :=
  with_disk (write_license "KJER-PRO-1234-5678-9ABCD" "professional") fresh_world.



(** The page opened in a browser: no [window.electronAPI]. *)
Definition browser_world : World :=
  with_host (fun h => {| userAgent := userAgent h; electronAPI := false;
                         init_throws := init_throws h; setup_log := setup_log h;
                         license_file_after := license_file_after h |})
            fresh_world.

(** Both logs within their caps. *)
Definition capped (w : World) : Prop :=
  length (activity w) <= ActivityLog.maxEntries /\
  length (monitor w) <= SecurityMonitor.maxEntries.

(** The ['notifications'] setting is switched off and [ns] are the toasts
    shown so far. *)
Definition muted (ns : list string) (w : World) : Prop :=
  localStorage w !! "notifications" = Some (LStr "false") /\ notifications w = ns.

(** [stays P m]: running [m] keeps the property [P] of the world. *)
Definition stays {A} (P : World -> Prop) (m : M A) : Prop :=
  forall w, P w -> P (m w).2.

(** [clearCache()]; [confirmed] is the answer to the [confirm] dialog. *)
Definition clearCache (confirmed : bool) : M unit :=
  if confirmed then
    modify (with_localStorage (fun _ => ∅)) ;;
    showNotification "Cache cleared successfully" ;;
    logActivity "Cache cleared by user" LInfo "" false
  else mret tt.

(** [saveSetting(key, value)] for the value of a check box. *)
Definition saveSetting (key : string) (value : bool) : M unit :=
  setItem key (if value then "true" else "false") ;;
  logActivity ("Setting updated: " +:+ key) LInfo "" false.

(** All tools installed and the notifications switched off. *)
Definition quiet_world : World :=
  exec (saveSetting "notifications" false) equipped_world.

(** A world left by an earlier initialisation, with notifications off. *)
Definition settled_world : World :=
  exec (saveSetting "notifications" false) (exec initializeKjer fresh_world).

(** What [#toolsList] holds after a render: a notice, or one card per
    listed tool. *)
Inductive ToolsList (Card : Type) :=
  | Notice (text : string)
  | Cards (cards : list Card).
Arguments Notice {Card} text.
Arguments Cards {Card} cards.

(** A tool as [getToolsForCurrentOS] hands it on: the catalogue entry, with
    [isIncompatible: true] added for the OS-exclusive tools of another OS. *)
Record ListedTool := { listed : Tool; isIncompatible : bool }.

(** The parts of a tool card that depend on the state. *)
Record ToolCard := {
  card_tool : Tool;
  statusText : string;
  buttonText : string;
  compatibility : Z;
  initializeHint : bool;
  disabled : bool
}.

(** [localStorage.getItem('userOS') || SystemInfo.detectOS()]. *)
Definition currentOS (w : World) : string :=
  or_else (getItem "userOS" w) (Engine.detectOS w).

Definition getToolsForCurrentOS (w : World) : list (string * ListedTool) :=
  omap (fun kt : string * Tool =>
          if bool_decide (currentOS w ∈ osCompatibility kt.2)
          then Some (kt.1, {| listed := kt.2; isIncompatible := false |})
          else if bool_decide (length (osCompatibility kt.2) = 1)
          then Some (kt.1, {| listed := kt.2; isIncompatible := true |})
          else None)
       TOOLS_DATABASE.

(** [tool.compatibilityScore[osKey] || 0] with the [osKey] of the card. *)
Definition card_score (t : Tool) (w : World) : Z :=
  let os := Engine.detectOS w in
  if bool_decide (os = "windows") then windows (compatibilityScore t)
  else if bool_decide (os = "macos") then macos (compatibilityScore t)
  else linux (compatibilityScore t).

Section ToolBox.

Variable reader : gmap string LSVal -> InstalledObj.

Definition createToolCard (tool : ListedTool) (isInitialized : bool) (w : World) : ToolCard :=
  let installed := reader (localStorage w) in
  let isInstalled := bool_decide (is_Some (installed !! name (listed tool))) in
  {| card_tool := listed tool;
     statusText := if isInstalled then "Installed" else "Available";
     buttonText := if isInstalled then "Uninstall" else "Install";
     compatibility := card_score (listed tool) w;
     initializeHint := negb isInitialized;
     disabled := Engine.isButtonDisabled (isIncompatible tool) isInitialized |}.

Definition renderToolsList (w : World) : ToolsList ToolCard :=
  let isInitialized := Engine.isInitialized w in
  let compatibleTools := getToolsForCurrentOS w in
  if bool_decide (length compatibleTools = 0) then
    Notice "No tools available for your system"
  else
    Cards ((fun kt : string * ListedTool => createToolCard kt.2 isInitialized w)
             <$> compatibleTools).

Definition filterToolsByStatus (status : string) (w : World) : ToolsList ToolCard :=
  let isInitialized := Engine.isInitialized w in
  if negb isInitialized
     && (bool_decide (status = "installed") || bool_decide (status = "available")) then
    Notice "Please initialize Kjer to use filters"
  else
    let installed := reader (localStorage w) in
    let filteredTools :=
      if bool_decide (status = "installed") then
        filter (fun kt : string * Tool => is_Some (installed !! kt.1)) TOOLS_DATABASE
      else if bool_decide (status = "available") then
        filter (fun kt : string * Tool => ¬ is_Some (installed !! kt.1)) TOOLS_DATABASE
      else TOOLS_DATABASE in
    if bool_decide (length filteredTools = 0) then
      Notice ((if bool_decide (status = "installed")
               then "No installed tools" else "No available tools") +:+ ".")
    else
      Cards ((fun kt : string * Tool =>
                createToolCard {| listed := kt.2; isIncompatible := false |}
                               isInitialized w)
             <$> filteredTools).

End ToolBox.

(** The cards of a list; none for a notice. *)
Definition cards_of {Card} (l : ToolsList Card) : list Card :=
  match l with
  | Notice _ => []
  | Cards cs => cs
  end.

(** The OS the installer recorded, as far as the renderer can read it. *)
Definition installer_os (w : World) : option string :=
  if electronAPI (host w) then
    match install_state_json (disk w) with
    | MainProcess.Holds f => Engine.truthy (MainProcess.os f)
    | _ => None
    end
  else None.

Definition chosen_os (w : World) : string :=
  default (or_else (getItem "userOS" w) (Engine.detectOS w)) (installer_os w).

(** What the choice of the OS depends on. *)
Definition os_view (w : World) := (localStorage w !! "userOS", host w).

(** The [state] object sent to ['write-install-state']: for each property,
    whether the object lists it, and if so its text ([None] for [null] or
    [undefined], which [JSON.stringify] writes as [null] or leaves out). *)
Record StateUpdate := {
  u_os : option (option string);
  u_distro : option (option string);
  u_installed_at : option (option string);
  u_install_path : option (option string)
}.

(** One property of [{ ...existing, ...state }]. *)
Definition spread (existing : option string) (update : option (option string)) : option string :=
  match update with
  | Some v => v
  | None => existing
  end.

Definition merge_state (existing : MainProcess.InstallStateFile) (state : StateUpdate) :
    MainProcess.InstallStateFile :=
  {| MainProcess.os := spread (MainProcess.os existing) (u_os state);
     MainProcess.distro := spread (MainProcess.distro existing) (u_distro state);
     MainProcess.installed_at :=
       spread (MainProcess.installed_at existing) (u_installed_at state);
     MainProcess.install_path :=
       spread (MainProcess.install_path existing) (u_install_path state) |}.

Record WriteReply := { written : bool; write_error : option string }.

(** The handler of ['write-install-state'] on a writable [~/.kjer]: the
    file it leaves and its reply.  A file that exists but does not parse
    makes [JSON.parse] throw before anything is written. *)
Definition write_install_state (state : StateUpdate) (stateFile : MainProcess.StateFile) :
    MainProcess.StateFile * WriteReply :=
  match stateFile with
  | MainProcess.Missing =>
      (MainProcess.Holds
         (merge_state {| MainProcess.os := None; MainProcess.distro := None;
                         MainProcess.installed_at := None;
                         MainProcess.install_path := None |} state),
       {| written := true; write_error := None |})
  | MainProcess.NotJson =>
      (MainProcess.NotJson,
       {| written := false;
          write_error := Some (MainProcess.error_message MainProcess.NotJson) |})
  | MainProcess.Holds existing =>
      (MainProcess.Holds (merge_state existing state),
       {| written := true; write_error := None |})
  end.

Definition with_install_state (f : MainProcess.StateFile) (d : Disk) : Disk :=
  {| install_state_json := f; initialized_flag := initialized_flag d;
     license_key_json := license_key_json d; version_json := version_json d |}.

(** The timers of the tools of one phase, the first due at [at_], [step]
    ms apart. *)
Fixpoint defender_timers (run : nat) (ph : DefPhase) (tools : list ToolView)
    (step at_ : Z) : list Timer :=
  match tools with
  | [] => []
  | tool :: rest =>
      {| due := at_; task := TDefend run ph tool |}
      :: defender_timers run ph rest step (at_ + step)
  end.

(** A phase as the function goes through it: the phase, its title, its
    tools, its trigger and the step between its tools. *)
Record PhasePlan := {
  plan_phase : DefPhase;
  plan_title : string;
  plan_tools : list ToolView;
  plan_triggered : bool;
  plan_step : Z
}.

Definition engaged (p : PhasePlan) : bool :=
  (0 <? length (plan_tools p))%nat && plan_triggered p.

(** The time an engaged phase takes: 300 ms after its header, one step per
    tool, and 200 ms before the next phase; a phase that is not engaged
    takes none. *)
Definition phase_span (p : PhasePlan) : Z :=
  if engaged p then 300 + plan_step p * Z.of_nat (length (plan_tools p)) + 200 else 0.

Definition phase_plan_timers (run : nat) (p : PhasePlan) (at_ : Z) : list Timer :=
  if engaged p
  then {| due := at_; task := TSection (plan_title p) |}
       :: defender_timers run (plan_phase p) (plan_tools p) (plan_step p) (at_ + 300)
  else [].

Fixpoint plan_timers (run : nat) (plan : list PhasePlan) (at_ : Z) : list Timer :=
  match plan with
  | [] => []
  | p :: rest => phase_plan_timers run p at_ ++ plan_timers run rest (at_ + phase_span p)
  end.

Fixpoint plan_span (plan : list PhasePlan) : Z :=
  match plan with
  | [] => 0
  | p :: rest => phase_span p + plan_span rest
  end.

(** The six [if] blocks of [activateSmartDefense] in a world [w]. *)
Definition defense_plan (reader : gmap string LSVal -> InstalledObj) (w : World)
    : list PhasePlan :=
  map (fun ph => {| plan_phase := ph; plan_title := phase_title ph;
                    plan_tools := phase_tools reader ph w;
                    plan_triggered := phase_trigger (defense_entry w) (findings_used w) ph;
                    plan_step := phase_step ph |})
      defense_phases.

(** The blocks one after the other, each starting at the delay the one
    before it left, and then [rest] with the last delay. *)
Fixpoint schedule_plan (run : nat) (plan : list PhasePlan) (rest : Z -> M unit)
    (delay : Z) : M unit :=
  match plan with
  | [] => rest delay
  | p :: plan' =>
      Engine.schedule_defense_phase run (plan_phase p) (plan_title p)
        (plan_tools p) (plan_triggered p) (plan_step p) delay
      ≫= schedule_plan run plan' rest
  end.

(** The ['notifications'] setting holds what the page leaves there: nothing,
    or the JSON text of a check box, written by [saveSetting].  These are
    the settings [showNotification] is defined for. *)
Definition setting_saved (w : World) : Prop :=
  localStorage w !! "notifications" = None \/
  localStorage w !! "notifications" = Some (LStr "true") \/
  localStorage w !! "notifications" = Some (LStr "false").

(** The texts shown and the toasts' timers once the toasts [messages] have
    been shown, one after the other, in a world [w] whose clock stands
    still meanwhile: nothing changes when the notifications are switched
    off; else each text is added and each toast sets its 4000 ms timer. *)
Definition after_toasts (messages : list string) (w : World)
    : list string * list ToastTimer :=
  if item_is "notifications" "false" w then (notifications w, toast_timers w)
  else (notifications w ++ messages,
        foldl (fun q m => enqueue_toast {| toast_due := clock w + 4000;
                                           toast_task := ToastExit m |} q)
              (toast_timers w) messages).

(** What the toasts depend on and change. *)
Definition toast_view (w : World) :=
  (notifications w, toast_timers w, clock w, localStorage w).

(** * Properties *)

(** ** Basic facts about the monad and the sinks *)

Ltac munfold :=
  unfold exec, mbind, M_bind, mret, M_ret, get, modify in *.

Lemma head_unshift_capped {A} (n : nat) (e : A) (es : list A) :
  head (unshift_capped (S n) e es) = Some e.
Proof.
  unfold unshift_capped. destruct (S n <? length (e :: es))%nat eqn:E; [|reflexivity].
  destruct es as [|e' es']; [|reflexivity].
  simpl in E. apply Nat.ltb_lt in E. lia.
Qed.

(** ** Frame reasoning: what an effect leaves alone *)

Lemma keeps_ret {A B} (proj : World -> B) (a : A) : keeps proj (mret a).
Proof. intros w. reflexivity. Qed.

Lemma keeps_bind {A B C} (proj : World -> C) (m : M A) (k : A -> M B) :
  keeps proj m -> (forall a, keeps proj (k a)) -> keeps proj (m ≫= k).
Proof.
  intros Hm Hk w. unfold mbind, M_bind.
  destruct (m w) as [a w1] eqn:E.
  rewrite (Hk a w1). specialize (Hm w). rewrite E in Hm. exact Hm.
Qed.

Lemma keeps_get {A B} (proj : World -> B) (f : World -> A) : keeps proj (get f).
Proof. intros w. reflexivity. Qed.

Lemma keeps_modify {B} (proj : World -> B) (g : World -> World) :
  (forall w, proj (g w) = proj w) -> keeps proj (modify g).
Proof. intros Hg w. apply Hg. Qed.

Lemma keeps_forEach {A B} (proj : World -> B) (xs : list A) (body : A -> M unit) :
  (forall x, keeps proj (body x)) -> keeps proj (forEach xs body).
Proof.
  intros Hb. induction xs as [|x xs IH]; cbn [forEach].
  - apply keeps_ret.
  - apply keeps_bind; [apply Hb|intros _; exact IH].
Qed.

Lemma keeps_if {A B} (proj : World -> B) (c : bool) (m1 m2 : M A) :
  keeps proj m1 -> keeps proj m2 -> keeps proj (if c then m1 else m2).
Proof. destruct c; auto. Qed.

Lemma keeps_exec {A B} (proj : World -> B) (m : M A) (w : World) :
  keeps proj m -> proj (exec m w) = proj w.
Proof. intros H. apply H. Qed.

Lemma keeps_switch {A B} (proj : World -> B) (k : string)
    (cases : list (string * M A)) (dflt : M A) :
  Forall (fun c => keeps proj c.2) cases -> keeps proj dflt ->
  keeps proj (switch k cases dflt).
Proof.
  intros Hc Hd. unfold switch.
  induction Hc as [|[k' c] cases Hk _ IH]; cbn [prop]; [exact Hd|].
  destruct (String.eqb k' k); [exact Hk|exact IH].
Qed.

Lemma keeps_showNotification {B} (proj : World -> B) (msg : string) :
  (forall f w, proj (with_notifications f w) = proj w) ->
  (forall f w, proj (with_toast_timers f w) = proj w) ->
  keeps proj (showNotification msg).
Proof.
  intros H H' w. unfold showNotification, modify. cbn [snd].
  destruct (item_is _ _ w); [reflexivity|rewrite H'; apply H].
Qed.

Lemma keeps_Math_random {B} (proj : World -> B) :
  (forall f w, proj (with_random f w) = proj w) -> keeps proj Math_random.
Proof.
  intros H w. unfold Math_random. destruct (random w); [reflexivity|apply H].
Qed.

Lemma keeps_monitor_push {B} (proj : World -> B) tool msg lvl ty :
  (forall f w, proj (with_monitor f w) = proj w) ->
  keeps proj (SecurityMonitor.push tool msg lvl ty).
Proof. intros H w. apply H. Qed.

Lemma keeps_monitor_clear {B} (proj : World -> B) :
  (forall f w, proj (with_monitor f w) = proj w) -> keeps proj SecurityMonitor.clear.
Proof. intros H w. apply H. Qed.

Lemma keeps_logActivity {B} (proj : World -> B) msg lvl tool imp :
  (forall f w, proj (with_activity f w) = proj w) ->
  keeps proj (logActivity msg lvl tool imp).
Proof. intros H w. apply H. Qed.

Lemma keeps_setTimeout {B} (proj : World -> B) (t : Task) (delay : Z) :
  (forall f w, proj (with_timers f w) = proj w) -> keeps proj (setTimeout t delay).
Proof. intros H w. apply H. Qed.

Lemma keeps_setItem_other (k k' text : string) :
  k <> k' -> keeps (fun w => localStorage w !! k') (setItem k text).
Proof. intros Hne w. cbn. apply lookup_insert_ne. exact Hne. Qed.

Lemma keeps_removeItem_other (k k' : string) :
  k <> k' -> keeps (fun w => localStorage w !! k') (removeItem k).
Proof. intros Hne w. cbn. apply lookup_delete_ne. exact Hne. Qed.

(** The step of the frame tactic: split a compound effect, or close a
    primitive one by computing the projection. *)
Ltac frame_step :=
  first
    [ apply keeps_ret
    | apply keeps_get
    | apply keeps_bind; [|intros ?]
    | apply keeps_forEach; intros ?
    | apply keeps_showNotification; intros ? ?; reflexivity
    | apply keeps_Math_random; intros ? ?; reflexivity
    | apply keeps_monitor_push; intros ? ?; reflexivity
    | apply keeps_monitor_clear; intros ? ?; reflexivity
    | apply keeps_logActivity; intros ? ?; reflexivity
    | apply keeps_setTimeout; intros ? ?; reflexivity
    | apply keeps_setItem_other; discriminate
    | apply keeps_removeItem_other; discriminate
    | apply keeps_modify; intros ?; reflexivity
    | apply keeps_if
    | progress unfold logResult, logSection, logDivider, SecurityMonitor.log,
        SecurityMonitor.section, SecurityMonitor.divider, ri, random_score_tenths,
        reading, updateLastUpdateTime
    | match goal with
      | |- keeps _ (match ?x with _ => _ end) => destruct x
      end ].

Ltac frame := repeat frame_step.

Ltac lookup_inserts :=
  repeat first [ rewrite lookup_insert_eq
               | rewrite lookup_insert_ne by discriminate
               | rewrite lookup_delete_eq
               | rewrite lookup_delete_ne by discriminate ].

(** ** Stepping through an effect *)

Lemma post_ret {A} (a : A) (w : World) (Q : A -> World -> Prop) :
  Q a w -> post (mret a) w Q.
Proof. exact (fun H => H). Qed.

Lemma post_bind {A B} (m : M A) (k : A -> M B) (w : World) (Q : B -> World -> Prop) :
  post m w (fun a w1 => post (k a) w1 Q) -> post (m ≫= k) w Q.
Proof. unfold post, mbind, M_bind. destruct (m w). exact (fun H => H). Qed.

Lemma post_get {A} (f : World -> A) (w : World) (Q : A -> World -> Prop) :
  Q (f w) w -> post (get f) w Q.
Proof. exact (fun H => H). Qed.

Lemma post_modify (g : World -> World) (w : World) (Q : unit -> World -> Prop) :
  Q tt (g w) -> post (modify g) w Q.
Proof. exact (fun H => H). Qed.

Lemma post_exec {A} (m : M A) (w : World) (P : World -> Prop) :
  post m w (fun _ w' => P w') -> P (exec m w).
Proof. exact (fun H => H). Qed.

(** Skip an effect of which only the frame matters. *)
Lemma post_keeps {A B} (proj : World -> B) (m : M A) (w : World)
    (Q : A -> World -> Prop) :
  keeps proj m ->
  (forall a w', proj w' = proj w -> Q a w') ->
  post m w Q.
Proof. intros Hk HQ. apply HQ. apply Hk. Qed.

Ltac mstep :=
  lazymatch goal with
  | |- post (mbind _ _) _ _ => apply post_bind
  | |- post (mret _) _ _ => apply post_ret
  | |- post (get _) _ _ => apply post_get
  | |- post (modify _) _ _ => apply post_modify
  | |- post (logActivity _ _ _ _) _ _ => apply post_modify
  | |- post (setItem _ _) _ _ => apply post_modify
  | |- post (removeItem _) _ _ => apply post_modify
  | |- post (setTimeout _ _) _ _ => apply post_modify
  | |- post (showNotification _) _ _ => apply post_modify
  | |- post (SecurityMonitor.push _ _ _ _) _ _ => apply post_modify
  | |- post SecurityMonitor.clear _ _ => apply post_modify
  | |- post (SecurityMonitor.log _ _ _) _ _ => apply post_modify
  | |- post (SecurityMonitor.section _) _ _ => apply post_modify
  | |- post SecurityMonitor.divider _ _ => apply post_modify
  | |- post updateLastUpdateTime _ _ => apply post_ret
  end.

Lemma exec_bind {A B} (m : M A) (k : A -> M B) (w : World) :
  exec (m ≫= k) w = exec (k (m w).1) (m w).2.
Proof. unfold exec, mbind, M_bind. destruct (m w). reflexivity. Qed.

(** ** The catalogue *)

Lemma no_entry_defines_id :
  Forall (fun kt : string * Tool => id kt.2 = None) TOOLS_DATABASE.
Proof. apply (bool_decide_unpack _). vm_compute. exact I. Qed.

Lemma catalogue_keys_NoDup : NoDup (map fst TOOLS_DATABASE).
Proof. apply (bool_decide_unpack _). vm_compute. exact I. Qed.

Lemma catalogue_names_NoDup :
  NoDup (map (fun kt : string * Tool => name kt.2) TOOLS_DATABASE).
Proof. apply (bool_decide_unpack _). vm_compute. exact I. Qed.

(** ** The later reader *)

Lemma reader_fold (ls : gmap string LSVal) (db : list (string * Tool)) :
  Forall (fun kt : string * Tool => id kt.2 = None) db ->
  forall acc,
    foldl (fun (installedTools : InstalledObj) '((toolKey, tool) : string * Tool) =>
             let isInstalled :=
               bool_decide (ls !! ("tool_" +:+ JS.interpolate (id tool) +:+ "_installed")
                            = Some (LStr "true")) in
             if isInstalled then <[name tool := ITrue]> installedTools else installedTools)
          acc db
    = if bool_decide (ls !! "tool_undefined_installed" = Some (LStr "true"))
      then foldl (fun acc (kt : string * Tool) => <[name kt.2 := ITrue]> acc) acc db
      else acc.
Proof.
  induction 1 as [|[k t] db Hid _ IH]; intros acc.
  - simpl. destruct (bool_decide _); reflexivity.
  - simpl in *. rewrite IH, Hid. simpl.
    destruct (bool_decide _); reflexivity.
Qed.

Lemma getInstalledTools_cases (ls : gmap string LSVal) :
  getInstalledTools ls =
    if bool_decide (ls !! "tool_undefined_installed" = Some (LStr "true"))
    then all_installed else ∅.
Proof. apply (reader_fold ls _ no_entry_defines_id). Qed.

Lemma all_installed_lookup (n : string) :
  is_Some (all_installed !! n) <->
  n ∈ map (fun kt : string * Tool => name kt.2) TOOLS_DATABASE.
Proof.
  unfold all_installed.
  assert (G : forall db (acc : InstalledObj),
             is_Some (foldl (fun acc (kt : string * Tool) => <[name kt.2 := ITrue]> acc) acc db !! n)
             <-> (n ∈ map (fun kt : string * Tool => name kt.2) db \/ is_Some (acc !! n))).
  { induction db as [|[k t] db IH]; intros acc; simpl.
    - rewrite elem_of_nil. tauto.
    - rewrite IH, elem_of_cons, lookup_insert_is_Some'. simpl.
      clear IH. intuition congruence. }
  rewrite G, lookup_empty. split; [intros [?|[? ?]]; [done|discriminate] | auto].
Qed.

Lemma getInstalledTools_ignores (k : string) (v : option LSVal) (ls : gmap string LSVal) :
  k <> "tool_undefined_installed" ->
  getInstalledTools (partial_alter (fun _ => v) k ls) = getInstalledTools ls.
Proof.
  intros Hk. rewrite !getInstalledTools_cases.
  rewrite lookup_partial_alter_ne by exact Hk. reflexivity.
Qed.

(** C10.  The name [getInstalledTools] is bound to the later of the two
    declarations.  That reader reports a catalogue tool installed exactly
    when the key built from the tool's [id] holds ['true']; no catalogue
    entry has an [id], so the key is ['tool_undefined_installed'] for every
    tool and the tools are reported installed all together or not at all;
    and what [setToolInstalled] writes (under ['installedTools']) does not
    change what the reader returns. *)
Theorem later_getInstalledTools_in_effect :
  (forall ls,
     call_declaration (binding_of declarations_of_getInstalledTools) ls
     = Some (getInstalledTools ls)) /\
  (forall ls k t, (k, t) ∈ TOOLS_DATABASE ->
     is_Some (getInstalledTools ls !! name t) <->
     ls !! ("tool_" +:+ JS.interpolate (id t) +:+ "_installed") = Some (LStr "true")) /\
  (forall k t, (k, t) ∈ TOOLS_DATABASE ->
     id t = None /\
     "tool_" +:+ JS.interpolate (id t) +:+ "_installed" = "tool_undefined_installed") /\
  (forall ls,
     (forall k t, (k, t) ∈ TOOLS_DATABASE -> is_Some (getInstalledTools ls !! name t)) \/
     getInstalledTools ls = ∅) /\
  (forall toolName isInstalled w,
     localStorage (exec (setToolInstalled toolName isInstalled) w)
       = <["installedTools" :=
             LInstalled (if isInstalled
                         then <[toolName := IMeta "installed" (clock w)]>
                                (getInstalledTools (localStorage w))
                         else delete toolName (getInstalledTools (localStorage w)))]>
           (localStorage w) /\
     getInstalledTools (localStorage (exec (setToolInstalled toolName isInstalled) w))
       = getInstalledTools (localStorage w)).
Proof.
  assert (Hid : forall k t, (k, t) ∈ TOOLS_DATABASE -> id t = None).
  { intros k t Hin.
    exact (proj1 (Forall_forall _ _) no_entry_defines_id (k, t) Hin). }
  assert (Hname : forall k t, (k, t) ∈ TOOLS_DATABASE ->
            name t ∈ map (fun kt : string * Tool => name kt.2) TOOLS_DATABASE).
  { intros k t Hin. apply list_elem_of_fmap. exists (k, t). split; [reflexivity|exact Hin]. }
  split; [|split; [|split; [|split]]].
  - intros ls.
    cbv [binding_of declarations_of_getInstalledTools List.last call_declaration
         getInstalledTools].
    reflexivity.
  - intros ls k t Hin. rewrite (Hid k t Hin). simpl.
    rewrite getInstalledTools_cases.
    destruct (bool_decide _) eqn:E.
    + apply bool_decide_eq_true in E. split; [intros _; exact E|intros _].
      apply all_installed_lookup. eauto.
    + apply bool_decide_eq_false in E. rewrite lookup_empty.
      split; [intros [? ?]; discriminate|intros; contradiction].
  - intros k t Hin. rewrite (Hid k t Hin). split; reflexivity.
  - intros ls. rewrite getInstalledTools_cases.
    destruct (bool_decide _); [left|right; reflexivity].
    intros k t Hin. apply all_installed_lookup. eauto.
  - intros toolName isInstalled w. split.
    + unfold setToolInstalled, Engine.setToolInstalled. munfold. simpl.
      destruct isInstalled; reflexivity.
    + unfold setToolInstalled, Engine.setToolInstalled. munfold. simpl.
      apply (getInstalledTools_ignores "installedTools" (Some _)). discriminate.
Qed.

(** ** The state gate: reading the persisted state *)

(** C9, as stated, fails: with [install_state.json] absent but the
    [initialized] flag file present, the reply reports [initialized = true]. *)
Lemma absent_state_file_reports_initialized :
  ~ (forall initFlagExists,
       reported_initialized
         (MainProcess.read_install_state MainProcess.Missing initFlagExists) = false).
Proof. intros H. specialize (H true). discriminate H. Qed.

(** C9, amended.  When [install_state.json] is absent (or is not JSON) the
    handler does not raise: it replies with the read error recorded, and the
    reply reports exactly whether the [initialized] flag file exists, with
    [success] equal to that and with a state that holds nothing else; in
    particular it reports [initialized = false], with a [null] state, when
    the flag file is absent too. *)
Theorem absent_state_file_fails_soft (stateFile : MainProcess.StateFile)
    (initFlagExists : bool) :
  (stateFile = MainProcess.Missing \/ stateFile = MainProcess.NotJson) ->
  let reply := MainProcess.read_install_state stateFile initFlagExists in
  reported_initialized reply = initFlagExists /\
  MainProcess.success reply = initFlagExists /\
  is_Some (MainProcess.error reply) /\
  MainProcess.state reply =
    (if initFlagExists
     then Some {| MainProcess.s_os := None; MainProcess.s_distro := None;
                  MainProcess.s_installed_at := None;
                  MainProcess.s_install_path := None;
                  MainProcess.initialized := true |}
     else None).
Proof.
  intros [-> | ->]; destruct initFlagExists; cbn; repeat split; eauto.
Qed.

Lemma absent_state_file_fails_soft_witness :
  reported_initialized
    (MainProcess.read_install_state MainProcess.Missing false) = false.
Proof.
  exact (proj1 (absent_state_file_fails_soft MainProcess.Missing false
                  (or_introl eq_refl))).
Defined.

(** ** The scan engine: aborts *)

Section ScanAborts.

Variable reader : gmap string LSVal -> InstalledObj.

(** C7.  A scan started while no tool is installed logs the abort
    ("Scan aborted — no security tools installed", at warning level) and
    does nothing else: no timer is set, no results object is created, the
    Security Monitor is not touched, and the Result Store keeps the value
    it had. *)
Theorem scan_without_tools_aborts (w : World) :
  reader (localStorage w) = ∅ ->
  let w' := exec (Engine.performComprehensiveScan reader) w in
  KjerLastScanResults w' = KjerLastScanResults w /\
  observe w' = observe w /\
  scans w' = scans w /\
  timers w' = timers w /\
  monitor w' = monitor w /\
  localStorage w' = localStorage w /\
  head (activity w') =
    Some {| a_time := clock w; a_level := LWarning;
            a_message := "Scan aborted — no security tools installed";
            a_tool := ""; a_important := false |}.
Proof.
  intros Hempty w'. subst w'.
  unfold Engine.performComprehensiveScan, exec.
  rewrite Hempty, map_size_empty. simpl bool_decide. cbv iota.
  unfold showNotification, logActivity, ActivityLog.add.
  munfold. cbn -[unshift_capped].
  destruct (item_is "notifications" "false" w); cbn -[unshift_capped];
    repeat split; apply (head_unshift_capped 199).
Qed.

End ScanAborts.

Lemma scan_without_tools_aborts_witness :
  KjerLastScanResults (exec performComprehensiveScan fresh_world) = None.
Proof.
  refine (proj1 (scan_without_tools_aborts getInstalledTools fresh_world _)).
  vm_compute. reflexivity.
Defined.

(** ** The state gate: activation and initialisation *)

Lemma initializeKjer_sets_flag (w : World) :
  init_throws (host w) = None ->
  Engine.isInitialized (exec initializeKjer w) = true.
Proof.
  intros Hno. unfold Engine.isInitialized, item_is.
  apply bool_decide_eq_true.
  apply (post_exec _ _ (fun w' => localStorage w' !! "kterInitialized" = Some (LStr "true"))).
  unfold initializeKjer, Engine.initializeKjer.
  repeat mstep.
  match goal with |- post (if ?c then _ else _) _ _ => destruct c end;
    repeat mstep;
    cbn [host with_localStorage with_activity with_disk];
    (match goal with |- context [if ?c then _ else _] => destruct c end);
    cbn [host with_localStorage with_activity with_disk]; rewrite Hno;
    (apply (post_keeps (fun w => localStorage w !! "kterInitialized"));
     [unfold Engine.initializeDashboard, Engine.syncPreInstalledTools; frame
     |intros _ w' ->; cbn; lookup_inserts; reflexivity]).
Qed.


Lemma activation_effect (input : string) (reply : option Engine.BackendResult)
    (w : World) :
  let licenseKey := JS.toUpperCase (JS.trim input) in
  let licenseType := inferred_type licenseKey w in
  String.length licenseKey = 24 ->
  Engine.success (Engine.callBackend reply w) = true ->
  let status := (Engine.activateKjer input reply w).1 in
  let w' := (Engine.activateKjer input reply w).2 in
  localStorage w' !! "kterLicenseKey" = Some (LStr licenseKey) /\
  localStorage w' !! "kterLicenseType" = Some (LStr licenseType) /\
  localStorage w' !! "kterActivated" = Some (LStr "true") /\
  localStorage w' !! "kterInitialized" = localStorage w !! "kterInitialized" /\
  disk w' = set_license (license_file_after (host w) (Engine.license_shell w)
                           licenseKey licenseType (license_key_json (disk w))) (disk w) /\
  host w' = host w /\
  clock w' = clock w /\
  (if is_upgrade reply w
   then (exists newVersion currentVersion,
           status = Engine.ReinitializationPrompt newVersion currentVersion) /\
        timers w' = timers w
   else status = Engine.ActivationSuccessful /\
        timers w' = enqueue {| due := clock w + 1500; task := TInitializeAfterActivation |}
                            (timers w)).
Proof.
  intros licenseKey licenseType Hlen Hok status w'.
  assert (Hapi : electronAPI (host w) = true).
  { unfold Engine.callBackend in Hok.
    destruct (electronAPI (host w)); [reflexivity|discriminate Hok]. }
  assert (Hkey : licenseKey <> "").
  { intros E. rewrite E in Hlen. discriminate Hlen. }
  subst status w'. unfold Engine.activateKjer.
  fold licenseKey. fold (inferred_type licenseKey w). fold licenseType.
  rewrite (bool_decide_eq_false_2 _ Hkey), Hlen, Hok. cbn [orb negb Nat.eqb].
  fold (activation_version reply w).
  set (ls3 := <["kterActivated" := LStr "true"]>
                (<["kterLicenseType" := LStr licenseType]>
                   (<["kterLicenseKey" := LStr licenseKey]> (localStorage w)))).
  set (w3 := with_localStorage (fun _ => ls3) w).
  set (w4 := with_disk (set_license (license_file_after (host w) (Engine.license_shell w)
                           licenseKey licenseType (license_key_json (disk w)))) w3).
  assert (H4 : forall {A} (k : M A),
             (setItem "kterLicenseKey" licenseKey ;;
              setItem "kterLicenseType" licenseType ;;
              setItem "kterActivated" "true" ;;
              Engine.saveLicenseKeyToDisk licenseKey licenseType ;; k) w = k w4).
  { intros A k. unfold Engine.saveLicenseKeyToDisk, setItem. munfold.
    cbn [fst snd]. cbn [host with_localStorage]. rewrite Hapi.
    f_equal. subst w4 w3 ls3. unfold Engine.license_shell, getItem.
    cbn [localStorage with_localStorage disk].
    rewrite !lookup_insert_ne by discriminate. destruct w. reflexivity. }
  rewrite H4.
  assert (Hv : or_else (getItem "kterVersion" w4) "1.0.0"
               = or_else (getItem "kterVersion" w) "1.0.0").
  { unfold getItem. subst w4 w3 ls3. cbn [localStorage with_disk with_localStorage].
    rewrite !lookup_insert_ne by discriminate. reflexivity. }
  assert (Hi : Engine.isInitialized w4 = Engine.isInitialized w).
  { unfold Engine.isInitialized, item_is. subst w4 w3 ls3.
    cbn [localStorage with_disk with_localStorage].
    rewrite !lookup_insert_ne by discriminate. reflexivity. }
  assert (Hbase : forall wf,
            (forall k, k <> "kterVersion" -> localStorage wf !! k = localStorage w4 !! k) ->
            disk wf = disk w4 -> host wf = host w4 -> clock wf = clock w4 ->
            localStorage wf !! "kterLicenseKey" = Some (LStr licenseKey) /\
            localStorage wf !! "kterLicenseType" = Some (LStr licenseType) /\
            localStorage wf !! "kterActivated" = Some (LStr "true") /\
            localStorage wf !! "kterInitialized" = localStorage w !! "kterInitialized" /\
            disk wf = set_license (license_file_after (host w) (Engine.license_shell w)
                        licenseKey licenseType (license_key_json (disk w))) (disk w) /\
            host wf = host w /\ clock wf = clock w).
  { intros wf Hls Hd Hh Hc. rewrite !Hls by discriminate. rewrite Hd, Hh, Hc.
    subst w4 w3 ls3. cbn [localStorage with_disk with_localStorage disk host clock].
    lookup_inserts. repeat split. }
  unfold is_upgrade. munfold. cbn [fst snd]. rewrite Hv, Hi.
  destruct (activation_version reply w) as [newVersion|].
  - destruct (bool_decide (newVersion <> _) && Engine.isInitialized w).
    + unfold setItem. munfold. cbn [fst snd].
      destruct (Hbase (with_localStorage (<["kterVersion" := LStr newVersion]>) w4))
        as (H1 & H2 & H3 & H5 & H6 & H7 & H8); try reflexivity.
      { intros k Hk. cbn. apply lookup_insert_ne. congruence. }
      repeat (split; [assumption|]). split; [eauto|reflexivity].
    + unfold setItem, setTimeout. munfold. cbn [fst snd].
      match goal with |- context [localStorage ?wf !! "kterLicenseKey"] =>
        destruct (Hbase wf) as (H1 & H2 & H3 & H5 & H6 & H7 & H8) end; try reflexivity.
      { intros k Hk. cbn. apply lookup_insert_ne. congruence. }
      repeat (split; [assumption|]). split; reflexivity.
  - unfold setTimeout. munfold. cbn [fst snd].
    match goal with |- context [localStorage ?wf !! "kterLicenseKey"] =>
      destruct (Hbase wf) as (H1 & H2 & H3 & H5 & H6 & H7 & H8) end; try reflexivity.
    repeat (split; [assumption|]). split; reflexivity.
Qed.

(** C4, amended.  For a key typed in ASCII, a successful activation stores
    the licence in [localStorage] (key, type and the activated mark) and
    leaves the initialised flag as it was at the end of the call, in
    [localStorage] and on disk.  Initialisation is nevertheless not a
    separate transition: unless the activation is an upgrade of an
    initialised installation, which ends in the prompt to reinitialise and
    schedules nothing, [activateKjer] sets a timer of its own whose
    callback is [initializeKjer]; with no other callback pending it fires
    next, and, the initialisation not failing, leaves Kjer initialised. *)
Theorem activation_schedules_initialization (input : string)
    (reply : option Engine.BackendResult) (w : World) :
  let licenseKey := JS.toUpperCase (JS.trim input) in
  JS.is_ascii input = true ->
  String.length licenseKey = 24 ->
  Engine.success (Engine.callBackend reply w) = true ->
  let status := (activateKjer input reply w).1 in
  let w' := (activateKjer input reply w).2 in
  localStorage w' !! "kterLicenseKey" = Some (LStr licenseKey) /\
  localStorage w' !! "kterLicenseType" = Some (LStr (inferred_type licenseKey w)) /\
  localStorage w' !! "kterActivated" = Some (LStr "true") /\
  localStorage w' !! "kterInitialized" = localStorage w !! "kterInitialized" /\
  initialized_flag (disk w') = initialized_flag (disk w) /\
  (is_upgrade reply w = true ->
   (exists newVersion currentVersion,
      status = Engine.ReinitializationPrompt newVersion currentVersion) /\
   timers w' = timers w) /\
  (is_upgrade reply w = false ->
   status = Engine.ActivationSuccessful /\
   timers w' = enqueue {| due := clock w + 1500; task := TInitializeAfterActivation |}
                       (timers w) /\
   (timers w = [] -> init_throws (host w) = None ->
    Engine.isInitialized (turn w') = true)).
Proof.
  intros licenseKey _ Hlen Hok status w'. subst status w'. unfold activateKjer.
  destruct (activation_effect input reply w Hlen Hok)
    as (Hk & Ht & Ha & Hi & Hd & Hh & Hc & Hcase).
  fold licenseKey in Hk, Ht, Hd.
  split; [exact Hk|]. split; [exact Ht|]. split; [exact Ha|]. split; [exact Hi|].
  split; [rewrite Hd; reflexivity|].
  split; intros Hup; rewrite Hup in Hcase.
  - exact Hcase.
  - destruct Hcase as [Hst Htm]. split; [exact Hst|]. split; [exact Htm|].
    intros Hidle Hno. unfold turn, Engine.turn. rewrite Htm, Hidle.
    cbn [enqueue task due Engine.run_task].
    apply initializeKjer_sets_flag. cbn [host with_clock with_timers].
    rewrite Hh. exact Hno.
Qed.

(** C4, the claim as it was made.  After a successful activation on a
    fresh page nothing but the activation's own timer is pending, and when
    it fires Kjer is initialised: initialisation has happened with no
    separate, explicit transition. *)
Lemma activation_initializes_by_itself :
  let w' := (activateKjer "kjer-pro-1234-5678-9abcd" (Some accepted_reply) fresh_world).2 in
  Engine.isInitialized fresh_world = false /\
  Engine.isInitialized w' = false /\
  map task (timers w') = [TInitializeAfterActivation] /\
  Engine.isInitialized (turn w') = true.
Proof. vm_compute. repeat split. Qed.

Lemma activation_schedules_initialization_witness :
  let w' := (activateKjer "kjer-pro-1234-5678-9abcd" (Some accepted_reply) fresh_world).2 in
  localStorage w' !! "kterLicenseKey" = Some (LStr "KJER-PRO-1234-5678-9ABCD") /\
  localStorage w' !! "kterInitialized" = None /\
  Engine.isInitialized (turn w') = true.
Proof.
  pose proof (activation_schedules_initialization "kjer-pro-1234-5678-9abcd"
                (Some accepted_reply) fresh_world eq_refl eq_refl eq_refl) as H.
  cbv zeta in H.
  destruct H as (Hk & _ & _ & Hi & _ & _ & Hrun).
  split; [exact Hk|]. split; [exact Hi|].
  apply Hrun; reflexivity.
Defined.

(** ** Running a scan *)

Lemma enqueue_last (t : Timer) (q : list Timer) :
  late_enough (due t) q -> enqueue t q = q ++ [t].
Proof.
  induction 1 as [|h q Hh _ IH]; [reflexivity|].
  cbn [enqueue]. destruct (due t <? due h)%Z eqn:E.
  - apply Z.ltb_lt in E. lia.
  - rewrite IH. reflexivity.
Qed.

Lemma late_enough_weaken (b b' : Z) (q : list Timer) :
  (b <= b')%Z -> late_enough b q -> late_enough b' q.
Proof.
  intros Hb H. eapply Forall_impl; [exact H|]. cbn. intros t Ht. lia.
Qed.

(** ** The timer queue and the scheduling loops *)

Section Scheduling.
Variable reader : gmap string LSVal -> InstalledObj.

Lemma with_timers_id (w : World) : with_timers (fun _ => timers w) w = w.
Proof. destruct w; reflexivity. Qed.

Lemma schedule_probes_appends (r : nat) (ph : string) (tools : list ToolView) :
  forall (d : Z) (w : World),
    late_enough (clock w + d) (timers w) ->
    appends w (Engine.schedule_probes r ph tools d w) d
            (map (fun t => TScanProbe r t ph) tools).
Proof.
  induction tools as [|tool tools IH]; intros d w Hq.
  - split; [cbn; lia|]. exists []. cbn. rewrite app_nil_r, with_timers_id. auto.
  - cbn [Engine.schedule_probes]. unfold mbind, M_bind, setTimeout, modify.
    set (w1 := with_timers _ w).
    assert (Hw1 : timers w1 = timers w ++ [{| due := clock w + d; task := TScanProbe r tool ph |}]).
    { subst w1. cbn. apply enqueue_last. exact Hq. }
    destruct (IH (d + 550)%Z w1) as (Hd & q & Hw & Hm & Hl).
    { rewrite Hw1. subst w1. cbn [clock with_timers].
      apply Forall_app. split.
      - eapply late_enough_weaken; [|exact Hq]. lia.
      - repeat constructor. cbn. lia. }
    split; [lia|].
    exists ({| due := clock w + d; task := TScanProbe r tool ph |} :: q).
    rewrite Hw, Hw1. split; [|split].
    + subst w1. cbn. rewrite <- app_assoc. reflexivity.
    + cbn. rewrite Hm. reflexivity.
    + rewrite Hw1, <- app_assoc in Hl. exact Hl.
Qed.

Lemma schedule_phases_appends (r : nat) (phases : list (string * list ToolView)) :
  forall (d : Z) (w : World),
    late_enough (clock w + d) (timers w) ->
    appends w (Engine.schedule_phases r phases d w) d (scan_units r phases).
Proof.
  induction phases as [|[ph tools] phases IH]; intros d w Hq.
  - split; [cbn; lia|]. exists []. cbn. rewrite app_nil_r, with_timers_id. auto.
  - cbn [Engine.schedule_phases]. unfold mbind at 1, M_bind at 1, setTimeout, modify.
    set (w1 := with_timers _ w).
    assert (Hw1 : timers w1 = timers w ++ [{| due := clock w + d; task := TSection ph |}]).
    { subst w1. cbn. apply enqueue_last. exact Hq. }
    unfold mbind, M_bind.
    destruct (schedule_probes_appends r ph tools (d + 300)%Z w1) as (Hd & q & Hw & Hm & Hl).
    { rewrite Hw1. subst w1. cbn [clock with_timers].
      apply Forall_app. split.
      - eapply late_enough_weaken; [|exact Hq]. lia.
      - repeat constructor. cbn. lia. }
    destruct (Engine.schedule_probes r ph tools (d + 300)%Z w1) as [d2 w2].
    cbn [fst snd] in *.
    destruct (IH (d2 + 200)%Z w2) as (Hd' & q' & Hw' & Hm' & Hl').
    { rewrite Hw. cbn [clock timers with_timers].
      eapply late_enough_weaken; [|exact Hl]. subst w1. cbn. lia. }
    destruct (Engine.schedule_phases r phases (d2 + 200)%Z w2) as [d3 w3].
    cbn [fst snd] in *. unfold appends. cbn [fst snd].
    split; [lia|].
    exists ({| due := clock w + d; task := TSection ph |} :: q ++ q').
    subst w3 w2. cbn [timers with_timers clock] in *. rewrite Hw1 in *.
    split; [|split].
    + subst w1. cbn. rewrite <- !app_assoc. reflexivity.
    + cbn. rewrite map_app, Hm, Hm'. reflexivity.
    + rewrite <- !app_assoc in Hl'. subst w1. exact Hl'.
Qed.

End Scheduling.

Lemma essence_eq (w w' : World) :
  essence w' = essence w ->
  localStorage w' = localStorage w /\ KjerLastScanResults w' = KjerLastScanResults w /\
  scans w' = scans w /\ defenses w' = defenses w /\ timers w' = timers w /\
  clock w' = clock w /\ disk w' = disk w /\ host w' = host w.
Proof. unfold essence. intros E. injection E. intros. repeat split; assumption. Qed.

(** Step over an effect that leaves the essence alone. *)
Ltac mskip :=
  first [ apply post_bind | idtac ];
  apply (post_keeps essence); [frame | intros ? ? ?].

Section ScanStart.
Variable reader : gmap string LSVal -> InstalledObj.

Lemma post_schedule_phases (r : nat) (phases : list (string * list ToolView)) (d : Z)
    (w : World) (Q : Z -> World -> Prop) :
  late_enough (clock w + d) (timers w) ->
  (forall d' q, (d <= d')%Z -> map task q = scan_units r phases ->
                late_enough (clock w + d') (timers w ++ q) ->
                Q d' (with_timers (fun _ => timers w ++ q) w)) ->
  post (Engine.schedule_phases r phases d) w Q.
Proof.
  intros Hq HQ. destruct (schedule_phases_appends r phases d w Hq) as (Hd & q & Hw & Hm & Hl).
  unfold post. rewrite Hw. apply HQ; assumption.
Qed.

Lemma scan_starts (w : World) :
  reader (localStorage w) <> ∅ ->
  active_phases reader w <> [] ->
  late_enough (clock w + 400) (timers w) ->
  let w1 := exec (Engine.performComprehensiveScan reader) w in
  let r := length (scans w) in
  KjerLastScanResults w1 = None /\
  scans w1 = scans w ++ [init_results w] /\
  (exists q, timers w1 = timers w ++ q /\
             map task q = scan_units r (active_phases reader w) ++ [TScanSummary r]) /\
  localStorage w1 = localStorage w /\
  defenses w1 = defenses w /\
  clock w1 = clock w.
Proof.
  intros Hinst Hact Hq w1 r. subst w1.
  unfold exec, Engine.performComprehensiveScan. cbv beta zeta.
  rewrite (bool_decide_eq_false_2 (size (reader (localStorage w)) = 0))
    by (rewrite map_size_empty_iff; exact Hinst).
  cbv iota. fold (active_phases reader w).
  rewrite (bool_decide_eq_false_2 (length (active_phases reader w) = 0))
    by (intros E; apply Hact, nil_length_inv; exact E).
  cbv iota.
  match goal with |- context [snd (?m w)] => set (body := m) end.
  apply (post_exec body w (fun w1 =>
    KjerLastScanResults w1 = None /\
    scans w1 = scans w ++ [init_results w] /\
    (exists q, timers w1 = timers w ++ q /\
               map task q = scan_units r (active_phases reader w) ++ [TScanSummary r]) /\
    localStorage w1 = localStorage w /\
    defenses w1 = defenses w /\
    clock w1 = clock w)).
  subst body.
  apply post_bind. unfold post at 1. cbn [Engine.new_results fst snd].
  mstep. mstep.
  set (w2 := with_KjerLastScanResults _ _).
  assert (E2 : essence w2 = (localStorage w, None, scans w ++ [init_results w], defenses w,
                             timers w, clock w, disk w, host w)) by reflexivity.
  clearbody w2.
  mskip. mskip. mstep. mstep. mskip. mstep. mstep. mskip. mskip. mskip. mskip.
  match goal with |- post _ ?wl _ =>
    assert (E : essence wl = (localStorage w, None, scans w ++ [init_results w],
                              defenses w, timers w, clock w, disk w, host w))
      by congruence;
    generalize dependent wl end.
  intros wl _ E. clear -Hq E. unfold essence in E.
  injection E as Els Est Esc Edf Etm Ecl Edk Eho.
  apply post_bind. apply post_schedule_phases.
  { rewrite Ecl, Etm. exact Hq. }
  intros d' q Hd Hm Hl. mstep.
  cbn [with_timers KjerLastScanResults scans timers localStorage defenses clock].
  rewrite Ecl, Etm in *.
  repeat split; try assumption.
  exists (q ++ [{| due := clock w + (d' + 400); task := TScanSummary (length (scans w)) |}]).
  split.
  - rewrite enqueue_last, app_assoc; [reflexivity|].
    cbn [due]. eapply late_enough_weaken; [|exact Hl]. lia.
  - rewrite map_app, Hm. reflexivity.
Qed.
End ScanStart.

Section ScanRun.
Variable probe : ToolView -> string -> M (option Finding.t).
Hypothesis probe_ok : probe_frame probe.

Lemma core_eq (w w' : World) :
  core w' = core w ->
  localStorage w' = localStorage w /\ KjerLastScanResults w' = KjerLastScanResults w /\
  scans w' = scans w /\ defenses w' = defenses w /\ timers w' = timers w /\
  clock w' = clock w /\ activity w' = activity w /\ notifications w' = notifications w /\
  disk w' = disk w /\ host w' = host w.
Proof. unfold core. intros E. injection E. intros. repeat split; assumption. Qed.

Lemma turn_unit (r : nat) (t : Timer) (ts : list Timer) (w : World) :
  timers w = t :: ts ->
  is_unit_of r (task t) ->
  exists os,
    Forall2 (produced_by probe) (probes_of [task t]) os /\
    timers (Engine.turn probe w) = ts /\
    scans (Engine.turn probe w) = alter (fun res => foldl apply_outcome res os) r (scans w) /\
    KjerLastScanResults (Engine.turn probe w) = KjerLastScanResults w /\
    localStorage (Engine.turn probe w) = localStorage w /\
    defenses (Engine.turn probe w) = defenses w.
Proof.
  intros Ht Hu. unfold Engine.turn. rewrite Ht.
  set (w0 := with_clock _ _).
  destruct (task t) as [title|r' tool ph| | | | |] eqn:Et; try contradiction.
  - exists []. cbn. repeat split; try reflexivity; try constructor.
    symmetry. apply list_alter_id. reflexivity.
  - cbn in Hu. subst r'.
    exists [(probe tool ph w0).1]. split; [|].
    { cbn. constructor; [|constructor]. exists w0. reflexivity. }
    cbn [Engine.run_task]. unfold Engine.scan_probe_callback, exec, mbind, M_bind.
    pose proof (probe_ok tool ph w0) as Hc. apply core_eq in Hc.
    destruct (probe tool ph w0) as [fo w1]. cbn [fst snd] in *.
    destruct Hc as (Hls & Hst & Hsc & Hdf & Htm & _).
    destruct fo as [f|]; cbn; rewrite ?Hls, ?Hst, ?Hsc, ?Hdf, ?Htm; subst w0; cbn;
      repeat split; try reflexivity.
    rewrite list_alter_alter_eq. reflexivity.
Qed.

Lemma units_run (r : nat) (units : list Timer) :
  forall (rest : list Timer) (w : World),
    timers w = units ++ rest ->
    Forall (is_unit_of r) (map task units) ->
    exists os,
      Forall2 (produced_by probe) (probes_of (map task units)) os /\
      timers (Engine.turns probe (length units) w) = rest /\
      scans (Engine.turns probe (length units) w)
        = alter (fun res => foldl apply_outcome res os) r (scans w) /\
      (forall k, k <= length units ->
         KjerLastScanResults (Engine.turns probe k w) = KjerLastScanResults w) /\
      localStorage (Engine.turns probe (length units) w) = localStorage w /\
      defenses (Engine.turns probe (length units) w) = defenses w.
Proof.
  induction units as [|t units IH]; intros rest w Ht Hu.
  - exists []. cbn. repeat split; try constructor; try assumption.
    + symmetry. apply list_alter_id. reflexivity.
    + intros k Hk. replace k with 0 by lia. reflexivity.
  - cbn in Hu. apply Forall_cons in Hu as [Hu1 Hu2].
    destruct (turn_unit r t (units ++ rest) w Ht Hu1) as (os1 & Hp1 & Ht1 & Hs1 & Hst1 & Hl1 & Hd1).
    destruct (IH rest (Engine.turn probe w) Ht1 Hu2) as (os2 & Hp2 & Ht2 & Hs2 & Hst2 & Hl2 & Hd2).
    exists (os1 ++ os2). cbn [length Engine.turns].
    split; [|split; [|split; [|split; [|split]]]].
    + change (map task (t :: units)) with ([task t] ++ map task units).
      unfold probes_of. rewrite omap_app. apply Forall2_app; assumption.
    + exact Ht2.
    + rewrite Hs2, Hs1, list_alter_alter_eq. apply list_alter_ext; [|reflexivity].
      intros res _. cbn. rewrite foldl_app. reflexivity.
    + intros [|k] Hk; [reflexivity|]. cbn [Engine.turns].
      rewrite Hst2 by lia. exact Hst1.
    + rewrite Hl2. exact Hl1.
    + rewrite Hd2. exact Hd1.
Qed.

End ScanRun.

(** ** Pure facts about the results object *)

Lemma apply_outcome_toolsRun (r : ScanResults) (o : option Finding.t) :
  toolsRun (apply_outcome r o) = S (toolsRun r).
Proof. destruct o as [f|]; [|reflexivity]. cbn. unfold record_finding.
  destruct (Finding.level f); cbn; try reflexivity.
  destruct (default false (Finding.flagged f)); reflexivity. Qed.

Lemma apply_outcome_findings (r : ScanResults) (o : option Finding.t) :
  findings (apply_outcome r o) = findings r ++ from_option (fun f => [f]) [] o.
Proof. destruct o as [f|]; [|cbn; rewrite app_nil_r; reflexivity]. cbn. unfold record_finding.
  destruct (Finding.level f); cbn; try reflexivity.
  destruct (default false (Finding.flagged f)); reflexivity. Qed.

Lemma apply_outcome_startedAt (r : ScanResults) (o : option Finding.t) :
  startedAt (apply_outcome r o) = startedAt r /\ completedAt (apply_outcome r o) = completedAt r.
Proof. destruct o as [f|]; [|split; reflexivity]. cbn. unfold record_finding.
  destruct (Finding.level f); cbn; try (split; reflexivity).
  destruct (default false (Finding.flagged f)); split; reflexivity. Qed.

Lemma count_app (test : Finding.t -> bool) (l1 l2 : list Finding.t) :
  count test (l1 ++ l2) = count test l1 + count test l2.
Proof. induction l1 as [|f l1 IH]; cbn; [reflexivity|]. rewrite IH. lia. Qed.

Lemma count_le (test : Finding.t -> bool) (l : list Finding.t) :
  count test l <= length l.
Proof. induction l as [|f l IH]; cbn; [lia|]. destruct (test f); lia. Qed.

Lemma apply_outcome_counts (r : ScanResults) (o : option Finding.t) :
  counts_agree r -> counts_agree (apply_outcome r o).
Proof.
  intros (Hc & Hh & Hm & Hl). destruct o as [f|]; [|repeat split; assumption].
  unfold counts_agree. rewrite apply_outcome_findings. cbn [from_option].
  rewrite !count_app. unfold apply_outcome, record_finding.
  cbn [count].
  set (c1 := count (is_level LCritical) (findings r)) in *.
  set (c2 := count (is_level LError) (findings r)) in *.
  set (c3 := count (is_level LWarning) (findings r)) in *.
  set (c4 := count is_flagged_info (findings r)) in *.
  unfold is_level, is_flagged_info.
  destruct (Finding.level f) eqn:El; cbn [critical high medium low inc_critical inc_high
                                          inc_medium inc_low inc_toolsRun update_findings];
    try (destruct (default false (Finding.flagged f)) eqn:Ef;
         cbn [critical high medium low inc_critical inc_high
              inc_medium inc_low inc_toolsRun update_findings]);
    repeat case_bool_decide; try discriminate; try congruence; cbn [andb];
    repeat split; lia.
Qed.

Lemma foldl_apply_outcome (os : list (option Finding.t)) :
  forall res : ScanResults,
    toolsRun (foldl apply_outcome res os) = toolsRun res + length os /\
    findings (foldl apply_outcome res os) = findings res ++ omap (fun o => o) os /\
    startedAt (foldl apply_outcome res os) = startedAt res /\
    completedAt (foldl apply_outcome res os) = completedAt res /\
    (counts_agree res -> counts_agree (foldl apply_outcome res os)).
Proof.
  induction os as [|o os IH]; intros res; cbn [foldl].
  - cbn. rewrite app_nil_r. split; [lia|]. split; [reflexivity|]. auto.
  - destruct (IH (apply_outcome res o)) as (Ht & Hf & Hs & Hc & Hk).
    rewrite Ht, Hf, Hs, Hc, apply_outcome_toolsRun, apply_outcome_findings.
    destruct (apply_outcome_startedAt res o) as [-> ->].
    split; [|split; [|split; [|split]]]; try reflexivity.
    + cbn. lia.
    + rewrite <- app_assoc. destruct o; reflexivity.
    + intros H. apply Hk, apply_outcome_counts, H.
Qed.

Lemma turns_add (probe : ToolView -> string -> M (option Finding.t)) (n m : nat) (w : World) :
  Engine.turns probe (n + m) w = Engine.turns probe m (Engine.turns probe n w).
Proof. revert w. induction n as [|n IH]; intros w; [reflexivity|]. cbn. apply IH. Qed.

Lemma turn_summary (probe : ToolView -> string -> M (option Finding.t))
    (r : nat) (t : Timer) (ts : list Timer) (w : World) :
  timers w = t :: ts ->
  task t = TScanSummary r ->
  let w' := Engine.turn probe w in
  timers w' = ts /\
  KjerLastScanResults w' = Some r /\
  scans w' = alter (set_completedAt (Z.max (due t) (clock w))) r (scans w) /\
  localStorage w' = localStorage w /\
  defenses w' = defenses w.
Proof.
  intros Ht Hs w'. subst w'. unfold Engine.turn. rewrite Ht, Hs.
  cbn [Engine.run_task].
  set (w0 := with_clock _ _).
  apply (post_exec _ w0 (fun w' =>
    timers w' = ts /\ KjerLastScanResults w' = Some r /\
    scans w' = alter (set_completedAt (Z.max (due t) (clock w))) r (scans w) /\
    localStorage w' = localStorage w /\ defenses w' = defenses w)).
  unfold Engine.scan_summary_callback.
  do 8 mstep.
  set (w2 := with_KjerLastScanResults _ _).
  assert (E2 : essence w2 = (localStorage w, Some r,
                             alter (set_completedAt (Z.max (due t) (clock w))) r (scans w),
                             defenses w, ts, Z.max (due t) (clock w), disk w, host w))
    by reflexivity.
  clearbody w2.
  assert (Fin : forall wl, essence wl = essence w2 ->
            timers wl = ts /\ KjerLastScanResults wl = Some r /\
            scans wl = alter (set_completedAt (Z.max (due t) (clock w))) r (scans w) /\
            localStorage wl = localStorage w /\ defenses wl = defenses w).
  { intros wl E. rewrite E2 in E. unfold essence in E. injection E. intros. auto. }
  destruct (scans w2 !! r) as [res|].
  - mskip. mskip. mskip. mskip. mskip. mskip. mskip.
    apply Fin. congruence.
  - mstep. apply Fin. reflexivity.
Qed.

Section Master.
Variable reader : gmap string LSVal -> InstalledObj.
Variable probe : ToolView -> string -> M (option Finding.t).
Hypothesis probe_ok : probe_frame probe.

Lemma probes_of_scan_units (r : nat) (phases : list (string * list ToolView)) :
  probes_of (scan_units r phases)
  = flat_map (fun pt : string * list ToolView => map (fun t => (t, pt.1)) pt.2) phases.
Proof.
  unfold probes_of, scan_units.
  induction phases as [|[ph tools] phases IH]; [reflexivity|].
  cbn [flat_map]. rewrite omap_app, IH. f_equal.
  cbn. induction tools as [|t tools IHt]; [reflexivity|]. cbn. f_equal. exact IHt.
Qed.

Lemma flat_map_nonempty_phases (phases : list (string * list ToolView)) :
  flat_map (fun pt : string * list ToolView => map (fun t => (t, pt.1)) pt.2)
           (filter (fun pt : string * list ToolView => 0 < length pt.2) phases)
  = flat_map (fun pt : string * list ToolView => map (fun t => (t, pt.1)) pt.2) phases.
Proof.
  induction phases as [|[ph tools] phases IH]; [reflexivity|].
  rewrite filter_cons. cbn [snd flat_map]. case_decide as Hlen.
  - cbn [flat_map]. rewrite IH. reflexivity.
  - rewrite IH. destruct tools; [reflexivity|]. cbn in Hlen. lia.
Qed.

Lemma plan_of_active_phases (r : nat) (w : World) :
  probes_of (scan_units r (active_phases reader w)) = scan_plan reader w.
Proof.
  rewrite probes_of_scan_units. unfold active_phases.
  rewrite flat_map_nonempty_phases. unfold scan_plan.
  induction scan_phases as [|pr l IH]; [reflexivity|].
  cbn [map flat_map]. rewrite IH. reflexivity.
Qed.

Lemma scan_units_are_units (r : nat) (phases : list (string * list ToolView)) :
  Forall (is_unit_of r) (scan_units r phases).
Proof.
  unfold scan_units. induction phases as [|[ph tools] phases IH]; [constructor|].
  cbn [flat_map]. apply Forall_app. split; [|exact IH].
  constructor; [exact I|]. cbn. induction tools; constructor; [reflexivity|assumption].
Qed.

(** Running a scan, from an idle world in which it gets past its two
    aborts, to the end. *)
Theorem scan_run (w : World) :
  timers w = [] ->
  reader (localStorage w) <> ∅ ->
  active_phases reader w <> [] ->
  let w1 := exec (Engine.performComprehensiveScan reader) w in
  let r := length (scans w) in
  let n := length (timers w1) in
  exists (os : list (option Finding.t)) (T : Z),
    Forall2 (produced_by probe) (scan_plan reader w) os /\
    n = S (length (scan_units r (active_phases reader w))) /\
    (forall k, k < n -> KjerLastScanResults (Engine.turns probe k w1) = None) /\
    timers (Engine.turns probe n w1) = [] /\
    KjerLastScanResults (Engine.turns probe n w1) = Some r /\
    scans (Engine.turns probe n w1)
      = scans w ++ [set_completedAt T (foldl apply_outcome (init_results w) os)] /\
    localStorage (Engine.turns probe n w1) = localStorage w.
Proof.
  intros Hidle Hinst Hact w1 r n.
  destruct (scan_starts reader w Hinst Hact) as (Hst & Hsc & (q & Hq & Hm) & Hls & Hdf & Hcl).
  { rewrite Hidle. constructor. }
  fold w1 in Hst, Hsc, Hq, Hls, Hdf, Hcl. fold r in Hm.
  rewrite Hidle in Hq. cbn [app] in Hq.
  apply fmap_app_inv in Hm as (qu & qs & Hu & Hs & ->).
  symmetry in Hu, Hs.
  change (map task qu = scan_units r (active_phases reader w)) in Hu.
  destruct qs as [|ts [|? ?]]; try discriminate Hs.
  injection Hs as Hs.
  destruct (units_run probe probe_ok r qu [ts] w1 Hq) as (os & Hp & Ht & Hsc' & Hst' & Hls' & Hdf').
  { rewrite Hu. apply scan_units_are_units. }
  assert (Hn : n = length qu + 1).
  { subst n. rewrite Hq, length_app. reflexivity. }
  assert (Hlen : length qu = length (scan_units r (active_phases reader w))).
  { rewrite <- Hu, length_map. reflexivity. }
  pose proof (turn_summary probe r ts [] (Engine.turns probe (length qu) w1) Ht Hs)
    as (Ht2 & Hst2 & Hsc2 & Hls2 & Hdf2).
  exists os, (Z.max (due ts) (clock (Engine.turns probe (length qu) w1))).
  rewrite Hn, turns_add. cbn [Engine.turns].
  split; [|split; [|split; [|split; [|split; [|split]]]]].
  - rewrite Hu, plan_of_active_phases in Hp. exact Hp.
  - lia.
  - intros k Hk. rewrite Hst' by lia. exact Hst.
  - exact Ht2.
  - exact Hst2.
  - rewrite Hsc2, Hsc', Hsc.
    replace r with (length (scans w) + 0) by (subst r; lia).
    rewrite !alter_app_r. reflexivity.
  - rewrite Hls2, Hls'. exact Hls.
Qed.

End Master.

(** ** The probe of the script is admissible *)

Lemma scan_cases_keep {B} (proj : World -> B) :
  (forall f w, proj (with_random f w) = proj w) ->
  Forall (fun c : string * M Reading => keeps proj c.2) scan_cases.
Proof.
  intros Hr. unfold scan_cases.
  repeat (apply Forall_cons_2;
          [cbn [snd]; frame; try (apply keeps_Math_random; exact Hr)|]).
  apply Forall_nil_2.
Qed.

Lemma runToolScan_frame : probe_frame _runToolScan.
Proof.
  intros tool phaseName. unfold only_sinks, _runToolScan.
  apply keeps_bind.
  - apply keeps_switch; [apply scan_cases_keep; reflexivity|frame].
  - intros [[line level] flagged]. frame.
Qed.

(** The findings of the script's probe carry no [flagged] property, and
    their level is warning, error or critical. *)
Lemma runToolScan_findings (tool : ToolView) (phaseName : string) (w : World) (f : Finding.t) :
  (_runToolScan tool phaseName w).1 = Some f ->
  Finding.flagged f = None /\ Finding.phase f = phaseName /\
  Finding.key f = key tool /\ Finding.tool f = name (entry tool).
Proof.
  unfold _runToolScan, mbind, M_bind.
  destruct (switch (key tool) scan_cases _ w) as [[[line level] flagged] w1].
  cbn. destruct flagged; [|discriminate].
  intros [= <-]. repeat split.
Qed.

Section ScanProperties.
Variable reader : gmap string LSVal -> InstalledObj.
Variable probe : ToolView -> string -> M (option Finding.t).
Hypothesis probe_ok : probe_frame probe.

Lemma observe_last (l : list ScanResults) (x : ScanResults) (w : World) :
  KjerLastScanResults w = Some (length l) -> scans w = l ++ [x] -> observe w = Some x.
Proof.
  intros Hs Hl. unfold observe. rewrite Hs, Hl. cbn.
  rewrite lookup_app_r by lia. rewrite Nat.sub_diag. reflexivity.
Qed.

(** C2, amended.  A scan that is started while no callback of an earlier
    scan, defence run or activation is pending ([timers w = []]), and that
    gets past its aborts, clears the Result Store when it starts: a reader
    sees nothing ([null]) at every point before the last scheduled unit,
    the summary, has run; after it the reader sees the finalised results
    object ([completedAt] set, every probe of the plan counted) and no
    unit is pending.  So the store is written twice, cleared at the start
    and set after the last unit, and a reader never sees a results object
    that is still being filled.  (The script has no guard against a scan
    started while another one is running; that case is not covered, see
    [overlapping_scans_publish_early].) *)
Theorem scan_store_cleared_then_final (w : World) :
  timers w = [] ->
  reader (localStorage w) <> ∅ ->
  active_phases reader w <> [] ->
  let w1 := exec (Engine.performComprehensiveScan reader) w in
  let n := length (timers w1) in
  (forall k, k < n -> observe (Engine.turns probe k w1) = None) /\
  exists res,
    observe (Engine.turns probe n w1) = Some res /\
    is_Some (completedAt res) /\
    toolsRun res = length (scan_plan reader w) /\
    timers (Engine.turns probe n w1) = [].
Proof.
  intros Hidle Hinst Hact w1 n.
  destruct (scan_run reader probe probe_ok w Hidle Hinst Hact)
    as (os & T & Hp & Hn & Hnone & Ht & Hst & Hsc & Hls).
  fold w1 in Hn, Hnone, Ht, Hst, Hsc, Hls. fold n in Hn, Hnone, Ht, Hst, Hsc, Hls.
  split.
  - intros k Hk. unfold observe. rewrite (Hnone k Hk). reflexivity.
  - eexists. split; [exact (observe_last _ _ _ Hst Hsc)|].
    destruct (foldl_apply_outcome os (init_results w)) as (Htr & _).
    cbn [completedAt toolsRun set_completedAt]. rewrite Htr.
    repeat split; [eauto| |exact Ht].
    unfold init_results. cbn [toolsRun plus]. symmetry. eapply Forall2_length. exact Hp.
Qed.


Lemma getToolsByRole_keys (roles : list string) (w : World) :
  map key (Engine.getToolsByRole reader roles w)
  = map fst (filter (fun kt : string * Tool => is_Some (reader (localStorage w) !! name kt.2))
               (filter (fun kt : string * Tool => kt.1 ∈ flat_map role_keys roles)
                       TOOLS_DATABASE)).
Proof.
  unfold Engine.getToolsByRole. rewrite map_map. cbn [key].
  rewrite !list_filter_filter. f_equal. apply list_filter_iff. intros kt. tauto.
Qed.

(** Within a phase the tools come in catalogue order. *)
Lemma getToolsByRole_catalogue_order (roles : list string) (w : World) :
  sublist (map key (Engine.getToolsByRole reader roles w)) (map fst TOOLS_DATABASE).
Proof.
  rewrite getToolsByRole_keys.
  apply (fmap_sublist fst). etransitivity; apply sublist_filter.
Qed.

Lemma scanner_keys_NoDup : NoDup scanner_keys.
Proof. apply (bool_decide_unpack _). vm_compute. exact I. Qed.

Lemma scan_plan_keys_sublist (w : World) :
  sublist (map (fun tp : ToolView * string => key tp.1) (scan_plan reader w)) scanner_keys.
Proof.
  unfold scan_plan, scanner_keys.
  induction scan_phases as [|pr l IH]; [constructor|].
  cbn [flat_map]. rewrite map_app. apply sublist_app; [|exact IH].
  rewrite map_map. cbn [fst].
  change (map (fun x : ToolView => key x) (Engine.getToolsByRole reader pr.2 w))
    with (map key (Engine.getToolsByRole reader pr.2 w)).
  rewrite getToolsByRole_keys.
  apply (fmap_sublist fst). apply sublist_filter.
Qed.

(** No tool is dispatched twice in one scan. *)
Lemma scan_plan_NoDup (w : World) :
  NoDup (map (fun tp : ToolView * string => key tp.1) (scan_plan reader w)).
Proof. eapply sublist_NoDup; [apply scanner_keys_NoDup|apply scan_plan_keys_sublist]. Qed.

Lemma buckets_le_findings (fs : list Finding.t) :
  count (is_level LCritical) fs + count (is_level LError) fs
  + count (is_level LWarning) fs + count is_flagged_info fs <= length fs.
Proof.
  induction fs as [|f fs IH]; cbn [count length]; [lia|].
  unfold is_level at 1 3 5, is_flagged_info at 1.
  destruct (Finding.level f); repeat case_bool_decide; try discriminate; try congruence;
    cbn [andb]; try destruct (default false (Finding.flagged f)); lia.
Qed.

(** C5.  The results of a completed scan: [toolsRun] is the number of
    probes dispatched, and no tool is dispatched twice, so it is the number
    of distinct tools dispatched; the four counters agree with the findings
    recorded, so their sum is at most the number of findings; and recording
    a finding appends it and adds one to exactly the bucket of its level:
    critical to [critical], error to [high], warning to [medium], and info
    with a truthy [flagged] to [low]. *)
Theorem scan_counts (w : World) :
  timers w = [] ->
  reader (localStorage w) <> ∅ ->
  active_phases reader w <> [] ->
  exists res,
    observe (complete_scan reader probe w) = Some res /\
    toolsRun res = length (scan_plan reader w) /\
    NoDup (map (fun tp : ToolView * string => key tp.1) (scan_plan reader w)) /\
    counts_agree res /\
    critical res + high res + medium res + low res <= length (findings res) /\
    (forall (r : ScanResults) (f : Finding.t),
       let r' := record_finding f r in
       findings r' = findings r ++ [f] /\
       critical r' = critical r + (if is_level LCritical f then 1 else 0) /\
       high r' = high r + (if is_level LError f then 1 else 0) /\
       medium r' = medium r + (if is_level LWarning f then 1 else 0) /\
       low r' = low r + (if is_flagged_info f then 1 else 0)).
Proof.
  intros Hidle Hinst Hact.
  destruct (scan_run reader probe probe_ok w Hidle Hinst Hact)
    as (os & T & Hp & Hn & Hnone & Ht & Hst & Hsc & Hls).
  eexists. split; [exact (observe_last _ _ _ Hst Hsc)|].
  destruct (foldl_apply_outcome os (init_results w)) as (Htr & Hf & _ & _ & Hk).
  assert (Hagree : counts_agree (foldl apply_outcome (init_results w) os)).
  { apply Hk. repeat split. }
  split; [|split; [|split; [|split]]].
  - cbn [toolsRun set_completedAt]. rewrite Htr. unfold init_results. cbn [toolsRun plus].
    symmetry. eapply Forall2_length. exact Hp.
  - apply scan_plan_NoDup.
  - exact Hagree.
  - cbn [findings critical high medium low set_completedAt].
    destruct Hagree as (-> & -> & -> & ->). apply buckets_le_findings.
  - intros r f r'. subst r'. unfold record_finding, is_level, is_flagged_info.
    destruct (Finding.level f); repeat case_bool_decide; try discriminate; try congruence;
      cbn [andb]; try destruct (default false (Finding.flagged f));
      cbn [findings critical high medium low update_findings inc_critical inc_high
           inc_medium inc_low]; repeat split; lia.
Qed.

Section Determinism.
Variable stub : ToolView -> string -> option Finding.t.
Hypothesis probe_is_stub : forall tool phaseName w, (probe tool phaseName w).1 = stub tool phaseName.

Lemma stub_outcomes (plan : list (ToolView * string)) (os : list (option Finding.t)) :
  Forall2 (produced_by probe) plan os ->
  os = map (fun tp : ToolView * string => stub tp.1 tp.2) plan.
Proof.
  induction 1 as [|tp o plan os [w0 Ho] _ IH]; [reflexivity|].
  cbn [map]. rewrite IH, Ho, probe_is_stub. reflexivity.
Qed.

Lemma scan_plan_depends_on_installed (w w' : World) :
  reader (localStorage w) = reader (localStorage w') ->
  scan_plan reader w = scan_plan reader w'.
Proof.
  intros E. unfold scan_plan, Engine.getToolsByRole. rewrite E. reflexivity.
Qed.

Lemma active_phases_depend_on_installed (w w' : World) :
  reader (localStorage w) = reader (localStorage w') ->
  active_phases reader w = active_phases reader w'.
Proof.
  intros E. unfold active_phases, Engine.getToolsByRole. rewrite E. reflexivity.
Qed.

(** C8.  With the installed tools fixed and a probe whose answer depends
    only on the tool and the phase, two scans record the same findings, in
    the same order: the answers of the probe along the plan, which runs
    through the phases in their declared order and, inside a phase, through
    the tools in catalogue order. *)
Theorem scan_findings_deterministic (w w' : World) :
  timers w = [] -> timers w' = [] ->
  reader (localStorage w) = reader (localStorage w') ->
  reader (localStorage w) <> ∅ ->
  active_phases reader w <> [] ->
  exists res res',
    observe (complete_scan reader probe w) = Some res /\
    observe (complete_scan reader probe w') = Some res' /\
    findings res = findings res' /\
    findings res = omap (fun tp : ToolView * string => stub tp.1 tp.2) (scan_plan reader w) /\
    (forall roles,
       sublist (map key (Engine.getToolsByRole reader roles w)) (map fst TOOLS_DATABASE)).
Proof.
  intros Hidle Hidle' E Hinst Hact.
  assert (Hinst' : reader (localStorage w') <> ∅) by (rewrite <- E; exact Hinst).
  assert (Hact' : active_phases reader w' <> [])
    by (rewrite <- (active_phases_depend_on_installed w w' E); exact Hact).
  destruct (scan_run reader probe probe_ok w Hidle Hinst Hact)
    as (os & T & Hp & _ & _ & _ & Hst & Hsc & _).
  destruct (scan_run reader probe probe_ok w' Hidle' Hinst' Hact')
    as (os' & T' & Hp' & _ & _ & _ & Hst' & Hsc' & _).
  apply stub_outcomes in Hp, Hp'.
  rewrite <- (scan_plan_depends_on_installed w w' E) in Hp'.
  destruct (foldl_apply_outcome os (init_results w)) as (_ & Hf & _).
  destruct (foldl_apply_outcome os' (init_results w')) as (_ & Hf' & _).
  do 2 eexists.
  split; [exact (observe_last _ _ _ Hst Hsc)|].
  split; [exact (observe_last _ _ _ Hst' Hsc')|].
  cbn [findings set_completedAt]. rewrite Hf, Hf', Hp, Hp'.
  unfold init_results. cbn [findings app].
  split; [reflexivity|]. split.
  - generalize (scan_plan reader w). intros l.
    induction l as [|tp l IH]; [reflexivity|].
    cbn. rewrite IH. reflexivity.
  - intros roles. apply getToolsByRole_catalogue_order.
Qed.

End Determinism.

End ScanProperties.

(** ** The scan on concrete worlds *)

Lemma equipped_world_installed : getInstalledTools (localStorage equipped_world) <> ∅.
Proof. intros H. apply (f_equal size) in H. vm_compute in H. discriminate H. Qed.

Lemma equipped_world_active : active_phases getInstalledTools equipped_world <> [].
Proof. intros H. vm_compute in H. discriminate H. Qed.

(** C2, as stated, fails: right after a scan has started, with the earlier
    complete result still the latest, a reader sees neither that earlier
    result nor the one the scan will publish. *)
Lemma scan_clears_previous_result :
  let w1 := exec performComprehensiveScan stale_world in
  let n := length (timers w1) in
  ~ (observe w1 = observe stale_world \/ observe w1 = observe (turns n w1)).
Proof. vm_compute. intros [H|H]; discriminate H. Qed.

Lemma scan_store_cleared_then_final_witness :
  observe (exec performComprehensiveScan equipped_world) = None.
Proof.
  refine (proj1 (scan_store_cleared_then_final getInstalledTools _runToolScan
                   runToolScan_frame equipped_world eq_refl
                   equipped_world_installed equipped_world_active) 0 _).
  vm_compute. lia.
Defined.

(** The precondition of C2, that no callback is pending when the scan
    starts, cannot be dropped: nothing in the script stops a scan from
    being started while another is running.  Start a second scan three
    callbacks into a first one: the second scan clears the store, but two
    callbacks before its own summary the summary of the first scan
    publishes the first scan's result. *)
Lemma overlapping_scans_publish_early :
  let w1 := exec performComprehensiveScan equipped_world in
  let w2 := exec performComprehensiveScan (turns 3 w1) in
  observe w2 = None /\
  length (timers w2) = 57 /\
  KjerLastScanResults (turns 55 w2) = Some 0 /\
  (toolsRun <$> observe (turns 55 w2)) = Some 22.
Proof. vm_compute. repeat split. Qed.

Lemma scan_counts_witness :
  exists res,
    observe (complete_scan getInstalledTools _runToolScan equipped_world) = Some res /\
    toolsRun res = 22.
Proof.
  destruct (scan_counts getInstalledTools _runToolScan runToolScan_frame equipped_world
              eq_refl equipped_world_installed equipped_world_active)
    as (res & Hobs & Hruns & _).
  exists res. split; [exact Hobs|]. rewrite Hruns. vm_compute. reflexivity.
Defined.

Lemma scan_findings_deterministic_witness :
  exists res res',
    observe (complete_scan getInstalledTools stub_probe equipped_world) = Some res /\
    observe (complete_scan getInstalledTools stub_probe
               (with_clock (fun _ => 777%Z) (with_random (fun _ => [5%Z; 6%Z]) equipped_world)))
      = Some res' /\
    findings res = findings res'.
Proof.
  destruct (scan_findings_deterministic getInstalledTools stub_probe
              (fun t p w => eq_refl) clamav_stub (fun t p w => eq_refl)
              equipped_world
              (with_clock (fun _ => 777%Z) (with_random (fun _ => [5%Z; 6%Z]) equipped_world))
              eq_refl eq_refl eq_refl equipped_world_installed equipped_world_active)
    as (res & res' & H1 & H2 & H3 & _).
  exists res, res'. auto.
Defined.

(** ** The defence run *)

Section DefenseScheduling.
Variable reader : gmap string LSVal -> InstalledObj.

Lemma schedule_defenders_appends (run : nat) (ph : DefPhase) (step : Z) (tools : list ToolView) :
  (0 <= step)%Z ->
  forall (d : Z) (w : World),
    late_enough (clock w + d) (timers w) ->
    appends w (Engine.schedule_defenders run ph tools step d w) d
            (map (TDefend run ph) tools).
Proof.
  intros Hstep. induction tools as [|tool tools IH]; intros d w Hq.
  - split; [cbn; lia|]. exists []. cbn. rewrite app_nil_r, with_timers_id. auto.
  - cbn [Engine.schedule_defenders]. unfold mbind, M_bind, setTimeout, modify.
    set (w1 := with_timers _ w).
    assert (Hw1 : timers w1 = timers w ++ [{| due := clock w + d; task := TDefend run ph tool |}]).
    { subst w1. cbn. apply enqueue_last. exact Hq. }
    destruct (IH (d + step)%Z w1) as (Hd & q & Hw & Hm & Hl).
    { rewrite Hw1. subst w1. cbn [clock with_timers].
      apply Forall_app. split.
      - eapply late_enough_weaken; [|exact Hq]. lia.
      - repeat constructor. cbn. lia. }
    split; [lia|].
    exists ({| due := clock w + d; task := TDefend run ph tool |} :: q).
    rewrite Hw, Hw1. split; [|split].
    + subst w1. cbn. rewrite <- app_assoc. reflexivity.
    + cbn. rewrite Hm. reflexivity.
    + rewrite Hw1, <- app_assoc in Hl. exact Hl.
Qed.

Lemma schedule_defense_phase_appends (run : nat) (ph : DefPhase) (title : string)
    (tools : list ToolView) (triggered : bool) (step : Z) :
  (0 <= step)%Z ->
  forall (d : Z) (w : World),
    late_enough (clock w + d) (timers w) ->
    appends w (Engine.schedule_defense_phase run ph title tools triggered step d w) d
            (phase_units run ph title tools triggered).
Proof.
  intros Hstep d w Hq. unfold Engine.schedule_defense_phase, phase_units.
  destruct ((0 <? length tools)%nat && triggered).
  - unfold mbind at 1, M_bind at 1, setTimeout, modify.
    set (w1 := with_timers _ w).
    assert (Hw1 : timers w1 = timers w ++ [{| due := clock w + d; task := TSection title |}]).
    { subst w1. cbn. apply enqueue_last. exact Hq. }
    unfold mbind, M_bind.
    destruct (schedule_defenders_appends run ph step tools Hstep (d + 300)%Z w1)
      as (Hd & q & Hw & Hm & Hl).
    { rewrite Hw1. subst w1. cbn [clock with_timers].
      apply Forall_app. split.
      - eapply late_enough_weaken; [|exact Hq]. lia.
      - repeat constructor. cbn. lia. }
    destruct (Engine.schedule_defenders run ph tools step (d + 300)%Z w1) as [d2 w2].
    unfold mret, M_ret. cbn [fst snd] in *. unfold appends. cbn [fst snd].
    split; [lia|].
    exists ({| due := clock w + d; task := TSection title |} :: q).
    subst w2. cbn [timers with_timers clock] in *. rewrite Hw1 in *.
    split; [|split].
    + subst w1. cbn. rewrite <- !app_assoc. reflexivity.
    + cbn. rewrite Hm. reflexivity.
    + rewrite <- app_assoc in Hl. cbn [app] in Hl.
      eapply late_enough_weaken; [|exact Hl]. subst w1. cbn [clock with_timers]. lia.
  - split; [cbn; lia|]. exists []. cbn. rewrite app_nil_r, with_timers_id. auto.
Qed.

End DefenseScheduling.

Lemma appends_then (m : M Z) (k : Z -> M unit) (w : World) (d : Z) (ts1 ts2 : list Task) :
  appends w (m w) d ts1 ->
  (forall d1 w1, (d <= d1)%Z -> clock w1 = clock w ->
                 late_enough (clock w1 + d1) (timers w1) ->
                 appends_all w1 (k d1 w1).2 ts2) ->
  appends_all w ((m ≫= k) w).2 (ts1 ++ ts2).
Proof.
  intros (Hd & q & Hw & Hm & Hl) Hk. unfold mbind, M_bind.
  destruct (m w) as [d1 w1]. cbn [fst snd] in *.
  destruct (Hk d1 w1 Hd) as (q2 & Hw2 & Hm2).
  - rewrite Hw. reflexivity.
  - rewrite Hw. exact Hl.
  - exists (q ++ q2). rewrite Hw2, Hw. cbn [timers with_timers]. split.
    + rewrite app_assoc. reflexivity.
    + rewrite map_app, Hm, Hm2. reflexivity.
Qed.

Lemma setTimeout_appends (t : Task) (delay : Z) (w : World) :
  late_enough (clock w + delay) (timers w) ->
  appends_all w (setTimeout t delay w).2 [t].
Proof.
  intros Hq. exists [{| due := clock w + delay; task := t |}].
  unfold setTimeout, modify. cbn [fst snd]. split; [|reflexivity].
  destruct w; unfold with_timers in *; cbn in *.
  rewrite enqueue_last by exact Hq. reflexivity.
Qed.

Section DefenseStart.
Variable reader : gmap string LSVal -> InstalledObj.

Lemma defense_starts (w : World) :
  reader (localStorage w) <> ∅ ->
  late_enough (clock w + 400) (timers w) ->
  let w1 := exec (Engine.activateSmartDefense reader) w in
  let run := length (defenses w) in
  defenses w1 = defenses w ++ [defense_entry w] /\
  (exists q, timers w1 = timers w ++ q /\
             map task q = defense_units reader run w ++ [TDefenseSummary run]) /\
  scans w1 = scans w /\
  KjerLastScanResults w1 = KjerLastScanResults w /\
  localStorage w1 = localStorage w /\
  clock w1 = clock w.
Proof.
  intros Hinst Hq w1 run. subst w1.
  unfold exec, Engine.activateSmartDefense. cbv beta zeta.
  rewrite (bool_decide_eq_false_2 (size (reader (localStorage w)) = 0))
    by (rewrite map_size_empty_iff; exact Hinst).
  cbv iota.
  match goal with |- context [snd (?m w)] => set (body := m) end.
  apply (post_exec body w (fun w1 =>
    defenses w1 = defenses w ++ [defense_entry w] /\
    (exists q, timers w1 = timers w ++ q /\
               map task q = defense_units reader run w ++ [TDefenseSummary run]) /\
    scans w1 = scans w /\
    KjerLastScanResults w1 = KjerLastScanResults w /\
    localStorage w1 = localStorage w /\
    clock w1 = clock w)).
  subst body.
  mskip. mskip. mstep. mstep. mskip. mskip. mskip. mskip. mskip.
  match goal with |- post _ ?wl _ =>
    assert (E : essence wl = essence w) by congruence;
    generalize dependent wl end.
  intros wl _ E. clear -Hq E. apply essence_eq in E.
  destruct E as (Els & Est & Esc & Edf & Etm & Ecl & Edk & Eho).
  apply post_bind. unfold post at 1. cbn [Engine.new_defense fst snd].
  fold (defense_entry w).
  rewrite Edf.
  set (w2 := with_defenses _ wl).
  match goal with |- post ?m w2 _ =>
    assert (Happ : appends_all w2 (m w2).2
                     (defense_units reader (length (defenses w)) w
                      ++ [TDefenseSummary (length (defenses w))])) end.
  { unfold defense_units. cbv zeta. rewrite <- !app_assoc.
    repeat (eapply appends_then;
            [apply schedule_defense_phase_appends; [lia|assumption
               || (subst w2; cbn [clock timers with_defenses]; rewrite Ecl, Etm; exact Hq)]
            |intros ? ? ? ? ?]).
    apply setTimeout_appends.
    eapply late_enough_weaken; [|eassumption]. lia. }
  destruct Happ as (q & Hw & Hm). unfold post. rewrite Hw.
  subst w2. destruct wl. cbn in Els, Est, Esc, Edf, Etm, Ecl |- *. subst.
  split; [reflexivity|]. split; [exists q; split; [reflexivity|exact Hm]|].
  repeat split.
Qed.
End DefenseStart.

(** *** What the defence callbacks do *)

Lemma bumps_keeps {A} (m : M A) : keeps core m -> bumps (fun ds => ds) m.
Proof. intros H w. rewrite H. destruct w. reflexivity. Qed.

Lemma bumps_bind {A B} (f g : list DefenseRun -> list DefenseRun) (m : M A) (k : A -> M B) :
  bumps f m -> (forall a, bumps g (k a)) -> bumps (g ∘ f) (m ≫= k).
Proof.
  intros Hm Hk w. unfold mbind, M_bind. specialize (Hm w).
  destruct (m w) as [a w1]. cbn [snd] in Hm. rewrite (Hk a w1).
  apply core_eq in Hm. destruct w, w1. unfold core in *. cbn in *.
  destruct Hm as (-> & -> & -> & -> & -> & -> & -> & -> & -> & ->). reflexivity.
Qed.

Lemma bumps_after {A B} (g : list DefenseRun -> list DefenseRun) (m : M A) (k : A -> M B) :
  keeps core m -> (forall a, bumps g (k a)) -> bumps g (m ≫= k).
Proof. intros Hm Hk. apply (bumps_bind (fun ds => ds) g); [apply bumps_keeps, Hm|exact Hk]. Qed.

Lemma bumps_act (run : nat) : bumps (alter Engine.inc_actionsTotal run) (Engine.act run).
Proof. intros w. reflexivity. Qed.

Ltac acting :=
  repeat first [ apply bumps_act
               | apply bumps_after; [frame|intros ?] ].

Lemma switch_cases {A} (k : string) (cases : list (string * A)) (dflt : A) :
  (exists c, c ∈ cases /\ c.1 = k /\ switch k cases dflt = c.2)
  \/ ((k ∉ cases.*1) /\ switch k cases dflt = dflt).
Proof.
  unfold switch. induction cases as [|[k' c] cases IH]; cbn [prop].
  - right. split; [apply not_elem_of_nil|reflexivity].
  - destruct (String.eqb_spec k' k) as [->|Hne].
    + left. exists (k, c). split; [left|split; reflexivity].
    + destruct IH as [(c' & Hin & Hk & Hs)|[Hni Hs]].
      * left. exists c'. split; [right; exact Hin|split; assumption].
      * right. split; [|exact Hs]. cbn. rewrite not_elem_of_cons. split; [congruence|exact Hni].
Qed.

Lemma bumps_switch (f : list DefenseRun -> list DefenseRun) (k : string)
    (cases : list (string * M unit)) (dflt : M unit) :
  Forall (fun c => bumps f c.2) cases -> k ∈ cases.*1 -> bumps f (switch k cases dflt).
Proof.
  intros Hc Hk. destruct (switch_cases k cases dflt) as [(c & Hin & _ & ->)|[Hni _]].
  - rewrite Forall_forall in Hc. apply Hc, Hin.
  - contradiction.
Qed.

Lemma network_cases_act (run : nat) (d : DefenseRun) (n : string) :
  Forall (fun c => bumps (alter Engine.inc_actionsTotal run) c.2) (Engine.network_cases run d n).
Proof.
  unfold Engine.network_cases.
  repeat (apply Forall_cons_2; [cbn [snd]; acting|]). apply Forall_nil_2.
Qed.

Lemma malware_cases_act (run : nat) (d : DefenseRun) (n : string) :
  Forall (fun c => bumps (alter Engine.inc_actionsTotal run) c.2) (Engine.malware_cases run d n).
Proof.
  unfold Engine.malware_cases.
  repeat (apply Forall_cons_2; [cbn [snd]; acting|]). apply Forall_nil_2.
Qed.

Lemma access_cases_act (run : nat) (d : DefenseRun) (n : string) :
  Forall (fun c => bumps (alter Engine.inc_actionsTotal run) c.2) (Engine.access_cases run d n).
Proof.
  unfold Engine.access_cases.
  repeat (apply Forall_cons_2; [cbn [snd]; acting|]). apply Forall_nil_2.
Qed.

Lemma audit_cases_act (run : nat) (d : DefenseRun) (n : string) :
  Forall (fun c => bumps (alter Engine.inc_actionsTotal run) c.2) (Engine.audit_cases run d n).
Proof.
  unfold Engine.audit_cases.
  repeat (apply Forall_cons_2; [cbn [snd]; acting|]). apply Forall_nil_2.
Qed.

Lemma defend_callback_effect (run : nat) (ph : DefPhase) (t : ToolView) (w : World) :
  is_Some (defenses w !! run) ->
  acts ph (key t) = true ->
  core (Engine.defend_callback run ph t w).2
  = core (with_defenses (alter (engage (name (entry t))) run) w).
Proof.
  intros [d Hd] Ha. unfold Engine.defend_callback.
  unfold mbind at 1, M_bind at 1, get. rewrite Hd.
  match goal with |- core (?m w).2 = _ =>
    assert (H : bumps (alter Engine.inc_actionsTotal run
                       ∘ alter (Engine.add_toolsEngaged (name (entry t))) run) m) end.
  { apply bumps_bind; [intros w0; reflexivity|intros _].
    destruct ph; cbn [acts] in Ha; unfold JS.arr_includes in Ha;
      apply bool_decide_eq_true in Ha || clear Ha.
    - apply bumps_switch; [apply network_cases_act|exact Ha].
    - apply bumps_switch; [apply malware_cases_act|exact Ha].
    - apply bumps_switch; [apply access_cases_act|exact Ha].
    - acting.
    - apply bumps_switch; [apply audit_cases_act|exact Ha].
    - acting. }
  rewrite (H w). unfold core. cbn. unfold engage.
  rewrite list_alter_alter_eq. reflexivity.
Qed.

Section DefenseRun.
Variable probe : ToolView -> string -> M (option Finding.t).

Lemma defense_turn (run : nat) (t : Timer) (ts : list Timer) (w : World) :
  timers w = t :: ts ->
  is_defense_unit run (task t) ->
  is_Some (defenses w !! run) ->
  let w' := Engine.turn probe w in
  timers w' = ts /\
  defenses w' = alter (unit_effect (task t)) run (defenses w) /\
  scans w' = scans w /\
  KjerLastScanResults w' = KjerLastScanResults w /\
  localStorage w' = localStorage w /\
  activity w' = activity w /\
  notifications w' = notifications w.
Proof.
  intros Ht Hu Hd. unfold Engine.turn. rewrite Ht.
  set (w0 := with_clock _ _).
  destruct (task t) as [title| | |r ph tool| | |] eqn:Et; try contradiction.
  - cbn. repeat split; try reflexivity.
    symmetry. apply list_alter_id. reflexivity.
  - destruct Hu as [-> Ha]. cbn [Engine.run_task unit_effect]. unfold exec.
    pose proof (defend_callback_effect run ph tool w0 Hd Ha) as Hc.
    apply core_eq in Hc.
    destruct Hc as (Hls & Hst & Hsc & Hdf & Htm & _ & Hac & Hno & _).
    change (snd ?x) with (x.2).
    rewrite Hls, Hst, Hsc, Hdf, Htm, Hac, Hno. subst w0. cbn.
    repeat split; reflexivity.
Qed.

Lemma defense_units_run (run : nat) (units : list Timer) :
  forall (rest : list Timer) (w : World),
    timers w = units ++ rest ->
    Forall (is_defense_unit run) (map task units) ->
    is_Some (defenses w !! run) ->
    let wn := Engine.turns probe (length units) w in
    timers wn = rest /\
    defenses wn
      = alter (fun d => foldl (fun d t => unit_effect t d) d (map task units)) run (defenses w) /\
    scans wn = scans w /\
    KjerLastScanResults wn = KjerLastScanResults w /\
    localStorage wn = localStorage w /\
    activity wn = activity w /\
    notifications wn = notifications w.
Proof.
  induction units as [|t units IH]; intros rest w Ht Hu Hd; cbn zeta.
  - cbn. repeat split; try assumption; try reflexivity.
    symmetry. apply list_alter_id. reflexivity.
  - cbn [map] in Hu. apply Forall_cons in Hu as [Hu1 Hu2].
    destruct (defense_turn run t (units ++ rest) w Ht Hu1 Hd)
      as (Htm & Hdf & Hsc & Hst & Hls & Hac & Hno).
    cbn [length Engine.turns].
    destruct (IH rest (Engine.turn probe w) Htm Hu2)
      as (Htm' & Hdf' & Hsc' & Hst' & Hls' & Hac' & Hno').
    { rewrite Hdf. destruct Hd as [d Hd]. exists (unit_effect (task t) d).
      rewrite list_lookup_alter_eq, Hd. reflexivity. }
    rewrite Htm', Hdf', Hsc', Hst', Hls', Hac', Hno', Hdf, Hsc, Hst, Hls, Hac, Hno.
    repeat split; try reflexivity.
    rewrite list_alter_alter_eq. reflexivity.
Qed.

End DefenseRun.

Section DefenseSummary.
Variable probe : ToolView -> string -> M (option Finding.t).

Lemma summary_turn (run : nat) (t : Timer) (ts : list Timer) (w : World) (d : DefenseRun) :
  timers w = t :: ts ->
  task t = TDefenseSummary run ->
  defenses w !! run = Some d ->
  let w' := Engine.turn probe w in
  a_message <$> head (activity w') = Some (summary_line (actionsTotal d) (Engine.posture d w)) /\
  timers w' = ts /\ defenses w' = defenses w /\ scans w' = scans w /\
  KjerLastScanResults w' = KjerLastScanResults w /\ localStorage w' = localStorage w.
Proof.
  intros Ht Et Hd. unfold Engine.turn. rewrite Ht, Et.
  set (w0 := with_clock _ _).
  cbn [Engine.run_task]. unfold Engine.defense_summary_callback.
  apply (post_exec _ w0 (fun w' =>
    a_message <$> head (activity w') = Some (summary_line (actionsTotal d) (Engine.posture d w)) /\
    timers w' = ts /\ defenses w' = defenses w /\ scans w' = scans w /\
    KjerLastScanResults w' = KjerLastScanResults w /\ localStorage w' = localStorage w)).
  mstep. mstep. change (defenses w0 !! run) with (defenses w !! run). rewrite Hd.
  mstep. mstep. change (Engine.posture d w0) with (Engine.posture d w).
  mskip. mskip. mskip. mskip. mskip.
  match goal with |- post _ ?wl _ =>
    assert (E : essence wl = essence w0) by congruence;
    generalize dependent wl end.
  intros wl _ E. apply essence_eq in E.
  destruct E as (Els & Est & Esc & Edf & Etm & Ecl & Edk & Eho).
  mstep. mstep.
  apply (post_keeps (fun w => (activity w, essence w))); [frame|].
  intros _ w2 E2. pose proof (f_equal fst E2) as Ea. apply (f_equal snd) in E2.
  cbn [fst snd] in Ea, E2. apply essence_eq in E2.
  destruct E2 as (Els2 & Est2 & Esc2 & Edf2 & Etm2 & _).
  rewrite Ea, Els2, Est2, Esc2, Edf2, Etm2.
  destruct wl. cbn in Els, Est, Esc, Edf, Etm |- *. subst.
  split; [|repeat split; reflexivity].
  unfold ActivityLog.maxEntries. rewrite head_unshift_capped. reflexivity.
Qed.

End DefenseSummary.

Section DefenseUnits.
Variable reader : gmap string LSVal -> InstalledObj.

Lemma getToolsByRole_elem (roles : list string) (w : World) (t : ToolView) :
  t ∈ Engine.getToolsByRole reader roles w -> key t ∈ flat_map role_keys roles.
Proof.
  unfold Engine.getToolsByRole. intros H.
  apply list_elem_of_In, in_map_iff in H. destruct H as ([k e] & <- & H).
  apply list_elem_of_In, list_elem_of_filter in H. exact (proj1 H).
Qed.

Lemma phase_units_act (run : nat) (ph : DefPhase) (title : string) (tools : list ToolView)
    (triggered : bool) :
  (forall t, t ∈ tools -> acts ph (key t) = true) ->
  Forall (is_defense_unit run) (phase_units run ph title tools triggered).
Proof.
  intros H. unfold phase_units. destruct (_ && _); [|constructor].
  constructor; [exact I|]. apply Forall_forall. intros u Hu.
  apply list_elem_of_In, in_map_iff in Hu. destruct Hu as (t & <- & Ht).
  split; [reflexivity|]. apply H, list_elem_of_In, Ht.
Qed.

Lemma defense_units_act (run : nat) (w : World) :
  Forall (is_defense_unit run) (defense_units reader run w).
Proof.
  unfold defense_units. cbv zeta.
  repeat (apply Forall_app; split); apply phase_units_act; intros t Ht.
  - apply list_elem_of_filter in Ht as [Ht _]. apply Is_true_true. exact Ht.
  - apply getToolsByRole_elem in Ht. cbn in Ht. rewrite ?app_nil_r in Ht.
    apply bool_decide_eq_true.
    rewrite !elem_of_cons, elem_of_nil in Ht |- *. tauto.
  - apply list_elem_of_filter in Ht as [Ht _]. apply Is_true_true. exact Ht.
  - reflexivity.
  - apply list_elem_of_filter in Ht as [Ht _]. apply Is_true_true. exact Ht.
  - reflexivity.
Qed.

End DefenseUnits.

Lemma after_units_actions (units : list Task) (d : DefenseRun) :
  actionsTotal (after_units units d) = actionsTotal d + actions_taken units.
Proof.
  unfold after_units. revert d.
  induction units as [|t units IH]; intros d; [cbn; lia|].
  cbn [foldl actions_taken]. rewrite IH.
  destruct t; cbn; lia.
Qed.

Lemma after_units_context (units : list Task) (d : DefenseRun) :
  scanResults (after_units units d) = scanResults d /\
  hasScanData (after_units units d) = hasScanData d /\
  broadMode (after_units units d) = broadMode d.
Proof.
  unfold after_units. revert d.
  induction units as [|t units IH]; intros d; [auto|].
  cbn [foldl]. destruct (IH (unit_effect t d)) as (-> & -> & ->).
  destruct t; auto.
Qed.

Lemma posture_scans (d : DefenseRun) (w w' : World) :
  scans w' = scans w -> Engine.posture d w' = Engine.posture d w.
Proof. intros H. unfold Engine.posture, Engine.findings_of. rewrite H. reflexivity. Qed.

Section DefenseMaster.
Variable reader : gmap string LSVal -> InstalledObj.
Variable probe : ToolView -> string -> M (option Finding.t).

(** A defence run from an idle world, start to summary. *)
Lemma defense_run (w : World) :
  idle w ->
  reader (localStorage w) <> ∅ ->
  let run := length (defenses w) in
  let units := defense_units reader run w in
  let d := after_units units (defense_entry w) in
  let w1 := exec (Engine.activateSmartDefense reader) w in
  let wn := complete_defense reader probe w in
  map task (timers w1) = units ++ [TDefenseSummary run] /\
  defenses w1 !! run = Some (defense_entry w) /\
  defenses wn !! run = Some d /\
  a_message <$> head (activity wn)
    = Some (summary_line (actionsTotal d) (Engine.posture d w)) /\
  timers wn = [] /\ scans wn = scans w /\
  KjerLastScanResults wn = KjerLastScanResults w /\
  localStorage wn = localStorage w.
Proof.
  intros Hidle Hinst run units d w1 wn.
  destruct (defense_starts reader w Hinst) as (Hdf & (q & Hq & Hm) & Hsc & Hst & Hls & Hcl).
  { rewrite Hidle. constructor. }
  fold w1 in Hdf, Hq, Hsc, Hst, Hls, Hcl. fold run units in Hm.
  rewrite Hidle in Hq. cbn [app] in Hq.
  assert (Hentry : defenses w1 !! run = Some (defense_entry w)).
  { rewrite Hdf. apply list_lookup_middle. reflexivity. }
  split; [rewrite Hq; exact Hm|]. split; [exact Hentry|].
  apply fmap_app_inv in Hm as (qu & qs & Hu & Hs & ->).
  symmetry in Hu, Hs.
  change (map task qu = units) in Hu.
  destruct qs as [|ts [|? ?]]; try discriminate Hs.
  injection Hs as Hs.
  destruct (defense_units_run probe run qu [ts] w1 Hq)
    as (Htm & Hdf' & Hsc' & Hst' & Hls' & _).
  { rewrite Hu. apply defense_units_act. }
  { eauto. }
  set (wu := Engine.turns probe (length qu) w1) in *.
  assert (Hd : defenses wu !! run = Some d).
  { rewrite Hdf', list_lookup_alter_eq, Hentry, Hu. reflexivity. }
  destruct (summary_turn probe run ts [] wu d Htm Hs Hd)
    as (Hac2 & Htm2 & Hdf2 & Hsc2 & Hst2 & Hls2).
  assert (Hwn : wn = Engine.turn probe wu).
  { subst wn wu. unfold complete_defense. fold w1. rewrite Hq, length_app, turns_add.
    reflexivity. }
  rewrite Hwn, Hac2, Htm2, Hdf2, Hsc2, Hst2, Hls2, Hsc', Hst', Hls', Hsc, Hst, Hls.
  rewrite (posture_scans d w wu) by (rewrite Hsc', Hsc; reflexivity).
  repeat split; try reflexivity. exact Hd.
Qed.

End DefenseMaster.

Lemma count_positive (test : Finding.t -> bool) (fs : list Finding.t) :
  (0 <? count test fs)%nat = existsb test fs.
Proof.
  induction fs as [|f fs IH]; [reflexivity|].
  cbn [count existsb]. destruct (test f); [reflexivity|]. exact IH.
Qed.

Lemma posture_claimed (d : DefenseRun) (w : World) :
  scanResults d = KjerLastScanResults w ->
  hasScanData d = Engine.has_scan_data w ->
  (forall r, observe w = Some r -> counts_agree r) ->
  Engine.posture d w = claimed_posture (actionsTotal d) (findings_used w).
Proof.
  intros Hs Hh Hc. unfold Engine.posture, claimed_posture, findings_used.
  cbv zeta. rewrite Hs, Hh.
  destruct (bool_decide (actionsTotal d = 0)); [reflexivity|].
  unfold Engine.findings_of. unfold observe in Hc.
  destruct (Engine.has_scan_data w); [|reflexivity].
  destruct (KjerLastScanResults w ≫= _) as [r|]; [|reflexivity].
  destruct (Hc r eq_refl) as (Hcr & _).
  destruct (findings r) as [|f fs] eqn:Ef; [reflexivity|].
  cbn [length bool_decide andb]. rewrite bool_decide_eq_false_2 by discriminate.
  rewrite Hcr, count_positive, ?Ef. reflexivity.
Qed.

Lemma some_finding_Exists (keys : list string) (levels : list Level) (fs : list Finding.t) :
  Engine.some_finding keys levels fs = true
  <-> Exists (fun f => Finding.key f ∈ keys /\ Finding.level f ∈ levels) fs.
Proof.
  unfold Engine.some_finding, JS.arr_includes.
  induction fs as [|f fs IH]; cbn [existsb].
  - rewrite Exists_nil. split; [discriminate|tauto].
  - rewrite Exists_cons, orb_true_iff, andb_true_iff, !bool_decide_eq_true, IH. tauto.
Qed.

Lemma actions_taken_app (us vs : list Task) :
  actions_taken (us ++ vs) = actions_taken us + actions_taken vs.
Proof. induction us as [|u us IH]; [reflexivity|]. cbn. rewrite IH. lia. Qed.

Lemma actions_taken_phase (run : nat) (ph : DefPhase) (title : string) (tools : list ToolView) :
  tools <> [] -> 0 < actions_taken (phase_units run ph title tools true).
Proof.
  intros H. destruct tools as [|t tools]; [contradiction|]. cbn. lia.
Qed.

Lemma phase_units_elem (r run : nat) (ph ph' : DefPhase) (title : string)
    (tools : list ToolView) (triggered : bool) (tool : ToolView) :
  TDefend r ph tool ∈ phase_units run ph' title tools triggered ->
  ph = ph' /\ triggered = true.
Proof.
  unfold phase_units. destruct triggered; rewrite ?andb_false_r.
  - destruct (0 <? length tools)%nat; cbn [andb]; [|intros H; apply elem_of_nil in H as []].
    intros H. apply elem_of_cons in H as [H|H]; [discriminate|].
    apply list_elem_of_In, in_map_iff in H. destruct H as (t & Heq & _).
    injection Heq as _ Heq _. auto.
  - intros H. apply elem_of_nil in H as [].
Qed.

Section Containment.
Variable reader : gmap string LSVal -> InstalledObj.

(** Malware Containment is engaged exactly when its [if] passes. *)
Lemma containment_engaged (w : World) :
  idle w ->
  reader (localStorage w) <> ∅ ->
  Engine.avTools reader w <> [] ->
  let e := defense_entry w in
  engages MalwareContainment (length (defenses w)) (exec (Engine.activateSmartDefense reader) w)
  <-> broadMode e || hasMalware e || hasMemoryThreat e = true.
Proof.
  intros Hidle Hinst Hav e.
  destruct (defense_starts reader w Hinst) as (_ & (q & Hq & Hm) & _).
  { rewrite Hidle. constructor. }
  rewrite Hidle in Hq. cbn [app] in Hq.
  unfold engages. rewrite Hq, Hm. unfold defense_units. cbv zeta. fold e.
  split.
  - intros [tool H]. apply elem_of_app in H as [H|H];
      [|apply list_elem_of_singleton in H; discriminate].
    repeat (apply elem_of_app in H as [H|H]);
      apply phase_units_elem in H as [Hph Htr]; try discriminate Hph; exact Htr.
  - intros H. destruct (Engine.avTools reader w) as [|t ts] eqn:Et; [contradiction|].
    exists t. apply elem_of_app. left. apply elem_of_app. right. apply elem_of_app. left.
    unfold phase_units. rewrite H. cbn [length Nat.ltb Nat.leb andb map].
    apply list_elem_of_further, list_elem_of_here.
Qed.

End Containment.

Lemma observed_scan_data (w : World) (r : ScanResults) :
  observe w = Some r -> is_Some (completedAt r) ->
  Engine.has_scan_data w = true /\ findings_used w = findings r.
Proof.
  unfold observe, findings_used, Engine.has_scan_data, Engine.findings_of.
  intros Ho Hc. destruct (KjerLastScanResults w) as [ref|]; [|discriminate].
  cbn in Ho |- *. rewrite Ho. rewrite bool_decide_eq_true_2 by exact Hc. auto.
Qed.

Section Triggers.
Variable reader : gmap string LSVal -> InstalledObj.

(** C3 (amended) Working from a complete scan result, with a tool of role
    av_remediate installed, the defence run does not require broadMode and
    engages Malware Containment exactly when some finding of a tool of role
    malware_scan is critical or error, or some finding of a tool of role
    memory_scan is critical or warning. *)
Theorem malware_containment_trigger (w : World) (r : ScanResults) :
  idle w ->
  reader (localStorage w) <> ∅ ->
  Engine.avTools reader w <> [] ->
  observe w = Some r ->
  is_Some (completedAt r) ->
  let run := length (defenses w) in
  let w1 := exec (Engine.activateSmartDefense reader) w in
  broadMode <$> defenses w1 !! run = Some false /\
  (engages MalwareContainment run w1 <-> Exists malware_trigger (findings r)).
Proof.
  intros Hidle Hinst Hav Ho Hc run w1.
  destruct (observed_scan_data w r Ho Hc) as [Hsd Hfu].
  split.
  - destruct (defense_starts reader w Hinst) as (Hdf & _).
    { rewrite Hidle. constructor. }
    fold w1 in Hdf. rewrite Hdf. subst run.
    rewrite list_lookup_middle by reflexivity.
    cbn. rewrite Hsd. reflexivity.
  - subst run w1. rewrite (containment_engaged reader w Hidle Hinst Hav).
    cbn [defense_entry broadMode hasMalware hasMemoryThreat].
    fold (findings_used w). rewrite Hsd, Hfu. cbn [negb orb].
    rewrite orb_true_iff, !some_finding_Exists.
    unfold malware_trigger. rewrite !Exists_exists.
    change (role_keys "malware_scan")
      with ["clamav"; "rkhunter"; "chkrootkit"; "malwarebytes"; "windows-defender"; "kaspersky"].
    change (role_keys "memory_scan") with ["volatility"].
    split.
    + intros [(f & Hf & H)|(f & Hf & H)]; exists f; tauto.
    + intros (f & Hf & [H|H]); [left|right]; exists f; tauto.
Qed.

End Triggers.

(** C3, as stated, fails: with every tool installed and a complete result
    whose only finding is a warning of Volatility, Malware Containment is
    engaged although no finding of a malware_scan or memory_scan tool is
    critical or error. *)
Lemma memory_warning_engages_containment :
  let w1 := exec activateSmartDefense memory_warning_world in
  observe memory_warning_world = Some memory_warning_result /\
  Engine.avTools getInstalledTools memory_warning_world <> [] /\
  engages MalwareContainment 0 w1 /\
  ~ Exists claimed_malware_trigger (findings memory_warning_result).
Proof.
  assert (Hav : Engine.avTools getInstalledTools memory_warning_world <> []).
  { intros H. vm_compute in H. discriminate H. }
  split; [reflexivity|]. split; [exact Hav|]. split.
  - apply (containment_engaged getInstalledTools memory_warning_world);
      [reflexivity|exact equipped_world_installed|exact Hav|].
    vm_compute. reflexivity.
  - cbn [findings memory_warning_result]. rewrite Exists_cons, Exists_nil.
    intros [[_ H]|[]]. cbn in H. rewrite !elem_of_cons, elem_of_nil in H.
    intuition discriminate.
Qed.

Lemma malware_containment_trigger_witness :
  engages MalwareContainment 0 (exec activateSmartDefense infected_world).
Proof.
  apply (malware_containment_trigger getInstalledTools infected_world infected_result).
  - reflexivity.
  - exact equipped_world_installed.
  - intros H. vm_compute in H. discriminate H.
  - reflexivity.
  - exists 5000%Z. reflexivity.
  - constructor. left. split.
    + vm_compute. constructor.
    + constructor.
Defined.

Section Posture.
Variable reader : gmap string LSVal -> InstalledObj.
Variable probe : ToolView -> string -> M (option Finding.t).

(** C6 A defence run started from an idle world whose Result Store holds
    nothing or a result whose counters agree with its findings ends with
    its variables [d] such that: [actionsTotal] is the number of actions
    its callbacks took; the posture computed is the one the specification
    words (no defensive tools for zero actions, else preventive hardening
    for no findings used, else incident response if a finding is critical,
    else hardened); the summary line of the Activity Log carries that
    posture; and, working from a single critical finding of a malware_scan
    tool with a tool of role av_remediate installed, the posture is
    INCIDENT RESPONSE ACTIVE. *)
Theorem defense_posture (w : World) :
  idle w ->
  reader (localStorage w) <> ∅ ->
  (forall r, observe w = Some r -> counts_agree r) ->
  let run := length (defenses w) in
  let wn := complete_defense reader probe w in
  exists d,
    defenses wn !! run = Some d /\
    actionsTotal d = actions_taken (defense_units reader run w) /\
    Engine.posture d wn = claimed_posture (actionsTotal d) (findings_used w) /\
    a_message <$> head (activity wn)
      = Some (summary_line (actionsTotal d)
                (claimed_posture (actionsTotal d) (findings_used w))) /\
    (forall f, findings_used w = [f] ->
               Finding.level f = LCritical ->
               Finding.key f ∈ role_keys "malware_scan" ->
               Engine.avTools reader w <> [] ->
               Engine.posture d wn = Engine.INCIDENT_RESPONSE_ACTIVE).
Proof.
  intros Hidle Hinst Hc run wn.
  destruct (defense_run reader probe w Hidle Hinst)
    as (_ & _ & Hd & Hac & _ & Hsc & _).
  fold run wn in Hd, Hac, Hsc.
  set (units := defense_units reader run w) in *.
  set (d := after_units units (defense_entry w)) in *.
  destruct (after_units_context units (defense_entry w)) as (Hsr & Hhs & _).
  fold d in Hsr, Hhs. cbn [defense_entry scanResults hasScanData] in Hsr, Hhs.
  assert (Hat : actionsTotal d = actions_taken units).
  { subst d. rewrite after_units_actions. reflexivity. }
  assert (Hp : Engine.posture d wn = claimed_posture (actionsTotal d) (findings_used w)).
  { rewrite (posture_scans d w wn Hsc). apply posture_claimed; assumption. }
  exists d. split; [exact Hd|]. split; [exact Hat|]. split; [exact Hp|].
  split; [rewrite Hac, <- Hp, (posture_scans d w wn Hsc); reflexivity|].
  intros f Hf Hl Hk Hav. rewrite Hp, Hf.
  assert (Hpos : 0 < actionsTotal d).
  { rewrite Hat. subst units. unfold defense_units. cbv zeta.
    rewrite !actions_taken_app.
    assert (Hm : hasMalware (defense_entry w) = true).
    { cbn [defense_entry hasMalware]. fold (findings_used w). rewrite Hf.
      apply some_finding_Exists. constructor. split; [exact Hk|].
      rewrite Hl. constructor. }
    rewrite Hm, orb_true_r. cbn [orb].
    pose proof (actions_taken_phase run MalwareContainment
                  "PHASE 2 — MALWARE CONTAINMENT" (Engine.avTools reader w) Hav).
    lia. }
  unfold claimed_posture. rewrite bool_decide_eq_false_2 by lia.
  cbn [existsb]. unfold is_level. rewrite bool_decide_eq_true_2 by exact Hl.
  reflexivity.
Qed.

End Posture.

Lemma defense_posture_witness :
  exists d,
    defenses (complete_defense getInstalledTools _runToolScan infected_world) !! 0 = Some d /\
    Engine.posture d (complete_defense getInstalledTools _runToolScan infected_world)
      = Engine.INCIDENT_RESPONSE_ACTIVE.
Proof.
  destruct (defense_posture getInstalledTools _runToolScan infected_world)
    as (d & Hd & _ & _ & _ & Hp).
  - reflexivity.
  - exact equipped_world_installed.
  - intros r Hr. injection Hr as <-. repeat split.
  - exists d. split; [exact Hd|].
    apply (Hp clamav_finding).
    + reflexivity.
    + reflexivity.
    + vm_compute. constructor.
    + intros H. vm_compute in H. discriminate H.
Defined.

(** ** The gate and the tool operations *)

Lemma flag_blind_ret {A} (a : A) : flag_blind (mret a).
Proof. intros v w. reflexivity. Qed.

Lemma flag_blind_bind {A B} (m : M A) (k : A -> M B) :
  flag_blind m -> (forall a, flag_blind (k a)) -> flag_blind (m ≫= k).
Proof.
  intros Hm Hk v w. unfold mbind, M_bind. rewrite Hm.
  destruct (m w) as [a w1]. cbn [fst snd]. apply Hk.
Qed.

Lemma flag_blind_get {A} (f : World -> A) :
  (forall v w, f (set_flag v w) = f w) -> flag_blind (get f).
Proof. intros H v w. unfold get. rewrite H. reflexivity. Qed.

Lemma flag_blind_modify (g : World -> World) :
  (forall v w, g (set_flag v w) = set_flag v (g w)) -> flag_blind (modify g).
Proof. intros H v w. unfold modify. rewrite H. reflexivity. Qed.

Lemma flag_blind_if {A} (c : bool) (m1 m2 : M A) :
  flag_blind m1 -> flag_blind m2 -> flag_blind (if c then m1 else m2).
Proof. destruct c; auto. Qed.

Lemma flag_blind_exec {A} (m : M A) (v : option LSVal) (w : World) :
  flag_blind m -> exec m (set_flag v w) = set_flag v (exec m w).
Proof. intros H. unfold exec. rewrite H. reflexivity. Qed.

Lemma set_flag_with_localStorage (v : option LSVal) (f : gmap string LSVal -> gmap string LSVal)
    (w : World) :
  (forall ls, f (partial_alter (fun _ => v) "kterInitialized" ls)
              = partial_alter (fun _ => v) "kterInitialized" (f ls)) ->
  with_localStorage f (set_flag v w) = set_flag v (with_localStorage f w).
Proof.
  intros H. unfold set_flag, with_localStorage. destruct w.
  cbn -[partial_alter]. rewrite H. reflexivity.
Qed.

Lemma insert_past_flag (v : option LSVal) (k : string) (x : LSVal) (ls : gmap string LSVal) :
  k <> "kterInitialized" ->
  <[k := x]> (partial_alter (fun _ => v) "kterInitialized" ls)
  = partial_alter (fun _ => v) "kterInitialized" (<[k := x]> ls).
Proof. intros Hk. apply partial_alter_partial_alter_ne. exact Hk. Qed.

Lemma localStorage_set_flag (v : option LSVal) (w : World) :
  localStorage (set_flag v w)
  = partial_alter (fun _ => v) "kterInitialized" (localStorage w).
Proof. reflexivity. Qed.

Lemma flag_blind_showNotification (msg : string) : flag_blind (showNotification msg).
Proof.
  apply flag_blind_modify. intros v w. unfold item_is.
  rewrite localStorage_set_flag, lookup_partial_alter_ne by discriminate.
  destruct (bool_decide _); reflexivity.
Qed.

Lemma flag_blind_setTimeout (t : Task) (delay : Z) : flag_blind (setTimeout t delay).
Proof. apply flag_blind_modify. intros v w. reflexivity. Qed.

Ltac blind_step :=
  first
    [ apply flag_blind_ret
    | apply flag_blind_bind; [|intros ?]
    | apply flag_blind_showNotification
    | apply flag_blind_setTimeout
    | apply flag_blind_if
    | apply flag_blind_modify; intros ? ?; reflexivity
    | apply flag_blind_get; intros ? ?; reflexivity
    | apply flag_blind_get; intros ? ?; unfold getItem;
      rewrite !localStorage_set_flag, !lookup_partial_alter_ne by discriminate; reflexivity
    | progress unfold logActivity, ActivityLog.add, logResult, logSection, logDivider,
        SecurityMonitor.log, SecurityMonitor.section, SecurityMonitor.divider,
        SecurityMonitor.push, SecurityMonitor.clear, updateLastUpdateTime
    | match goal with
      | |- flag_blind (match ?x with _ => _ end) => destruct x
      end ].

Ltac blind := repeat blind_step.

Lemma flag_blind_schedule_probes (r : nat) (ph : string) (tools : list ToolView) :
  forall d, flag_blind (Engine.schedule_probes r ph tools d).
Proof. induction tools as [|t tools IH]; intros d; cbn [Engine.schedule_probes]; blind. apply IH. Qed.

Lemma flag_blind_schedule_phases (r : nat) (phases : list (string * list ToolView)) :
  forall d, flag_blind (Engine.schedule_phases r phases d).
Proof.
  induction phases as [|[ph tools] phases IH]; intros d; cbn [Engine.schedule_phases]; blind.
  - apply flag_blind_schedule_probes.
  - apply IH.
Qed.

Lemma flag_blind_schedule_defenders (run : nat) (ph : DefPhase) (tools : list ToolView) (step : Z) :
  forall d, flag_blind (Engine.schedule_defenders run ph tools step d).
Proof.
  induction tools as [|t tools IH]; intros d; cbn [Engine.schedule_defenders]; blind. apply IH.
Qed.

Lemma flag_blind_schedule_defense_phase (run : nat) (ph : DefPhase) (title : string)
    (tools : list ToolView) (triggered : bool) (step d : Z) :
  flag_blind (Engine.schedule_defense_phase run ph title tools triggered step d).
Proof.
  unfold Engine.schedule_defense_phase. blind. apply flag_blind_schedule_defenders.
Qed.

Lemma flag_blind_new_results : flag_blind Engine.new_results.
Proof. intros v w. reflexivity. Qed.

Lemma flag_blind_new_defense (d : DefenseRun) : flag_blind (Engine.new_defense d).
Proof. intros v w. reflexivity. Qed.

Section Gate.
Variable reader : gmap string LSVal -> InstalledObj.
Hypothesis reader_blind :
  forall v ls, reader (partial_alter (fun _ => v) "kterInitialized" ls) = reader ls.

Lemma getToolsByRole_blind (roles : list string) (v : option LSVal) (w : World) :
  Engine.getToolsByRole reader roles (set_flag v w) = Engine.getToolsByRole reader roles w.
Proof.
  unfold Engine.getToolsByRole. rewrite localStorage_set_flag, reader_blind. reflexivity.
Qed.

Lemma flag_blind_setToolInstalled (toolName : string) (isInstalled : bool) :
  flag_blind (Engine.setToolInstalled reader toolName isInstalled).
Proof.
  apply flag_blind_modify. intros v w. cbv beta zeta.
  rewrite localStorage_set_flag, reader_blind.
  change (clock (set_flag v w)) with (clock w).
  apply set_flag_with_localStorage. intros ls. apply insert_past_flag. discriminate.
Qed.

Ltac blind_body :=
  match goal with
  | |- ?b (set_flag ?v ?w) = _ =>
      let H := fresh in
      assert (H : flag_blind b);
      [ repeat first [ apply flag_blind_setToolInstalled
                     | apply flag_blind_new_results
                     | apply flag_blind_new_defense
                     | apply flag_blind_schedule_phases
                     | apply flag_blind_schedule_defense_phase
                     | blind_step ]
      | exact (H v w) ]
  end.

Lemma flag_blind_installTool (toolName : string) (reply : option Engine.BackendResult) :
  flag_blind (Engine.installTool reader toolName reply).
Proof.
  intros v w. unfold Engine.installTool. cbv beta zeta.
  rewrite localStorage_set_flag, reader_blind.
  change (Engine.callBackend reply (set_flag v w)) with (Engine.callBackend reply w).
  destruct (bool_decide _); blind_body.
Qed.

Lemma flag_blind_performComprehensiveScan :
  flag_blind (Engine.performComprehensiveScan reader).
Proof.
  intros v w. unfold Engine.performComprehensiveScan. cbv beta zeta.
  rewrite localStorage_set_flag, reader_blind.
  destruct (bool_decide (size _ = 0)); [blind_body|].
  replace (map (fun pr : string * list string =>
                  (pr.1, Engine.getToolsByRole reader pr.2 (set_flag v w))) scan_phases)
    with (map (fun pr : string * list string =>
                  (pr.1, Engine.getToolsByRole reader pr.2 w)) scan_phases)
    by (apply map_ext; intros pr; rewrite getToolsByRole_blind; reflexivity).
  destruct (bool_decide (length _ = 0)); blind_body.
Qed.

Lemma flag_blind_activateSmartDefense :
  flag_blind (Engine.activateSmartDefense reader).
Proof.
  intros v w. unfold Engine.activateSmartDefense. cbv beta zeta.
  rewrite localStorage_set_flag, reader_blind.
  destruct (bool_decide (size _ = 0)); [blind_body|].
  unfold Engine.networkDefenders, Engine.avTools, Engine.macTools, Engine.integrityTools,
    Engine.complianceDefenders, Engine.siemTools.
  rewrite !getToolsByRole_blind.
  change (Engine.has_scan_data (set_flag v w)) with (Engine.has_scan_data w).
  change (KjerLastScanResults (set_flag v w)) with (KjerLastScanResults w).
  change (scans (set_flag v w)) with (scans w).
  change (Engine.findings_of (KjerLastScanResults w) (Engine.has_scan_data w) (set_flag v w))
    with (Engine.findings_of (KjerLastScanResults w) (Engine.has_scan_data w) w).
  blind_body.
Qed.

End Gate.

(** C1, as stated, fails: with the flag not set, an install goes through
    and writes the installed-tools entry, and a scan runs to its end and
    publishes a result. *)
Lemma uninitialized_operations_mutate :
  Engine.isInitialized fresh_world = false /\
  localStorage (exec (installTool "ClamAV" (Some installed_reply)) fresh_world) !! "installedTools"
    <> localStorage fresh_world !! "installedTools" /\
  Engine.isInitialized equipped_world = false /\
  observe (complete_scan getInstalledTools _runToolScan equipped_world)
    <> observe equipped_world.
Proof.
  split; [reflexivity|]. split; [|split; [reflexivity|]].
  - intros H. vm_compute in H. discriminate H.
  - destruct (scan_run getInstalledTools _runToolScan runToolScan_frame equipped_world
                eq_refl equipped_world_installed equipped_world_active)
      as (os & T & _ & _ & _ & _ & Hst & Hsc & _).
    unfold observe, complete_scan. rewrite Hst. cbn [mbind option_bind].
    rewrite Hsc. discriminate.
Qed.

(** C1 (amended) Install/uninstall, scan and defend do not check the
    initialised flag and have no NotInitialized outcome: each runs the
    same whatever ['kterInitialized'] holds, and leaves it as it is.  The
    gate is in the page only: while the flag is not ['true'] the install
    button of every tool card is disabled. *)
Theorem operations_ignore_gate (v : option LSVal) (w : World) (toolName : string)
    (reply : option Engine.BackendResult) :
  exec (installTool toolName reply) (set_flag v w)
    = set_flag v (exec (installTool toolName reply) w) /\
  exec performComprehensiveScan (set_flag v w)
    = set_flag v (exec performComprehensiveScan w) /\
  exec activateSmartDefense (set_flag v w)
    = set_flag v (exec activateSmartDefense w) /\
  (forall isIncompatible,
     Engine.isButtonDisabled isIncompatible (Engine.isInitialized (set_flag None w)) = true).
Proof.
  assert (Hr : forall v ls,
             getInstalledTools (partial_alter (fun _ => v) "kterInitialized" ls)
             = getInstalledTools ls).
  { intros v' ls. apply getInstalledTools_ignores. discriminate. }
  split; [|split; [|split]].
  - apply flag_blind_exec, flag_blind_installTool, Hr.
  - apply flag_blind_exec, flag_blind_performComprehensiveScan, Hr.
  - apply flag_blind_exec, flag_blind_activateSmartDefense, Hr.
  - intros b. unfold Engine.isButtonDisabled, Engine.isInitialized, item_is.
    rewrite localStorage_set_flag, lookup_partial_alter_eq.
    rewrite bool_decide_eq_false_2 by discriminate. apply orb_true_r.
Qed.

(** * Further properties *)

(** ** [ri] *)

Lemma Math_random_range (w : World) :
  (0 <= (Math_random w).1 < 1000000)%Z.
Proof.
  unfold Math_random. destruct (random w) as [|r rest]; cbn [fst]; [lia|].
  apply Z.mod_pos_bound. lia.
Qed.

(** X1.  [ri(min, max)] stays within its bounds, whatever [Math.random]
    draws, and uses up exactly one draw. *)
Theorem ri_within_bounds (min max : Z) (w : World) :
  (min <= max)%Z ->
  (min <= (ri min max w).1 <= max)%Z /\
  random (ri min max w).2 = tail (random w).
Proof.
  intros Hmm. unfold ri, mbind, M_bind, mret, M_ret.
  pose proof (Math_random_range w) as Hr.
  assert (Hd : random (Math_random w).2 = tail (random w)).
  { unfold Math_random. destruct (random w) eqn:E; cbn [fst snd tail]; [exact E|reflexivity]. }
  destruct (Math_random w) as [r w1]. cbn [fst snd] in *.
  split; [|exact Hd].
  assert (0 <= r * (max - min + 1) / 1000000 < max - min + 1)%Z; [|lia].
  split.
  - apply Z.div_pos; nia.
  - apply Z.div_lt_upper_bound; nia.
Qed.

Lemma ri_within_bounds_witness :
  (1 <= (ri 1 5 (with_random (fun _ => [999999%Z]) fresh_world)).1 <= 5)%Z.
Proof.
  apply (ri_within_bounds 1 5 (with_random (fun _ => [999999%Z]) fresh_world)). lia.
Defined.

(** ** The probe flags only severe lines *)

Lemma flags_severe_bind {A} (m : M A) (k : A -> M Reading) :
  (forall a, flags_severe (k a)) -> flags_severe (m ≫= k).
Proof.
  intros H w. unfold mbind, M_bind. destruct (m w) as [a w1]. apply H.
Qed.

Lemma flags_severe_reading (line : string) (level : Level) (flagged : bool) :
  (flagged = true -> severe level = true) -> flags_severe (reading line level flagged).
Proof. intros H w. exact H. Qed.

Lemma flags_severe_if (c : bool) (m1 m2 : M Reading) :
  flags_severe m1 -> flags_severe m2 -> flags_severe (if c then m1 else m2).
Proof. destruct c; auto. Qed.

Ltac severe_case :=
  repeat first
    [ apply flags_severe_bind; intros ?
    | apply flags_severe_if
    | apply flags_severe_reading;
      repeat match goal with |- context [if ?c then _ else _] => destruct c end;
      first [ reflexivity | discriminate | intros; reflexivity ] ].

Lemma scan_cases_severe : Forall (fun c : string * M Reading => flags_severe c.2) scan_cases.
Proof.
  unfold scan_cases.
  repeat (apply Forall_cons_2; [cbn [snd]; severe_case|]).
  apply Forall_nil_2.
Qed.

Lemma switch_in {A} (P : A -> Prop) (k : string) (cases : list (string * A)) (dflt : A) :
  Forall (fun c => P c.2) cases -> P dflt -> P (switch k cases dflt).
Proof.
  intros Hc Hd. unfold switch.
  induction Hc as [|[k' c] cases Hk _ IH]; cbn [prop]; [exact Hd|].
  destruct (String.eqb k' k); [exact Hk|exact IH].
Qed.

Lemma runToolScan_severe (tool : ToolView) (phaseName : string) (w : World) (f : Finding.t) :
  (_runToolScan tool phaseName w).1 = Some f -> severe (Finding.level f) = true.
Proof.
  unfold _runToolScan, mbind, M_bind.
  pose proof (switch_in flags_severe (key tool) scan_cases
                (reading "Scan completed" LSuccess false) scan_cases_severe) as H.
  specialize (H (fun w => ltac:(discriminate)) w).
  destruct (switch (key tool) scan_cases _ w) as [[[line level] flagged] w1].
  cbn in H |- *. destruct flagged; [|discriminate].
  intros [= <-]. cbn. apply H. reflexivity.
Qed.

(** ** The report of a scan *)

Lemma turn_summary_report (probe : ToolView -> string -> M (option Finding.t))
    (r : nat) (t : Timer) (ts : list Timer) (w : World) (res0 : ScanResults) :
  timers w = t :: ts ->
  task t = TScanSummary r ->
  scans w !! r = Some res0 ->
  let res := set_completedAt (Z.max (due t) (clock w)) res0 in
  let w' := Engine.turn probe w in
  a_message <$> head (activity w') = Some (scan_summary_line res) /\
  a_level <$> head (activity w') = Some (summaryLevel res).
Proof.
  intros Ht Hs Hr res w'. subst w'. unfold Engine.turn. rewrite Ht, Hs.
  cbn [Engine.run_task].
  set (w0 := with_clock _ _).
  apply (post_exec _ w0 (fun w' =>
    a_message <$> head (activity w') = Some (scan_summary_line res) /\
    a_level <$> head (activity w') = Some (summaryLevel res))).
  unfold Engine.scan_summary_callback.
  do 8 mstep.
  set (w2 := with_KjerLastScanResults _ _).
  assert (Hl : scans w2 !! r = Some res).
  { subst w2 w0. cbn. rewrite list_lookup_alter_eq, Hr. reflexivity. }
  rewrite Hl. clearbody w2.
  mskip. mskip. mskip. mskip. mskip.
  mstep. mstep.
  apply (post_keeps activity); [frame|].
  intros _ w3 E3. rewrite E3. cbn.
  unfold ActivityLog.maxEntries. rewrite head_unshift_capped. cbn.
  split; reflexivity.
Qed.

Lemma set_completedAt_counts (T : Z) (r : ScanResults) :
  counts_agree r -> counts_agree (set_completedAt T r).
Proof. intros H. exact H. Qed.

Lemma getToolsByRole_entry (reader : gmap string LSVal -> InstalledObj)
    (roles : list string) (w : World) (t : ToolView) :
  t ∈ Engine.getToolsByRole reader roles w ->
  key t ∈ flat_map role_keys roles /\
  (key t, entry t) ∈ TOOLS_DATABASE /\
  is_Some (reader (localStorage w) !! name (entry t)).
Proof.
  unfold Engine.getToolsByRole. intros H.
  apply list_elem_of_In, in_map_iff in H. destruct H as ([k e] & <- & H).
  apply list_elem_of_In, list_elem_of_filter in H. destruct H as [Hk H].
  apply list_elem_of_filter in H. destruct H as [Hi H].
  cbn [key entry]. auto.
Qed.

Lemma scan_plan_elem (reader : gmap string LSVal -> InstalledObj) (w : World)
    (t : ToolView) (ph : string) :
  (t, ph) ∈ scan_plan reader w ->
  exists roles, (ph, roles) ∈ scan_phases /\ t ∈ Engine.getToolsByRole reader roles w.
Proof.
  unfold scan_plan. intros H.
  apply list_elem_of_In, in_flat_map in H. destruct H as ([ph' roles] & Hp & H).
  apply in_map_iff in H. destruct H as (t' & [= -> ->] & H).
  exists roles. split; apply list_elem_of_In; assumption.
Qed.

Section ScanReport.
Variable reader : gmap string LSVal -> InstalledObj.
Variable probe : ToolView -> string -> M (option Finding.t).
Hypothesis probe_ok : probe_frame probe.

(** A scan from an idle world, with what its summary reports. *)
Lemma scan_report (w : World) :
  idle w ->
  reader (localStorage w) <> ∅ ->
  active_phases reader w <> [] ->
  let wn := complete_scan reader probe w in
  exists (os : list (option Finding.t)) (res : ScanResults),
    Forall2 (produced_by probe) (scan_plan reader w) os /\
    observe wn = Some res /\
    findings res = omap (fun o => o) os /\
    counts_agree res /\
    a_message <$> head (activity wn) = Some (scan_summary_line res) /\
    a_level <$> head (activity wn) = Some (summaryLevel res).
Proof.
  intros Hidle Hinst Hact wn.
  destruct (scan_starts reader w Hinst Hact) as (Hst & Hsc & (q & Hq & Hm) & Hls & Hdf & Hcl).
  { rewrite Hidle. constructor. }
  set (w1 := exec (Engine.performComprehensiveScan reader) w) in *.
  set (r := length (scans w)) in *.
  rewrite Hidle in Hq. cbn [app] in Hq.
  apply fmap_app_inv in Hm as (qu & qs & Hu & Hs & ->).
  symmetry in Hu, Hs.
  change (map task qu = scan_units r (active_phases reader w)) in Hu.
  destruct qs as [|ts [|? ?]]; try discriminate Hs.
  injection Hs as Hs.
  destruct (units_run probe probe_ok r qu [ts] w1 Hq) as (os & Hp & Ht & Hsc' & Hst' & Hls' & Hdf').
  { rewrite Hu. apply scan_units_are_units. }
  set (wu := Engine.turns probe (length qu) w1) in *.
  assert (Hwn : wn = Engine.turn probe wu).
  { subst wn wu. unfold complete_scan. fold w1. rewrite Hq, length_app, turns_add.
    reflexivity. }
  set (res0 := foldl apply_outcome (init_results w) os).
  assert (Hres0 : scans wu !! r = Some res0).
  { rewrite Hsc', Hsc, list_lookup_alter_eq. subst r.
    rewrite list_lookup_middle by reflexivity. reflexivity. }
  destruct (turn_summary probe r ts [] wu Ht Hs) as (_ & Hst2 & Hsc2 & _).
  destruct (turn_summary_report probe r ts [] wu res0 Ht Hs Hres0) as (Hmsg & Hlvl).
  destruct (foldl_apply_outcome os (init_results w)) as (_ & Hf & _ & _ & Hk).
  exists os, (set_completedAt (Z.max (due ts) (clock wu)) res0).
  rewrite Hwn. split; [|split; [|split; [|split; [|split]]]].
  - rewrite Hu, plan_of_active_phases in Hp. exact Hp.
  - apply (observe_last (scans w)); [exact Hst2|].
    rewrite Hsc2, Hsc', Hsc. subst r.
    replace (length (scans w)) with (length (scans w) + 0) by lia.
    rewrite !alter_app_r. reflexivity.
  - exact Hf.
  - apply set_completedAt_counts, Hk. repeat split.
  - exact Hmsg.
  - exact Hlvl.
Qed.

End ScanReport.

Lemma produced_findings (probe : ToolView -> string -> M (option Finding.t))
    (plan : list (ToolView * string)) (os : list (option Finding.t)) :
  Forall2 (produced_by probe) plan os ->
  Forall (fun f => exists t ph w0, (t, ph) ∈ plan /\ (probe t ph w0).1 = Some f)
         (omap (fun o => o) os).
Proof.
  induction 1 as [|[t ph] o plan os [w0 Hp] _ IH]; [constructor|].
  cbn [omap]. assert (IH' : Forall
    (fun f => exists t0 ph0 w1, (t0, ph0) ∈ (t, ph) :: plan /\ (probe t0 ph0 w1).1 = Some f)
    (omap (fun o => o) os)).
  { eapply Forall_impl; [exact IH|]. intros f (t0 & ph0 & w1 & Hin & Hf).
    exists t0, ph0, w1. split; [right; exact Hin|exact Hf]. }
  destruct o as [f|]; [|exact IH'].
  cbn. constructor; [|exact IH'].
  exists t, ph, w0. split; [left|]. cbn in Hp. symmetry. exact Hp.
Qed.

Lemma severe_counts (fs : list Finding.t) :
  Forall (fun f => severe (Finding.level f) = true) fs ->
  count (is_level LCritical) fs + count (is_level LError) fs + count (is_level LWarning) fs
    = length fs /\
  count is_flagged_info fs = 0.
Proof.
  induction 1 as [|f fs Hf _ [IH1 IH2]]; [split; reflexivity|].
  cbn [count length]. unfold is_level at 1 3 5, is_flagged_info at 1.
  destruct (Finding.level f); try discriminate Hf;
    repeat case_bool_decide; try discriminate; try congruence; cbn [andb]; split; lia.
Qed.

Section ScriptProbe.
Variable reader : gmap string LSVal -> InstalledObj.

(** X2.  Every finding of a completed scan belongs to a declared phase and to
    an installed catalogue tool that holds a role of that phase, under the
    tool's catalogue name; none carries a [flagged] property. *)
Theorem scan_findings_well_placed (w : World) :
  idle w ->
  reader (localStorage w) <> ∅ ->
  active_phases reader w <> [] ->
  exists res,
    observe (complete_scan reader _runToolScan w) = Some res /\
    Forall (well_placed (reader (localStorage w))) (findings res) /\
    Forall (fun f => Finding.flagged f = None) (findings res).
Proof.
  intros Hidle Hinst Hact.
  destruct (scan_report reader _runToolScan runToolScan_frame w Hidle Hinst Hact)
    as (os & res & Hp & Hobs & Hf & _).
  exists res. split; [exact Hobs|]. rewrite Hf.
  apply produced_findings in Hp.
  split; (eapply Forall_impl; [exact Hp|]); intros f (t & ph & w0 & Hin & Hr);
    apply runToolScan_findings in Hr as (Hfl & Hph & Hk & Hn).
  - apply scan_plan_elem in Hin as (roles & Hroles & Ht).
    apply getToolsByRole_entry in Ht as (Hrole & Hdb & Hi).
    exists roles, (entry t). rewrite Hph, Hk, Hn. auto.
  - exact Hfl.
Qed.

(** X3.  With the script's probe every finding is at warning, error or
    critical level, so each one is counted in exactly one of the buckets
    critical, high and medium, and [low] stays 0; the threat level reported
    is CLEAN exactly when nothing was found, and the Activity Log line
    reads "no threats detected" exactly then. *)
Theorem scan_threat_report (w : World) :
  idle w ->
  reader (localStorage w) <> ∅ ->
  active_phases reader w <> [] ->
  let wn := complete_scan reader _runToolScan w in
  exists res,
    observe wn = Some res /\
    Forall (fun f => severe (Finding.level f) = true) (findings res) /\
    critical res + high res + medium res = length (findings res) /\
    low res = 0 /\
    (threatLevel res = "CLEAN" <-> findings res = []) /\
    a_message <$> head (activity wn)
      = Some (if bool_decide (threatLevel res = "CLEAN")
              then "Scan complete — no threats detected"
              else "Scan complete — " +:+ nnum (length (findings res))
                     +:+ " threat(s) detected  |  Threat level: " +:+ threatLevel res).
Proof.
  intros Hidle Hinst Hact wn.
  destruct (scan_report reader _runToolScan runToolScan_frame w Hidle Hinst Hact)
    as (os & res & Hp & Hobs & Hf & (Hc & Hh & Hm & Hl) & Hmsg & _).
  fold wn in Hobs, Hmsg.
  assert (Hsev : Forall (fun f => severe (Finding.level f) = true) (findings res)).
  { rewrite Hf. apply produced_findings in Hp.
    eapply Forall_impl; [exact Hp|]. intros f (t & ph & w0 & _ & Hr).
    eapply runToolScan_severe. exact Hr. }
  destruct (severe_counts (findings res) Hsev) as [Hsum Hlow].
  assert (Hall : critical res + high res + medium res = length (findings res)) by lia.
  exists res. split; [exact Hobs|]. split; [exact Hsev|].
  split; [exact Hall|]. split; [lia|].
  assert (Hclean : threatLevel res = "CLEAN" <-> findings res = []).
  { unfold threatLevel. split.
    - intros H. apply nil_length_inv.
      destruct (0 <? critical res)%nat eqn:E1; [discriminate H|].
      destruct (0 <? high res)%nat eqn:E2; [discriminate H|].
      destruct (0 <? medium res)%nat eqn:E3; [discriminate H|].
      apply Nat.ltb_ge in E1, E2, E3. lia.
    - intros H. rewrite H in Hall. cbn in Hall.
      replace (critical res) with 0 by lia. replace (high res) with 0 by lia.
      replace (medium res) with 0 by lia. reflexivity. }
  split; [exact Hclean|]. rewrite Hmsg. f_equal.
  unfold scan_summary_line. destruct (findings res) as [|f fs] eqn:Ef.
  - rewrite bool_decide_eq_true_2 by (apply Hclean; reflexivity). reflexivity.
  - rewrite bool_decide_eq_false_2; [reflexivity|].
    intros H. apply Hclean in H. discriminate H.
Qed.

End ScriptProbe.

Lemma scan_findings_well_placed_witness :
  exists res,
    observe (complete_scan getInstalledTools _runToolScan equipped_world) = Some res /\
    Forall (fun f => Finding.flagged f = None) (findings res).
Proof.
  destruct (scan_findings_well_placed getInstalledTools equipped_world eq_refl
              equipped_world_installed equipped_world_active) as (res & Hobs & _ & Hf).
  exists res. auto.
Defined.

Lemma scan_threat_report_witness :
  exists res,
    observe (complete_scan getInstalledTools _runToolScan equipped_world) = Some res /\
    low res = 0.
Proof.
  destruct (scan_threat_report getInstalledTools equipped_world eq_refl
              equipped_world_installed equipped_world_active)
    as (res & Hobs & _ & _ & Hl & _).
  exists res. auto.
Defined.

(** ** The timetable of a scan *)

Lemma ascending_weaken (from from' bound bound' : Z) (q : list Timer) :
  (from' <= from)%Z -> (bound <= bound')%Z ->
  ascending from bound q -> ascending from' bound' q.
Proof.
  revert from from'. induction q as [|t q IH]; intros from from' Hf Hb; cbn.
  - lia.
  - intros [H1 H2]. split; [lia|]. eapply IH; [| |exact H2]; lia.
Qed.

Lemma ascending_app (from mid bound : Z) (q1 q2 : list Timer) :
  ascending from mid q1 -> ascending mid bound q2 -> ascending from bound (q1 ++ q2).
Proof.
  revert from. induction q1 as [|t q1 IH]; intros from; cbn.
  - intros H1 H2. eapply ascending_weaken; [| |exact H2]; lia.
  - intros [H1 H2] H3. split; [exact H1|]. apply IH; assumption.
Qed.

Lemma ascending_bound (from bound : Z) (q : list Timer) :
  ascending from bound q -> (from <= bound)%Z.
Proof.
  revert from. induction q as [|u q IH]; intros f; cbn; [auto|].
  intros [H1 H2]. specialize (IH _ H2). lia.
Qed.

Lemma ascending_late (from bound : Z) (q : list Timer) :
  ascending from bound q -> late_enough bound q.
Proof.
  revert from. induction q as [|t q IH]; intros from; cbn; [constructor|].
  intros [H1 H2]. constructor; [|eapply IH; exact H2].
  apply ascending_bound in H2. lia.
Qed.

Lemma probe_timers_ascending (r : nat) (ph : string) (tools : list ToolView) (at_ : Z) :
  ascending at_ (at_ + 550 * Z.of_nat (length tools)) (probe_timers r ph tools at_).
Proof.
  revert at_. induction tools as [|t tools IH]; intros at_; cbn [probe_timers ascending length].
  - lia.
  - split; [cbn; lia|]. cbn [due].
    eapply ascending_weaken; [| |apply IH]; lia.
Qed.

Lemma phase_timers_ascending (r : nat) (phases : list (string * list ToolView)) (at_ : Z) :
  ascending at_ (at_ + scan_span phases) (phase_timers r phases at_).
Proof.
  revert at_. induction phases as [|[ph tools] phases IH]; intros at_;
    cbn [phase_timers ascending scan_span].
  - lia.
  - split; [cbn; lia|]. cbn [due].
    eapply ascending_app.
    + eapply ascending_weaken; [| |apply probe_timers_ascending]; [lia|].
      apply Z.le_refl.
    + eapply ascending_weaken; [| |apply IH]; lia.
Qed.

Lemma probe_timers_tasks (r : nat) (ph : string) (tools : list ToolView) (at_ : Z) :
  map task (probe_timers r ph tools at_) = map (fun t => TScanProbe r t ph) tools.
Proof.
  revert at_. induction tools as [|t tools IH]; intros at_; [reflexivity|].
  cbn. rewrite IH. reflexivity.
Qed.

Lemma phase_timers_tasks (r : nat) (phases : list (string * list ToolView)) (at_ : Z) :
  map task (phase_timers r phases at_) = scan_units r phases.
Proof.
  revert at_. induction phases as [|[ph tools] phases IH]; intros at_; [reflexivity|].
  cbn [phase_timers scan_units flat_map map fst snd].
  rewrite map_app, probe_timers_tasks, IH. reflexivity.
Qed.

Lemma with_timers_twice (q : list Timer) (f : list Timer -> list Timer) (w : World) :
  with_timers (fun _ => q) (with_timers f w) = with_timers (fun _ => q) w.
Proof. reflexivity. Qed.

Lemma schedule_probes_exact (r : nat) (ph : string) (tools : list ToolView) :
  forall (d : Z) (w : World),
    late_enough (clock w + d) (timers w) ->
    Engine.schedule_probes r ph tools d w
    = ((d + 550 * Z.of_nat (length tools))%Z,
       with_timers (fun _ => timers w ++ probe_timers r ph tools (clock w + d)) w).
Proof.
  induction tools as [|tool tools IH]; intros d w Hq.
  - cbn. rewrite app_nil_r, with_timers_id. f_equal. lia.
  - cbn [Engine.schedule_probes]. unfold mbind, M_bind, setTimeout, modify.
    set (w1 := with_timers _ w).
    assert (Hw1 : timers w1 = timers w ++ [{| due := clock w + d; task := TScanProbe r tool ph |}]).
    { subst w1. cbn. apply enqueue_last. exact Hq. }
    assert (Hc1 : clock w1 = clock w) by reflexivity.
    rewrite IH.
    + rewrite Hw1, Hc1. subst w1. rewrite with_timers_twice, <- app_assoc.
      replace (clock w + (d + 550))%Z with (clock w + d + 550)%Z by lia.
      f_equal. cbn [length]. lia.
    + rewrite Hw1, Hc1.
      apply Forall_app. split.
      * eapply late_enough_weaken; [|exact Hq]. lia.
      * repeat constructor. cbn. lia.
Qed.

Lemma schedule_phases_exact (r : nat) (phases : list (string * list ToolView)) :
  forall (d : Z) (w : World),
    late_enough (clock w + d) (timers w) ->
    Engine.schedule_phases r phases d w
    = ((d + scan_span phases)%Z,
       with_timers (fun _ => timers w ++ phase_timers r phases (clock w + d)) w).
Proof.
  induction phases as [|[ph tools] phases IH]; intros d w Hq.
  - cbn. rewrite app_nil_r, with_timers_id. f_equal. lia.
  - cbn [Engine.schedule_phases]. unfold mbind at 1, M_bind at 1, setTimeout, modify.
    set (w1 := with_timers _ w).
    assert (Hw1 : timers w1 = timers w ++ [{| due := clock w + d; task := TSection ph |}]).
    { subst w1. cbn. apply enqueue_last. exact Hq. }
    assert (Hc1 : clock w1 = clock w) by reflexivity.
    unfold mbind, M_bind.
    rewrite schedule_probes_exact.
    2:{ rewrite Hw1, Hc1. apply Forall_app. split.
        - eapply late_enough_weaken; [|exact Hq]. lia.
        - repeat constructor. cbn. lia. }
    set (w2 := with_timers _ w1).
    assert (Hw2 : timers w2 = timers w ++ {| due := clock w + d; task := TSection ph |}
                               :: probe_timers r ph tools (clock w + d + 300)).
    { subst w2. change (timers (with_timers ?f ?x)) with (f (timers x)). cbv beta.
      rewrite Hw1, Hc1, <- app_assoc.
      replace (clock w + (d + 300))%Z with (clock w + d + 300)%Z by lia. reflexivity. }
    assert (Hc2 : clock w2 = clock w) by reflexivity.
    rewrite IH.
    + rewrite Hw2, Hc2. subst w2 w1. rewrite !with_timers_twice, <- app_assoc.
      cbn [phase_timers app].
      replace (clock w + (d + 300 + 550 * Z.of_nat (length tools) + 200))%Z
        with (clock w + d + 300 + 550 * Z.of_nat (length tools) + 200)%Z by lia.
      f_equal. cbn [scan_span]. lia.
    + rewrite Hw2, Hc2. apply Forall_app. split.
      * eapply late_enough_weaken; [|exact Hq]. lia.
      * constructor; [cbn; lia|].
        eapply late_enough_weaken; [|apply (ascending_late (clock w + d + 300)),
                                      probe_timers_ascending]. lia.
Qed.

Lemma ascending_from (from bound : Z) (q : list Timer) (j : nat) (b : Timer) :
  ascending from bound q -> q !! j = Some b -> (from <= due b)%Z.
Proof.
  revert from j. induction q as [|t q IH]; intros from j; cbn; [discriminate|].
  intros [H1 H2]. destruct j as [|j]; cbn.
  - intros [= <-]. exact H1.
  - intros Hb. specialize (IH _ _ H2 Hb). lia.
Qed.

Lemma ascending_sorted (from bound : Z) (q : list Timer) (i j : nat) (a b : Timer) :
  ascending from bound q ->
  i < j -> q !! i = Some a -> q !! j = Some b -> (due a < due b)%Z.
Proof.
  revert from i j. induction q as [|t q IH]; intros from i j; cbn; [discriminate|].
  intros [H1 H2] Hij. destruct j as [|j]; [lia|]. destruct i as [|i]; cbn.
  - intros [= <-] Hb. pose proof (ascending_from _ _ _ _ _ H2 Hb). lia.
  - intros Ha Hb. apply (IH _ i j H2); [lia|assumption|assumption].
Qed.

Lemma scan_span_closed (phases : list (string * list ToolView)) :
  scan_span phases
  = (500 * Z.of_nat (length phases)
     + 550 * Z.of_nat (length (flat_map (fun pt : string * list ToolView => pt.2) phases)))%Z.
Proof.
  induction phases as [|[ph tools] phases IH]; [reflexivity|].
  cbn [scan_span length flat_map snd]. rewrite length_app, IH. lia.
Qed.

(** ** The toasts of a scan and of a defence run *)

Lemma pair_eq_fst {A B} (a : A) (b : B) (p : A * B) : (a, b) = p -> a = p.1.
Proof. intros <-. reflexivity. Qed.

Lemma pair_eq_snd {A B} (a : A) (b : B) (p : A * B) : (a, b) = p -> b = p.2.
Proof. intros <-. reflexivity. Qed.

Lemma toast_view_eq (w w' : World) :
  toast_view w' = toast_view w ->
  notifications w' = notifications w /\ toast_timers w' = toast_timers w /\
  clock w' = clock w /\ localStorage w' = localStorage w.
Proof. unfold toast_view. intros [= -> -> -> ->]. auto. Qed.

Lemma post_toast (msg : string) (w wl : World) (Q : unit -> World -> Prop) :
  toast_view wl = toast_view w ->
  (forall w', (notifications w', toast_timers w') = after_toasts [msg] w ->
              clock w' = clock w -> localStorage w' = localStorage w -> Q tt w') ->
  post (showNotification msg) wl Q.
Proof.
  intros E HQ. apply toast_view_eq in E as (En & Et & Ec & El).
  unfold post, showNotification, modify. cbn [fst snd]. apply HQ.
  - unfold after_toasts, item_is. rewrite El.
    destruct (bool_decide _); cbn; rewrite ?En, ?Et, ?Ec; reflexivity.
  - destruct (item_is _ _ wl); cbn; exact Ec.
  - destruct (item_is _ _ wl); cbn; exact El.
Qed.

Lemma keeps_schedule_probes {B} (proj : World -> B) r ph tools d :
  (forall f w, proj (with_timers f w) = proj w) ->
  keeps proj (Engine.schedule_probes r ph tools d).
Proof.
  intros H. revert d. induction tools as [|t tools IH]; intros d;
    cbn [Engine.schedule_probes].
  - apply keeps_ret.
  - apply keeps_bind; [apply keeps_setTimeout, H|intros _; apply IH].
Qed.

Lemma keeps_schedule_phases {B} (proj : World -> B) r phases d :
  (forall f w, proj (with_timers f w) = proj w) ->
  keeps proj (Engine.schedule_phases r phases d).
Proof.
  intros H. revert d. induction phases as [|[ph tools] phases IH]; intros d;
    cbn [Engine.schedule_phases].
  - apply keeps_ret.
  - apply keeps_bind; [apply keeps_setTimeout, H|intros _].
    apply keeps_bind; [apply keeps_schedule_probes, H|intros ?; apply IH].
Qed.

Lemma keeps_schedule_defenders {B} (proj : World -> B) run ph tools step d :
  (forall f w, proj (with_timers f w) = proj w) ->
  keeps proj (Engine.schedule_defenders run ph tools step d).
Proof.
  intros H. revert d. induction tools as [|t tools IH]; intros d;
    cbn [Engine.schedule_defenders].
  - apply keeps_ret.
  - apply keeps_bind; [apply keeps_setTimeout, H|intros _; apply IH].
Qed.

Lemma keeps_schedule_defense_phase {B} (proj : World -> B) run ph title tools trig step d :
  (forall f w, proj (with_timers f w) = proj w) ->
  keeps proj (Engine.schedule_defense_phase run ph title tools trig step d).
Proof.
  intros H. unfold Engine.schedule_defense_phase. destruct (_ && _).
  - apply keeps_bind; [apply keeps_setTimeout, H|intros _].
    apply keeps_bind; [apply keeps_schedule_defenders, H|intros ?; apply keeps_ret].
  - apply keeps_ret.
Qed.

Ltac toast_frame :=
  repeat first
    [ apply keeps_schedule_phases; intros ? ?; reflexivity
    | apply keeps_schedule_defense_phase; intros ? ?; reflexivity
    | frame_step ].

Lemma post_toast_skip {A} (m : M A) (w wl : World) (Q : A -> World -> Prop) :
  keeps toast_view m ->
  toast_view wl = toast_view w ->
  (forall a w', toast_view w' = toast_view w -> Q a w') ->
  post m wl Q.
Proof. intros Hk E HQ. apply HQ. rewrite <- E. apply Hk. Qed.

Ltac toast_skip w :=
  first [ apply post_bind | idtac ];
  apply (post_toast_skip _ w); [solve [toast_frame] | assumption | intros ? ? ?].

Section Toasts.
Variable reader : gmap string LSVal -> InstalledObj.

Lemma scan_toast (w : World) :
  reader (localStorage w) <> ∅ ->
  active_phases reader w <> [] ->
  let w1 := exec (Engine.performComprehensiveScan reader) w in
  (notifications w1, toast_timers w1)
  = after_toasts ["Security scan started — results streaming to Activity Monitor..."] w.
Proof.
  intros Hinst Hact w1. subst w1.
  unfold exec, Engine.performComprehensiveScan. cbv beta zeta.
  rewrite (bool_decide_eq_false_2 (size (reader (localStorage w)) = 0))
    by (rewrite map_size_empty_iff; exact Hinst).
  cbv iota. fold (active_phases reader w).
  rewrite (bool_decide_eq_false_2 (length (active_phases reader w) = 0))
    by (intros E; apply Hact, nil_length_inv; exact E).
  cbv iota.
  match goal with |- context [snd (?m w)] => set (body := m) end.
  apply (post_exec body w (fun w1 =>
    (notifications w1, toast_timers w1)
    = after_toasts ["Security scan started — results streaming to Activity Monitor..."] w)).
  subst body.
  apply post_bind. unfold post at 1. cbn [Engine.new_results fst snd].
  set (w2 := with_scans _ w).
  assert (E2 : toast_view w2 = toast_view w) by reflexivity.
  clearbody w2.
  repeat toast_skip w.
  apply post_bind. eapply post_toast; [eassumption|].
  intros wt Hwt _ _.
  assert (Et : toast_view wt = toast_view wt) by reflexivity.
  repeat toast_skip wt.
  match goal with H : toast_view ?wf = toast_view wt |- (notifications ?wf, _) = _ =>
    apply toast_view_eq in H as (-> & -> & _) end.
  exact Hwt.
Qed.

Lemma defense_toast (w : World) :
  reader (localStorage w) <> ∅ ->
  let w1 := exec (Engine.activateSmartDefense reader) w in
  (notifications w1, toast_timers w1)
  = after_toasts ["Smart Defense activated — watch the Activity Monitor..."] w.
Proof.
  intros Hinst w1. subst w1.
  unfold exec, Engine.activateSmartDefense. cbv beta zeta.
  rewrite (bool_decide_eq_false_2 (size (reader (localStorage w)) = 0))
    by (rewrite map_size_empty_iff; exact Hinst).
  cbv iota.
  match goal with |- context [snd (?m w)] => set (body := m) end.
  apply (post_exec body w (fun w1 =>
    (notifications w1, toast_timers w1)
    = after_toasts ["Smart Defense activated — watch the Activity Monitor..."] w)).
  subst body.
  assert (E0 : toast_view w = toast_view w) by reflexivity.
  repeat toast_skip w.
  apply post_bind. eapply post_toast; [eassumption|].
  intros wt Hwt _ _.
  assert (Et : toast_view wt = toast_view wt) by reflexivity.
  toast_skip wt.
  apply post_bind. unfold post at 1. cbn [Engine.new_defense fst snd].
  match goal with |- post _ (with_defenses ?f ?x) _ => set (wd := with_defenses f x) end.
  assert (Ed : toast_view wd = toast_view wt).
  { match goal with H : toast_view ?x = toast_view wt |- _ => rewrite <- H end.
    reflexivity. }
  clearbody wd.
  repeat toast_skip wt.
  match goal with H : toast_view ?wf = toast_view wt |- (notifications ?wf, _) = _ =>
    apply toast_view_eq in H as (-> & -> & _) end.
  exact Hwt.
Qed.

End Toasts.

Section ScanTimetable.
Variable reader : gmap string LSVal -> InstalledObj.

(** X4.  The timers a scan sets, when it is started while no callback of
    the engine is pending and the ['notifications'] setting is as the page
    saved it.  The scan's own callbacks: the first phase header is due 400
    ms after the call, the probes of a phase follow its header by 300 ms
    and each other by 550 ms, the next header comes 200 ms after the slot
    of the last probe, and the summary is due 800 ms plus 500 ms per phase
    plus 550 ms per probe after the call; their due times increase
    strictly, so they fire in the order they were set.  Beside them the
    call sets one more timer, due 4000 ms after the call: that of the
    toast 'Security scan started', which is shown unless the notifications
    are switched off. *)
Theorem scan_timetable (w : World) :
  idle w ->
  setting_saved w ->
  reader (localStorage w) <> ∅ ->
  active_phases reader w <> [] ->
  let w1 := exec (Engine.performComprehensiveScan reader) w in
  let r := length (scans w) in
  let phases := active_phases reader w in
  let finish :=
    (clock w + 800 + 500 * Z.of_nat (length phases)
     + 550 * Z.of_nat (length (scan_plan reader w)))%Z in
  timers w1 = phase_timers r phases (clock w + 400)
              ++ [{| due := finish; task := TScanSummary r |}] /\
  (forall i j a b, i < j -> timers w1 !! i = Some a -> timers w1 !! j = Some b ->
                   (due a < due b)%Z) /\
  (notifications w1, toast_timers w1)
  = after_toasts ["Security scan started — results streaming to Activity Monitor..."] w.
Proof.
  intros Hidle _ Hinst Hact w1 r phases finish.
  assert (Hspan : finish = (clock w + 400 + scan_span phases + 400)%Z).
  { subst finish. rewrite scan_span_closed.
    assert (length (flat_map (fun pt : string * list ToolView => pt.2) phases)
            = length (scan_plan reader w)); [|lia].
    rewrite <- (plan_of_active_phases reader r w), probes_of_scan_units. fold phases.
    clear. induction phases as [|[ph tools] l IH]; [reflexivity|].
    cbn [flat_map fst snd]. rewrite !length_app, length_map, IH. reflexivity. }
  assert (Htimers : timers w1 = phase_timers r phases (clock w + 400)
                                ++ [{| due := finish; task := TScanSummary r |}]).
  { subst w1. unfold exec, Engine.performComprehensiveScan. cbv beta zeta.
    rewrite (bool_decide_eq_false_2 (size (reader (localStorage w)) = 0))
      by (rewrite map_size_empty_iff; exact Hinst).
    cbv iota. fold (active_phases reader w). fold phases.
    rewrite (bool_decide_eq_false_2 (length phases = 0))
      by (intros E; apply Hact, nil_length_inv; exact E).
    cbv iota.
    match goal with |- context [snd (?m w)] => set (body := m) end.
    apply (post_exec body w (fun w1 =>
      timers w1 = phase_timers r phases (clock w + 400)
                  ++ [{| due := finish; task := TScanSummary r |}])).
    subst body.
    apply post_bind. unfold post at 1. cbn [Engine.new_results fst snd].
    mstep. mstep.
    set (w2 := with_KjerLastScanResults _ _).
    assert (E2 : timers w2 = [] /\ clock w2 = clock w).
    { subst w2. cbn. rewrite Hidle. auto. }
    clearbody w2.
    mskip. mskip. mstep. mstep. mskip. mstep. mstep. mskip. mskip. mskip. mskip.
    match goal with |- post _ ?wl _ =>
      assert (E : timers wl = [] /\ clock wl = clock w);
      [|generalize dependent wl] end.
    { repeat match goal with H : essence _ = essence _ |- _ =>
               apply essence_eq in H; destruct H as (_ & _ & _ & _ & ? & ? & _ & _) end.
      destruct E2. split; congruence. }
    intros wl _ [Etm Ecl].
    apply post_bind. unfold post at 1.
    rewrite schedule_phases_exact by (rewrite Etm; constructor).
    cbn [fst snd]. mstep.
    cbn [timers with_timers clock]. rewrite Etm, Ecl. cbn [app].
    rewrite enqueue_last.
    - f_equal. f_equal. f_equal. subst r. lia.
    - cbn [due]. eapply late_enough_weaken;
        [|apply (ascending_late (clock w + 400)), phase_timers_ascending]. lia. }
  split; [exact Htimers|]. split; [|exact (scan_toast reader w Hinst Hact)].
  rewrite Htimers. intros i j a b.
  apply (ascending_sorted (clock w + 400) (finish + 1)).
  eapply ascending_app; [apply phase_timers_ascending|].
  clearbody finish. clearbody phases. cbn [ascending due]. lia.
Qed.

End ScanTimetable.

Lemma scan_timetable_witness :
  due <$> last (timers (exec performComprehensiveScan equipped_world)) = Some 16400%Z /\
  toast_due <$> toast_timers (exec performComprehensiveScan equipped_world) = [4000%Z].
Proof.
  unfold performComprehensiveScan.
  destruct (scan_timetable getInstalledTools equipped_world eq_refl
              (or_introl eq_refl) equipped_world_installed equipped_world_active)
    as (Htimers & _ & Htoast).
  rewrite Htimers, last_snoc, (pair_eq_snd _ _ _ Htoast).
  split; vm_compute; reflexivity.
Defined.

(** ** The defence phases, one by one *)

Lemma defense_units_by_phase (reader : gmap string LSVal -> InstalledObj) (run : nat)
    (w : World) :
  defense_units reader run w
  = flat_map (fun ph => phase_units run ph (phase_title ph) (phase_tools reader ph w)
                          (phase_trigger (defense_entry w) (findings_used w) ph))
             defense_phases.
Proof.
  unfold defense_units, defense_phases. cbn [flat_map]. rewrite app_nil_r. reflexivity.
Qed.

Lemma phase_units_member (run : nat) (ph ph' : DefPhase) (title : string)
    (tools : list ToolView) (triggered : bool) (tool : ToolView) :
  TDefend run ph tool ∈ phase_units run ph' title tools triggered
  <-> ph = ph' /\ triggered = true /\ tool ∈ tools.
Proof.
  unfold phase_units. split.
  - destruct triggered; rewrite ?andb_false_r;
      [|intros H; apply elem_of_nil in H as []].
    destruct (0 <? length tools)%nat; cbn [andb]; [|intros H; apply elem_of_nil in H as []].
    intros H. apply elem_of_cons in H as [H|H]; [discriminate|].
    apply list_elem_of_In, in_map_iff in H. destruct H as (t & Heq & Hin).
    injection Heq as -> ->. apply list_elem_of_In in Hin. auto.
  - intros (-> & -> & Hin). destruct tools as [|t ts]; [apply elem_of_nil in Hin as []|].
    cbn [length Nat.ltb Nat.leb andb]. right.
    apply list_elem_of_In, in_map, list_elem_of_In, Hin.
Qed.

Section Phases.
Variable reader : gmap string LSVal -> InstalledObj.

(** A phase is engaged exactly when it has a tool and its trigger holds. *)
Lemma phase_engaged (w : World) (ph : DefPhase) :
  idle w ->
  reader (localStorage w) <> ∅ ->
  engages ph (length (defenses w)) (exec (Engine.activateSmartDefense reader) w)
  <-> phase_tools reader ph w <> []
      /\ phase_trigger (defense_entry w) (findings_used w) ph = true.
Proof.
  intros Hidle Hinst.
  destruct (defense_starts reader w Hinst) as (_ & (q & Hq & Hm) & _).
  { rewrite Hidle. constructor. }
  rewrite Hidle in Hq. cbn [app] in Hq.
  unfold engages. rewrite Hq, Hm, defense_units_by_phase.
  split.
  - intros [tool H]. apply elem_of_app in H as [H|H];
      [|apply list_elem_of_singleton in H; discriminate].
    apply list_elem_of_In, in_flat_map in H. destruct H as (ph' & _ & H).
    apply list_elem_of_In, phase_units_member in H as (-> & Ht & Hin).
    split; [|exact Ht]. intros E. rewrite E in Hin. apply elem_of_nil in Hin as [].
  - intros [Hne Ht]. destruct (phase_tools reader ph w) as [|t ts] eqn:Et; [contradiction|].
    exists t. apply elem_of_app. left.
    apply list_elem_of_In, in_flat_map. exists ph. split.
    + destruct ph; cbn; tauto.
    + apply list_elem_of_In, phase_units_member. rewrite Et. repeat split; [exact Ht|left].
Qed.

End Phases.

(** ** Each tool is engaged once *)

Lemma defender_names_NoDup : NoDup defender_names.
Proof. apply (bool_decide_unpack _). vm_compute. exact I. Qed.

Lemma filter_all {A} (l : list A) : filter (fun _ : A => true) l = l.
Proof.
  induction l as [|x l IH]; [reflexivity|].
  rewrite filter_cons, decide_True by exact I. rewrite IH. reflexivity.
Qed.

Lemma kept_names_sublist (p : string -> bool) (wanted : list string)
    (inst : string * Tool -> Prop) `{!forall kt, Decision (inst kt)}
    (db : list (string * Tool)) :
  sublist
    (map (fun t => name (entry t))
       (filter (fun t : ToolView => p (key t))
          (map (fun kt : string * Tool => {| key := kt.1; entry := kt.2 |})
             (filter (fun kt : string * Tool => kt.1 ∈ wanted) (filter inst db)))))
    (map (fun kt : string * Tool => name kt.2)
       (filter (fun kt : string * Tool => kt.1 ∈ wanted /\ p kt.1 = true) db)).
Proof.
  induction db as [|[k e] db IH]; [constructor|].
  rewrite (filter_cons inst).
  rewrite (filter_cons (fun kt : string * Tool => kt.1 ∈ wanted /\ p kt.1 = true)).
  destruct (decide (inst (k, e))) as [Hi|Hi].
  - rewrite (filter_cons (fun kt : string * Tool => kt.1 ∈ wanted)).
    destruct (decide ((k, e).1 ∈ wanted)) as [Hw|Hw].
    + cbn [map]. rewrite filter_cons. cbn [key entry fst snd] in *.
      destruct (p k) eqn:Ep.
      * rewrite decide_True by exact I.
        rewrite decide_True by (split; [exact Hw|reflexivity]).
        cbn [map snd]. constructor. exact IH.
      * rewrite decide_False by (intros []).
        rewrite decide_False by (intros [_ Hx]; discriminate Hx).
        exact IH.
    + rewrite decide_False by (intros [Hx _]; contradiction). exact IH.
  - destruct (decide _); [constructor|]; exact IH.
Qed.

Section EngagedOnce.
Variable reader : gmap string LSVal -> InstalledObj.

Lemma phase_tools_pool (ph : DefPhase) (w : World) :
  sublist (map (fun t => name (entry t)) (phase_tools reader ph w)) (phase_pool ph).
Proof.
  unfold phase_pool.
  destruct ph; cbn [phase_tools phase_roles phase_keeps];
    unfold Engine.networkDefenders, Engine.avTools, Engine.macTools, Engine.integrityTools,
      Engine.complianceDefenders, Engine.siemTools, Engine.getToolsByRole; cbv zeta.
  - apply kept_names_sublist.
  - match goal with |- sublist (map _ ?l) _ => rewrite <- (filter_all l) end. apply (kept_names_sublist (fun _ => true)).
  - apply kept_names_sublist.
  - match goal with |- sublist (map _ ?l) _ => rewrite <- (filter_all l) end. apply (kept_names_sublist (fun _ => true)).
  - apply kept_names_sublist.
  - match goal with |- sublist (map _ ?l) _ => rewrite <- (filter_all l) end. apply (kept_names_sublist (fun _ => true)).
Qed.

Lemma names_of_phase_units (run : nat) (ph : DefPhase) (title : string)
    (tools : list ToolView) (triggered : bool) :
  sublist (names_of (phase_units run ph title tools triggered))
          (map (fun t => name (entry t)) tools).
Proof.
  unfold phase_units. destruct (_ && _); [|apply sublist_nil_l].
  change (names_of (TSection title :: map (TDefend run ph) tools))
    with (names_of (map (TDefend run ph) tools)).
  replace (names_of (map (TDefend run ph) tools)) with (map (fun t => name (entry t)) tools);
    [reflexivity|].
  induction tools as [|t tools IH]; [reflexivity|].
  cbn [map]. rewrite IH. reflexivity.
Qed.

Lemma names_of_defense_units (run : nat) (w : World) :
  NoDup (names_of (defense_units reader run w)).
Proof.
  eapply sublist_NoDup; [apply defender_names_NoDup|].
  rewrite defense_units_by_phase. unfold defender_names.
  induction defense_phases as [|ph l IH]; [constructor|].
  cbn [flat_map]. unfold names_of in *. rewrite omap_app.
  apply sublist_app; [|exact IH].
  etransitivity; [apply names_of_phase_units|apply phase_tools_pool].
Qed.

End EngagedOnce.

Lemma after_units_engaged (units : list Task) (d : DefenseRun) :
  toolsEngaged (after_units units d) ≡ list_to_set (names_of units) ∪ toolsEngaged d.
Proof.
  unfold after_units. revert d. induction units as [|t units IH]; intros d.
  - apply set_equiv. intros x. cbn. rewrite elem_of_union, elem_of_empty. tauto.
  - cbn [foldl]. rewrite IH. destruct t; cbn; try reflexivity.
    apply set_equiv. intros x. rewrite !elem_of_union. tauto.
Qed.

Lemma actions_taken_names (units : list Task) :
  actions_taken units = length (names_of units).
Proof.
  induction units as [|t units IH]; [reflexivity|].
  cbn [actions_taken]. rewrite IH. destruct t; reflexivity.
Qed.

Section DefenseAborts.
Variable reader : gmap string LSVal -> InstalledObj.

(** X5.  A defence started while no tool is installed (the
    ['notifications'] setting being as the page saved it) aborts: it shows
    the toast 'No tools installed. Install defensive tools first.', which
    sets its 4000 ms timer, unless the notifications are switched off; it
    logs the abort; and it does nothing else: no run is set up, none of the
    engine's callbacks is scheduled, the Security Monitor, the scan results
    and [localStorage] are not touched. *)
Theorem defend_without_tools_aborts (w : World) :
  setting_saved w ->
  reader (localStorage w) = ∅ ->
  let w' := exec (Engine.activateSmartDefense reader) w in
  (notifications w', toast_timers w')
  = after_toasts ["No tools installed. Install defensive tools first."] w /\
  defenses w' = defenses w /\
  timers w' = timers w /\
  monitor w' = monitor w /\
  scans w' = scans w /\
  KjerLastScanResults w' = KjerLastScanResults w /\
  localStorage w' = localStorage w /\
  head (activity w') =
    Some {| a_time := clock w; a_level := LWarning;
            a_message := "Defend aborted — no tools installed";
            a_tool := ""; a_important := false |}.
Proof.
  intros _ Hempty w'. subst w'.
  unfold Engine.activateSmartDefense, exec.
  rewrite Hempty, map_size_empty. simpl bool_decide. cbv iota.
  unfold after_toasts, showNotification, logActivity, ActivityLog.add.
  munfold. cbn -[unshift_capped].
  destruct (item_is "notifications" "false" w); cbn -[unshift_capped];
    repeat split; apply (head_unshift_capped 199).
Qed.

End DefenseAborts.

Lemma defend_without_tools_aborts_witness :
  notifications (exec activateSmartDefense fresh_world)
  = ["No tools installed. Install defensive tools first."] /\
  toast_due <$> toast_timers (exec activateSmartDefense fresh_world) = [4000%Z] /\
  timers (exec activateSmartDefense fresh_world) = [].
Proof.
  destruct (defend_without_tools_aborts getInstalledTools fresh_world
              (or_introl eq_refl) eq_refl) as (Htoast & _ & Htimers & _).
  unfold activateSmartDefense.
  rewrite (pair_eq_fst _ _ _ Htoast), (pair_eq_snd _ _ _ Htoast), Htimers.
  repeat split.
Defined.

Section BroadMode.
Variable reader : gmap string LSVal -> InstalledObj.
Variable probe : ToolView -> string -> M (option Finding.t).

Lemma broad_actions (run : nat) (w : World) :
  Engine.has_scan_data w = false ->
  (actions_taken (defense_units reader run w) = 0
   <-> forall ph, phase_tools reader ph w = []).
Proof.
  intros Hsd. rewrite defense_units_by_phase.
  assert (Ht : forall ph, phase_trigger (defense_entry w) (findings_used w) ph = true).
  { intros ph. destruct ph; cbn; rewrite Hsd; reflexivity. }
  assert (G : forall l : list DefPhase,
    actions_taken (flat_map (fun ph => phase_units run ph (phase_title ph)
                     (phase_tools reader ph w)
                     (phase_trigger (defense_entry w) (findings_used w) ph)) l) = 0
    <-> forall ph, ph ∈ l -> phase_tools reader ph w = []).
  { induction l as [|ph l IH]; cbn [flat_map].
    - split; [intros _ ph H; apply elem_of_nil in H as []|reflexivity].
    - rewrite actions_taken_app, Ht. split.
      + intros H ph' Hin. apply elem_of_cons in Hin as [->|Hin].
        * destruct (phase_tools reader ph w) as [|t ts]; [reflexivity|].
          cbn in H. lia.
        * apply IH; [lia|exact Hin].
      + intros H. rewrite (H ph) by left. cbn.
        apply IH. intros ph' Hin. apply H. right. exact Hin. }
  rewrite G. split; [|auto].
  intros H ph. apply H. destruct ph; unfold defense_phases;
    rewrite !elem_of_cons; tauto.
Qed.

(** X6.  Without a complete scan result the defence runs in broad mode: it
    engages every phase that has a tool, whatever was found before; it
    ends with posture HARDENED (preventive), or NO DEFENSIVE TOOLS
    INSTALLED when no phase has a tool. *)
Theorem broad_defense (w : World) :
  idle w ->
  reader (localStorage w) <> ∅ ->
  Engine.has_scan_data w = false ->
  let run := length (defenses w) in
  let w1 := exec (Engine.activateSmartDefense reader) w in
  let wn := complete_defense reader probe w in
  broadMode <$> defenses w1 !! run = Some true /\
  (forall ph, engages ph run w1 <-> phase_tools reader ph w <> []) /\
  exists d,
    defenses wn !! run = Some d /\
    (actionsTotal d = 0 <-> forall ph, phase_tools reader ph w = []) /\
    Engine.posture d wn
    = if bool_decide (actionsTotal d = 0)
      then Engine.NO_DEFENSIVE_TOOLS else Engine.HARDENED_preventive.
Proof.
  intros Hidle Hinst Hsd run w1 wn.
  destruct (defense_run reader probe w Hidle Hinst)
    as (_ & Hentry & Hd & _ & _ & Hsc & _).
  fold run w1 wn in Hentry, Hd, Hsc.
  split; [|split].
  - rewrite Hentry. cbn. rewrite Hsd. reflexivity.
  - intros ph. subst run w1. rewrite (phase_engaged reader w ph Hidle Hinst).
    assert (Ht : phase_trigger (defense_entry w) (findings_used w) ph = true).
    { destruct ph; cbn; rewrite Hsd; reflexivity. }
    rewrite Ht. tauto.
  - set (d := after_units (defense_units reader run w) (defense_entry w)) in *.
    destruct (after_units_context (defense_units reader run w) (defense_entry w))
      as (_ & Hhs & _).
    fold d in Hhs. cbn [defense_entry hasScanData] in Hhs. rewrite Hsd in Hhs.
    exists d. split; [exact Hd|]. split.
    + subst d. rewrite after_units_actions. cbn [defense_entry actionsTotal plus].
      apply broad_actions. exact Hsd.
    + unfold Engine.posture, Engine.findings_of. rewrite Hhs. cbn [length].
      destruct (bool_decide (actionsTotal d = 0)); reflexivity.
Qed.

(** X7.  Every tool a defence run engages is engaged once and takes one
    action, so at the end the number of tools engaged equals the number of
    actions taken. *)
Theorem engaged_equals_actions (w : World) :
  idle w ->
  reader (localStorage w) <> ∅ ->
  let run := length (defenses w) in
  let wn := complete_defense reader probe w in
  exists d,
    defenses wn !! run = Some d /\
    NoDup (names_of (defense_units reader run w)) /\
    toolsEngaged d = list_to_set (names_of (defense_units reader run w)) /\
    actionsTotal d = length (names_of (defense_units reader run w)) /\
    size (toolsEngaged d) = actionsTotal d.
Proof.
  intros Hidle Hinst run wn.
  destruct (defense_run reader probe w Hidle Hinst) as (_ & _ & Hd & _).
  fold run wn in Hd.
  set (units := defense_units reader run w) in *.
  set (d := after_units units (defense_entry w)) in *.
  pose proof (names_of_defense_units reader run w) as Hnd. fold units in Hnd.
  assert (Hte : toolsEngaged d = list_to_set (names_of units)).
  { apply leibniz_equiv. subst d. rewrite after_units_engaged.
    cbn [defense_entry toolsEngaged].
    apply set_equiv. intros x. rewrite elem_of_union, elem_of_empty. tauto. }
  assert (Hat : actionsTotal d = length (names_of units)).
  { subst d. rewrite after_units_actions, actions_taken_names. reflexivity. }
  exists d. split; [exact Hd|]. split; [exact Hnd|]. split; [exact Hte|].
  split; [exact Hat|].
  rewrite Hte, Hat. apply size_list_to_set. exact Hnd.
Qed.

(** X8.  A defence run only reads the scan result it works from: at every
    point of the run the Result Store, the results objects and
    [localStorage] are what they were when it started. *)
Theorem defense_leaves_scan_data (w : World) (k : nat) :
  idle w ->
  reader (localStorage w) <> ∅ ->
  let w1 := exec (Engine.activateSmartDefense reader) w in
  k <= length (timers w1) ->
  scans (Engine.turns probe k w1) = scans w /\
  KjerLastScanResults (Engine.turns probe k w1) = KjerLastScanResults w /\
  observe (Engine.turns probe k w1) = observe w /\
  localStorage (Engine.turns probe k w1) = localStorage w.
Proof.
  intros Hidle Hinst w1 Hk.
  assert (G : scans (Engine.turns probe k w1) = scans w /\
              KjerLastScanResults (Engine.turns probe k w1) = KjerLastScanResults w /\
              localStorage (Engine.turns probe k w1) = localStorage w).
  { destruct (defense_run reader probe w Hidle Hinst)
      as (Hm & Hentry & _ & _ & _ & Hscn & Hstn & Hlsn).
    fold w1 in Hm, Hentry.
    destruct (defense_starts reader w Hinst) as (_ & _ & Hsc & Hst & Hls & _).
    { rewrite Hidle. constructor. }
    fold w1 in Hsc, Hst, Hls.
    destruct (decide (k = length (timers w1))) as [->|Hne].
    { unfold complete_defense in Hscn, Hstn, Hlsn. fold w1 in Hscn, Hstn, Hlsn. auto. }
    assert (Hlen : length (timers w1)
                   = S (length (defense_units reader (length (defenses w)) w))).
    { rewrite <- (length_map task), Hm, length_app. cbn. lia. }
    destruct (defense_units_run probe (length (defenses w)) (take k (timers w1))
                (drop k (timers w1)) w1) as (_ & _ & Hsc' & Hst' & Hls' & _).
    - rewrite take_drop. reflexivity.
    - rewrite <- (firstn_map task), Hm.
      rewrite take_app_le by lia. apply Forall_take, defense_units_act.
    - eauto.
    - rewrite length_take_le in Hsc', Hst', Hls' by lia.
      rewrite Hsc', Hst', Hls'. auto. }
  destruct G as (G1 & G2 & G3). unfold observe. rewrite G1, G2. auto.
Qed.

End BroadMode.

Lemma only_ufw_installed : only_ufw (localStorage fresh_world) <> ∅.
Proof. intros H. apply (f_equal size) in H. vm_compute in H. discriminate H. Qed.

Lemma broad_defense_witness :
  engages NetworkPerimeter 0 (exec (Engine.activateSmartDefense only_ufw) fresh_world).
Proof.
  apply (proj1 (proj2 (broad_defense only_ufw _runToolScan fresh_world eq_refl
                         only_ufw_installed eq_refl))).
  intros H. vm_compute in H. discriminate H.
Defined.

Lemma engaged_equals_actions_witness :
  exists d,
    defenses (complete_defense getInstalledTools _runToolScan infected_world) !! 0 = Some d /\
    size (toolsEngaged d) = actionsTotal d.
Proof.
  destruct (engaged_equals_actions getInstalledTools _runToolScan infected_world eq_refl
              equipped_world_installed) as (d & Hd & _ & _ & _ & Hs).
  exists d. auto.
Defined.

Lemma defense_leaves_scan_data_witness :
  observe (Engine.turns _runToolScan 3 (exec activateSmartDefense infected_world))
  = Some infected_result.
Proof.
  refine (proj1 (proj2 (proj2
    (defense_leaves_scan_data getInstalledTools _runToolScan infected_world 3 eq_refl
       equipped_world_installed _)))).
  vm_compute. lia.
Defined.

Lemma all_installed_active (w : World) :
  getInstalledTools (localStorage w) <> ∅ ->
  getInstalledTools (localStorage w) = all_installed /\
  fst <$> active_phases getInstalledTools w = fst <$> scan_phases /\
  length (scan_plan getInstalledTools w) = 22.
Proof.
  intros Hinst.
  assert (E : getInstalledTools (localStorage w) = all_installed).
  { rewrite getInstalledTools_cases in *. destruct (bool_decide _); [reflexivity|].
    contradiction Hinst; reflexivity. }
  split; [exact E|].
  unfold scan_plan, active_phases, Engine.getToolsByRole. cbv zeta. rewrite E.
  split; vm_compute; reflexivity.
Qed.

Lemma scan_sets_up_results (reader : gmap string LSVal -> InstalledObj) (w : World) :
  reader (localStorage w) <> ∅ ->
  active_phases reader w <> [] ->
  let w1 := exec (Engine.performComprehensiveScan reader) w in
  scans w1 = scans w ++ [init_results w] /\ KjerLastScanResults w1 = None.
Proof.
  intros Hinst Hact w1. subst w1.
  unfold exec, Engine.performComprehensiveScan. cbv beta zeta.
  rewrite (bool_decide_eq_false_2 (size (reader (localStorage w)) = 0))
    by (rewrite map_size_empty_iff; exact Hinst).
  cbv iota. fold (active_phases reader w).
  rewrite (bool_decide_eq_false_2 (length (active_phases reader w) = 0))
    by (intros E; apply Hact, nil_length_inv; exact E).
  cbv iota.
  match goal with |- context [snd (?m w)] => set (body := m) end.
  apply (post_exec body w (fun w1 =>
    scans w1 = scans w ++ [init_results w] /\ KjerLastScanResults w1 = None)).
  subst body.
  apply post_bind. unfold post at 1. cbn [Engine.new_results fst snd].
  mstep. mstep.
  apply (post_keeps (fun w => (scans w, KjerLastScanResults w))).
  { toast_frame. }
  intros _ w' [= -> ->]. split; reflexivity.
Qed.

(** X9.  With the [getInstalledTools] that the script's callers get, a scan
    never takes its second abort, 'no scanner-role tools found among
    installed tools'.  That reader reports either no tool or every tool of
    the catalogue; once it reports any, each of the seven phases has a
    tool (22 probes in all), so the call goes on to start the scan: it
    creates a fresh results object and clears the Result Store. *)
Theorem second_scan_abort_unreachable (w : World) :
  getInstalledTools (localStorage w) <> ∅ ->
  let w' := exec performComprehensiveScan w in
  getInstalledTools (localStorage w) = all_installed /\
  fst <$> active_phases getInstalledTools w = fst <$> scan_phases /\
  length (scan_plan getInstalledTools w) = 22 /\
  scans w' = scans w ++ [init_results w] /\
  KjerLastScanResults w' = None.
Proof.
  intros Hinst w'.
  destruct (all_installed_active w Hinst) as (Hall & Hphases & Hplan).
  repeat split; try assumption;
    apply (scan_sets_up_results getInstalledTools w Hinst);
    intros E; rewrite E in Hphases; discriminate Hphases.
Qed.

Lemma second_scan_abort_unreachable_witness :
  length (active_phases getInstalledTools equipped_world) = 7 /\
  KjerLastScanResults (exec performComprehensiveScan equipped_world) = None.
Proof.
  destruct (second_scan_abort_unreachable equipped_world equipped_world_installed)
    as (_ & Hphases & _ & _ & Hstore).
  split; [|exact Hstore].
  rewrite <- (length_fmap fst), Hphases. reflexivity.
Defined.

(** ** Loading the install state *)

Lemma or_else_nonempty (a : option string) :
  or_else a "" <> "" -> exists s, a = Some s /\ s <> "".
Proof.
  unfold or_else. destruct a as [s|]; [|congruence].
  destruct (decide (s = "")); [congruence|]. eauto.
Qed.

Lemma detectOS_nonempty (w : World) : Engine.detectOS w <> "".
Proof.
  unfold Engine.detectOS.
  repeat match goal with |- context [if ?c then _ else _] => destruct c end; discriminate.
Qed.

Lemma getItem_setItem (k text : string) (w : World) :
  getItem k (exec (setItem k text) w) = Some text.
Proof. unfold getItem. cbn. rewrite lookup_insert_eq. reflexivity. Qed.

Lemma load_flag (w : World) :
  Engine.isInitialized (exec Engine.loadInstallStateIntoApp w)
  = if electronAPI (host w)
    then match install_state_json (disk w) with
         | MainProcess.Holds _ => initialized_flag (disk w)
         | _ => initialized_flag (disk w) || Engine.isInitialized w
         end
    else Engine.isInitialized w.
Proof.
  set (expected := if electronAPI (host w) then _ else _).
  apply (post_exec _ _ (fun w' => Engine.isInitialized w' = expected)).
  unfold Engine.loadInstallStateIntoApp.
  mstep. mstep.
  match goal with |- post (_ ≫= ?k) _ ?Q =>
    assert (Hrest : forall w1, Engine.isInitialized w1 = expected -> post (k tt) w1 Q) end.
  { intros w1 H1. cbv beta.
    apply (post_keeps (fun w => localStorage w !! "kterInitialized")); [frame|].
    intros _ w2 E2. unfold Engine.isInitialized, item_is in *. rewrite E2. exact H1. }
  apply post_bind.
  unfold Engine.getInstallState, MainProcess.read_install_state. subst expected.
  destruct (electronAPI (host w));
    [|cbn [MainProcess.state MainProcess.success]; mstep; apply Hrest; reflexivity].
  destruct (install_state_json (disk w)) as [| |f];
    destruct (initialized_flag (disk w)) eqn:Ef;
    cbn [MainProcess.state MainProcess.success MainProcess.initialized orb];
    try (mstep; apply Hrest; reflexivity);
    (apply post_bind;
     apply (post_keeps (fun w => localStorage w !! "kterInitialized")); [frame|];
     intros _ w1 E1;
     first [ mstep; mstep; mstep; apply Hrest | mstep; apply Hrest ];
     unfold Engine.isInitialized, item_is; cbn; lookup_inserts;
     first [reflexivity | apply bool_decide_eq_false_2; discriminate]).
Qed.

(** X10.  After [loadInstallStateIntoApp] the initialised flag of
    [localStorage] mirrors the flag file of [~/.kjer] whenever the main
    process returns a state: always when [install_state.json] is readable,
    and when it is not, only if the flag file exists.  With the state file
    unreadable and no flag file, or without the bridge, a stale flag in
    [localStorage] stays as it is. *)
Theorem load_restores_initialized (w : World) :
  Engine.isInitialized (exec Engine.loadInstallStateIntoApp w)
  = if electronAPI (host w)
    then match install_state_json (disk w) with
         | MainProcess.Holds _ => initialized_flag (disk w)
         | _ => initialized_flag (disk w) || Engine.isInitialized w
         end
    else Engine.isInitialized w.
Proof. exact (load_flag w). Qed.

Lemma keeps_setItem_licence (k text : string) :
  k <> "kterLicenseKey" -> k <> "kterLicenseType" -> k <> "kterActivated" ->
  keeps licence_view (setItem k text).
Proof.
  intros H1 H2 H3 w. unfold licence_view. cbn.
  rewrite !lookup_insert_ne by assumption. reflexivity.
Qed.

Lemma keeps_removeItem_licence (k : string) :
  k <> "kterLicenseKey" -> k <> "kterLicenseType" -> k <> "kterActivated" ->
  keeps licence_view (removeItem k).
Proof.
  intros H1 H2 H3 w. unfold licence_view. cbn.
  rewrite !lookup_delete_ne by assumption. reflexivity.
Qed.

Ltac licence_frame :=
  repeat first
    [ apply keeps_setItem_licence; discriminate
    | apply keeps_removeItem_licence; discriminate
    | frame_step ].

Ltac skip_licence :=
  apply post_bind; apply (post_keeps licence_view); [licence_frame|intros ? ? ?].

Lemma licence_view_eq (w w' : World) :
  licence_view w' = licence_view w ->
  localStorage w' !! "kterLicenseKey" = localStorage w !! "kterLicenseKey" /\
  localStorage w' !! "kterLicenseType" = localStorage w !! "kterLicenseType" /\
  localStorage w' !! "kterActivated" = localStorage w !! "kterActivated" /\
  host w' = host w /\ disk w' = disk w.
Proof. unfold licence_view. intros [= -> -> -> -> ->]. auto. Qed.

Lemma load_licence (w : World) :
  let w' := exec Engine.loadInstallStateIntoApp w in
  (or_else (getItem "kterLicenseKey" w) "" <> "" ->
   localStorage w' !! "kterLicenseKey" = localStorage w !! "kterLicenseKey" /\
   localStorage w' !! "kterLicenseType" = localStorage w !! "kterLicenseType" /\
   localStorage w' !! "kterActivated" = localStorage w !! "kterActivated") /\
  (forall key type,
     or_else (getItem "kterLicenseKey" w) "" = "" ->
     electronAPI (host w) = true ->
     license_key_json (disk w) = Some (key, type) ->
     key <> "" ->
     localStorage w' !! "kterLicenseKey" = Some (LStr key) /\
     localStorage w' !! "kterActivated" = Some (LStr "true") /\
     (type <> "" -> localStorage w' !! "kterLicenseType" = Some (LStr type))).
Proof.
  intros w'. subst w'.
  assert (Hpre : forall Q : option string -> World -> Prop,
    (forall w5, licence_view w5 = licence_view w ->
       post (hasKey ← get (fun w => bool_decide (or_else (getItem "kterLicenseKey" w) "" ≠ ""));
             (if hasKey : bool then mret tt
              else
                cached ← get (fun w => if electronAPI (host w)
                                       then license_key_json (disk w) else None);
                match cached with
                | Some (key, type) =>
                    if bool_decide (key = "") then mret tt
                    else
                      setItem "kterLicenseKey" key ;;
                      (if bool_decide (type = "") then mret tt
                       else setItem "kterLicenseType" type) ;;
                      setItem "kterActivated" "true" ;;
                      logActivity "License key restored from saved state" LInfo "" false
                | None => mret tt
                end) ;;
             get (getItem "userOS")) w5 Q) ->
    post Engine.loadInstallStateIntoApp w Q).
  { intros Q HQ. unfold Engine.loadInstallStateIntoApp.
    do 6 skip_licence. apply HQ. congruence. }
  split.
  - intros Hkey.
    apply (post_exec _ _ (fun w' =>
      localStorage w' !! "kterLicenseKey" = localStorage w !! "kterLicenseKey" /\
      localStorage w' !! "kterLicenseType" = localStorage w !! "kterLicenseType" /\
      localStorage w' !! "kterActivated" = localStorage w !! "kterActivated")).
    apply Hpre. intros w5 E5. apply licence_view_eq in E5 as (E1 & E2 & E3 & _).
    assert (Eg : getItem "kterLicenseKey" w5 = getItem "kterLicenseKey" w)
      by (unfold getItem; rewrite E1; reflexivity).
    mstep. mstep. cbv beta. rewrite Eg.
    rewrite bool_decide_eq_true_2 by exact Hkey.
    mstep. mstep. mstep. auto.
  - intros key type Hnokey Hapi Hdisk Hne.
    apply (post_exec _ _ (fun w' =>
      localStorage w' !! "kterLicenseKey" = Some (LStr key) /\
      localStorage w' !! "kterActivated" = Some (LStr "true") /\
      (type <> "" -> localStorage w' !! "kterLicenseType" = Some (LStr type)))).
    apply Hpre. intros w5 E5. apply licence_view_eq in E5 as (E1 & E2 & E3 & Eh & Ed).
    assert (Eg : getItem "kterLicenseKey" w5 = getItem "kterLicenseKey" w)
      by (unfold getItem; rewrite E1; reflexivity).
    mstep. mstep. cbv beta. rewrite Eg.
    rewrite bool_decide_eq_false_2 by (intros H; apply H; exact Hnokey).
    mstep. mstep. mstep. cbv beta. rewrite Eh, Ed, Hapi, Hdisk. cbv beta iota.
    rewrite bool_decide_eq_false_2 by exact Hne.
    mstep. mstep. mstep.
    case_bool_decide as Ht.
    + repeat mstep. cbn. lookup_inserts.
      split; [reflexivity|]. split; [reflexivity|]. intros H. contradiction.
    + repeat mstep. cbn. lookup_inserts.
      split; [reflexivity|]. split; [reflexivity|]. intros _. reflexivity.
Qed.

(** X11.  [loadInstallStateIntoApp] never overwrites a licence key held in
    [localStorage]; when none is held and the licence file of [~/.kjer]
    holds a key, it restores the key, its type and the activated mark from
    the file. *)
Theorem load_restores_licence (w : World) :
  let w' := exec Engine.loadInstallStateIntoApp w in
  (or_else (getItem "kterLicenseKey" w) "" <> "" ->
   localStorage w' !! "kterLicenseKey" = localStorage w !! "kterLicenseKey" /\
   localStorage w' !! "kterLicenseType" = localStorage w !! "kterLicenseType" /\
   localStorage w' !! "kterActivated" = localStorage w !! "kterActivated") /\
  (forall key type,
     or_else (getItem "kterLicenseKey" w) "" = "" ->
     electronAPI (host w) = true ->
     license_key_json (disk w) = Some (key, type) ->
     key <> "" ->
     localStorage w' !! "kterLicenseKey" = Some (LStr key) /\
     localStorage w' !! "kterActivated" = Some (LStr "true") /\
     (type <> "" -> localStorage w' !! "kterLicenseType" = Some (LStr type))).
Proof. exact (load_licence w). Qed.

Lemma load_restores_licence_witness :
  localStorage (exec Engine.loadInstallStateIntoApp licensed_disk_world) !! "kterLicenseKey"
    = Some (LStr "KJER-PRO-1234-5678-9ABCD") /\
  localStorage (exec Engine.loadInstallStateIntoApp licensed_disk_world) !! "kterLicenseType"
    = Some (LStr "professional").
Proof.
  destruct (load_restores_licence licensed_disk_world) as [_ H].
  destruct (H "KJER-PRO-1234-5678-9ABCD" "professional") as (Hk & _ & Ht);
    [reflexivity|reflexivity|reflexivity|discriminate|].
  split; [exact Hk|apply Ht; discriminate].
Defined.

(** ** Initialisation *)











(** ** Activation *)

(** X14.  An activation that is turned down changes nothing: when the key is
    not 24 characters long or the backend does not report success, the
    world is left exactly as it was (no licence entry, no file, no timer).
    Without the bridge no activation can succeed, and a well-formed key
    gets the status text "undefined", the [message] property that the
    fallback reply does not have. *)
Theorem activation_rejected_changes_nothing (input : string)
    (reply : option Engine.BackendResult) (w : World) :
  let status := (Engine.activateKjer input reply w).1 in
  let w' := (Engine.activateKjer input reply w).2 in
  (electronAPI (host w) = false ->
   status = Engine.InvalidFormat \/ status = Engine.ActivationFailed "undefined") /\
  (status = Engine.InvalidFormat \/ (exists m, status = Engine.ActivationFailed m) ->
   w' = w).
Proof.
  intros status w'. subst status w'. unfold Engine.activateKjer.
  destruct (bool_decide _ || negb _); [cbn; split; auto|].
  split.
  - intros Hapi. right. unfold Engine.callBackend. rewrite Hapi. reflexivity.
  - destruct (Engine.success (Engine.callBackend reply w)) eqn:Es; [|reflexivity].
    intros Hst. exfalso.
    match goal with Hst : (?m w).1 = _ \/ _ |- _ =>
      assert (P : post m w (fun st _ => st = Engine.ActivationSuccessful \/
                   exists v c, st = Engine.ReinitializationPrompt v c)) end.
    { repeat mstep. unfold Engine.saveLicenseKeyToDisk. repeat mstep.
      destruct (Engine.first_truthy _ _) as [v|]; [|repeat mstep; left; reflexivity].
      match goal with |- post (if ?c then _ else _) _ _ => destruct c end;
        repeat mstep; eauto. }
    unfold post in P. destruct P as [P|(v & c & P)], Hst as [H|[m H]]; congruence.
Qed.

Lemma activation_rejected_changes_nothing_witness :
  let r := Engine.activateKjer "kjer-pro-1234-5678-9abcd"
             (Some {| Engine.success := true; Engine.message := None;
                      Engine.license_version := Some "1.0.0";
                      Engine.version := None |})
             browser_world in
  r.1 = Engine.ActivationFailed "undefined" /\ r.2 = browser_world.
Proof.
  cbv zeta.
  destruct (activation_rejected_changes_nothing "kjer-pro-1234-5678-9abcd"
             (Some {| Engine.success := true; Engine.message := None;
                      Engine.license_version := Some "1.0.0";
                      Engine.version := None |}) browser_world) as [H1 H2].
  specialize (H1 eq_refl).
  assert (E : (Engine.activateKjer "kjer-pro-1234-5678-9abcd"
             (Some {| Engine.success := true; Engine.message := None;
                      Engine.license_version := Some "1.0.0";
                      Engine.version := None |})
             browser_world).1 = Engine.ActivationFailed "undefined").
  { destruct H1 as [H|H]; [|exact H]. vm_compute in H. discriminate H. }
  split; [exact E|]. apply H2. right. eexists. exact E.
Defined.

Lemma length_removelast_cons {A} (e : A) (es : list A) :
  length (removelast (e :: es)) = length es.
Proof.
  revert e. induction es as [|x es IH]; intros e; [reflexivity|].
  change (removelast (e :: x :: es)) with (e :: removelast (x :: es)).
  cbn [length]. rewrite IH. reflexivity.
Qed.

Lemma length_unshift_capped {A} (n : nat) (e : A) (es : list A) :
  0 < n -> length es <= n -> length (unshift_capped n e es) <= n.
Proof.
  intros Hn Hes. unfold unshift_capped.
  destruct (n <? length (e :: es))%nat eqn:E; [|apply Nat.ltb_ge in E; exact E].
  rewrite length_removelast_cons. lia.
Qed.

Lemma stays_ret {A} (P : World -> Prop) (a : A) : stays P (mret a).
Proof. intros w H. exact H. Qed.

Lemma stays_get {A} (P : World -> Prop) (f : World -> A) : stays P (get f).
Proof. intros w H. exact H. Qed.

Lemma stays_bind {A B} (P : World -> Prop) (m : M A) (k : A -> M B) :
  stays P m -> (forall a, stays P (k a)) -> stays P (m ≫= k).
Proof.
  intros Hm Hk w H. unfold mbind, M_bind.
  specialize (Hm w H). destruct (m w) as [a w1]. apply Hk. exact Hm.
Qed.

Lemma stays_if {A} (P : World -> Prop) (c : bool) (m1 m2 : M A) :
  stays P m1 -> stays P m2 -> stays P (if c then m1 else m2).
Proof. destruct c; auto. Qed.

Lemma stays_forEach {A} (P : World -> Prop) (xs : list A) (body : A -> M unit) :
  (forall x, stays P (body x)) -> stays P (forEach xs body).
Proof.
  intros Hb. induction xs as [|x xs IH]; cbn [forEach].
  - apply stays_ret.
  - apply stays_bind; [apply Hb|intros _; exact IH].
Qed.

Lemma stays_switch {A} (P : World -> Prop) (k : string)
    (cases : list (string * M A)) (dflt : M A) :
  Forall (fun c => stays P c.2) cases -> stays P dflt ->
  stays P (switch k cases dflt).
Proof.
  intros Hc Hd. unfold switch.
  induction Hc as [|[k' c] cases Hk _ IH]; cbn [prop]; [exact Hd|].
  destruct (String.eqb k' k); [exact Hk|exact IH].
Qed.

(** ** Invariants of the sinks

    A property [P] of the world that the four sinks respect (the Security
    Monitor, the Activity Log, the toasts) and that reads nothing else of
    the world but, possibly, [localStorage] entries no operation writes, is
    kept by every operation and by every timer callback. *)

Section Invariant.

Variable P : World -> Prop.

Hypothesis P_push : forall tool msg lvl ty, stays P (SecurityMonitor.push tool msg lvl ty).
Hypothesis P_clear : stays P SecurityMonitor.clear.
Hypothesis P_log : forall msg lvl tool imp, stays P (logActivity msg lvl tool imp).
Hypothesis P_toast : forall msg, stays P (showNotification msg).
Hypothesis P_random : forall f w, P w -> P (with_random f w).
Hypothesis P_timers : forall f w, P w -> P (with_timers f w).
Hypothesis P_clock : forall f w, P w -> P (with_clock f w).
Hypothesis P_scans : forall f w, P w -> P (with_scans f w).
Hypothesis P_defenses : forall f w, P w -> P (with_defenses f w).
Hypothesis P_ref : forall f w, P w -> P (with_KjerLastScanResults f w).
Hypothesis P_disk : forall f w, P w -> P (with_disk f w).
Hypothesis P_set : forall k v w,
  k ∈ ["kterInitialized"; "initializationDate"; "userOS"; "installedTools";
       "kterLicenseKey"; "kterLicenseType"; "kterActivated"; "kterVersion"] ->
  P w -> P (with_localStorage (<[k := v]>) w).
Hypothesis P_remove : forall w, P w -> P (with_localStorage (delete "kterInitialized") w).

Lemma stays_Math_random : stays P Math_random.
Proof.
  intros w H. unfold Math_random. destruct (random w); [exact H|]. cbn. apply P_random, H.
Qed.

Lemma stays_setTimeout t d : stays P (setTimeout t d).
Proof. intros w H. apply P_timers, H. Qed.

Lemma stays_setItem k text :
  k ∈ ["kterInitialized"; "initializationDate"; "userOS"; "installedTools";
       "kterLicenseKey"; "kterLicenseType"; "kterActivated"; "kterVersion"] ->
  stays P (setItem k text).
Proof. intros Hk w H. apply P_set; assumption. Qed.

Ltac among := rewrite !elem_of_cons, elem_of_nil; tauto.

Ltac kept_step :=
  first
    [ apply stays_ret
    | apply stays_get
    | apply stays_bind; [|intros ?]
    | apply stays_forEach; intros ?
    | apply P_push
    | apply P_clear
    | apply P_log
    | apply P_toast
    | apply stays_Math_random
    | apply stays_setTimeout
    | apply stays_setItem; among
    | intros ? ?; apply P_remove; assumption
    | intros ? ?; apply P_scans; assumption
    | intros ? ?; apply P_defenses; assumption
    | intros ? ?; apply P_ref; assumption
    | apply stays_if
    | progress unfold logResult, logSection, logDivider, SecurityMonitor.log,
        SecurityMonitor.section, SecurityMonitor.divider, ri, random_score_tenths,
        reading, updateLastUpdateTime
    | match goal with
      | |- stays _ (match ?x with _ => _ end) => destruct x
      end ].

Ltac kept := repeat kept_step.

Lemma scan_cases_stay :
  Forall (fun c : string * M Reading => stays P c.2) scan_cases.
Proof.
  unfold scan_cases.
  repeat (apply Forall_cons_2; [cbn [snd]; kept|]).
  apply Forall_nil_2.
Qed.

Lemma stays_runToolScan (tool : ToolView) (phaseName : string) :
  stays P (_runToolScan tool phaseName).
Proof.
  unfold _runToolScan. apply stays_bind.
  - apply stays_switch; [apply scan_cases_stay|kept].
  - intros [[line level] flagged]. kept.
Qed.

Lemma stays_bridge_write (g : World -> Disk -> Disk) :
  stays P (modify (fun w => if electronAPI (host w) then with_disk (g w) w else w)).
Proof.
  intros w H. cbn. destruct (electronAPI (host w)); [apply P_disk, H|exact H].
Qed.

Lemma stays_initializeKjer : stays P Engine.initializeKjer.
Proof.
  unfold Engine.initializeKjer, Engine.initializeDashboard, Engine.syncPreInstalledTools.
  repeat first [apply stays_bridge_write | kept_step].
Qed.

Lemma stays_schedule_probes r ph tools d :
  stays P (Engine.schedule_probes r ph tools d).
Proof.
  revert d. induction tools as [|t tools IH]; intros d; cbn [Engine.schedule_probes]; kept.
  apply IH.
Qed.

Lemma stays_schedule_phases r phases d :
  stays P (Engine.schedule_phases r phases d).
Proof.
  revert d. induction phases as [|[ph tools] phases IH]; intros d;
    cbn [Engine.schedule_phases]; kept.
  - apply stays_schedule_probes.
  - apply IH.
Qed.

Lemma stays_schedule_defenders run ph tools step d :
  stays P (Engine.schedule_defenders run ph tools step d).
Proof.
  revert d. induction tools as [|t tools IH]; intros d; cbn [Engine.schedule_defenders]; kept.
  apply IH.
Qed.

Lemma stays_schedule_defense_phase run ph title tools triggered step d :
  stays P (Engine.schedule_defense_phase run ph title tools triggered step d).
Proof.
  unfold Engine.schedule_defense_phase. kept. apply stays_schedule_defenders.
Qed.

Lemma stays_activateKjer input reply : stays P (Engine.activateKjer input reply).
Proof.
  intros w. unfold Engine.activateKjer. cbv zeta.
  destruct (bool_decide _ || negb _); [auto|].
  generalize (Engine.callBackend reply w). intros result.
  destruct (Engine.success result); [|auto].
  generalize (or_else (getItem "kterLicenseType" w) "personal"). intros stored.
  revert w.
  match goal with |- forall x, P x -> P (?m x).2 => change (stays P m) end.
  unfold Engine.saveLicenseKeyToDisk.
  repeat first [apply stays_bridge_write | kept_step].
Qed.

Lemma defense_cases_stay run d n :
  Forall (fun c : string * M unit => stays P c.2) (Engine.network_cases run d n) /\
  Forall (fun c : string * M unit => stays P c.2) (Engine.malware_cases run d n) /\
  Forall (fun c : string * M unit => stays P c.2) (Engine.access_cases run d n) /\
  Forall (fun c : string * M unit => stays P c.2) (Engine.audit_cases run d n).
Proof.
  unfold Engine.network_cases, Engine.malware_cases, Engine.access_cases, Engine.audit_cases,
    Engine.act.
  repeat split;
    repeat (apply Forall_cons_2; [cbn [snd]; kept|]); apply Forall_nil_2.
Qed.

Lemma stays_run_task (t : Task) : stays P (Engine.run_task _runToolScan t).
Proof.
  destruct t as [title|r tool ph|r|run ph tool|run| |]; cbn [Engine.run_task].
  - kept.
  - unfold Engine.scan_probe_callback. apply stays_bind; [apply stays_runToolScan|].
    intros f. kept.
  - unfold Engine.scan_summary_callback. kept.
  - unfold Engine.defend_callback. apply stays_bind; [kept|]. intros [d|]; [|kept].
    destruct (defense_cases_stay run d (name (entry tool))) as (H1 & H2 & H3 & H4).
    apply stays_bind; [kept|]. intros _.
    destruct ph; try (apply stays_switch; [assumption|kept]); unfold Engine.act; kept.
  - unfold Engine.defense_summary_callback. kept.
  - apply stays_initializeKjer.
  - kept.
Qed.

Lemma stays_turn (w : World) : P w -> P (turn w).
Proof.
  intros H. unfold turn, Engine.turn. destruct (timers w) as [|t rest]; [exact H|].
  apply stays_run_task. apply P_clock, P_timers, H.
Qed.

Lemma stays_turns (n : nat) (w : World) : P w -> P (turns n w).
Proof.
  revert w. induction n as [|n IH]; intros w H; [exact H|].
  apply IH, stays_turn, H.
Qed.

Variable reader : gmap string LSVal -> InstalledObj.

Lemma stays_performComprehensiveScan :
  stays P (Engine.performComprehensiveScan reader).
Proof.
  intros w. unfold Engine.performComprehensiveScan. cbv zeta.
  destruct (bool_decide (size _ = 0)).
  { revert w. kept. }
  destruct (bool_decide (length _ = 0)).
  { revert w. kept. }
  generalize (filter (fun pt : string * list ToolView => 0 < length pt.2)
      (map (fun pr : string * list string => (pr.1, Engine.getToolsByRole reader pr.2 w))
         scan_phases)).
  intros phases. revert w.
  match goal with |- forall x, P x -> P (?m x).2 => change (stays P m) end.
  apply stays_bind.
  { intros w H. apply P_scans, H. }
  intros r. kept. apply stays_schedule_phases.
Qed.

Lemma stays_activateSmartDefense :
  stays P (Engine.activateSmartDefense reader).
Proof.
  intros w. unfold Engine.activateSmartDefense. cbv zeta.
  destruct (bool_decide (size _ = 0)).
  { revert w. kept. }
  generalize (Engine.networkDefenders reader w) (Engine.avTools reader w)
    (Engine.macTools reader w) (Engine.integrityTools reader w)
    (Engine.complianceDefenders reader w) (Engine.siemTools reader w).
  generalize (Engine.findings_of (KjerLastScanResults w) (Engine.has_scan_data w) w).
  generalize (Engine.has_scan_data w).
  generalize (KjerLastScanResults w ≫= (fun i => scans w !! i)).
  generalize (KjerLastScanResults w).
  intros ref obj sd fs l1 l2 l3 l4 l5 l6. revert w.
  match goal with |- forall x, P x -> P (?m x).2 => change (stays P m) end.
  repeat first [ apply stays_schedule_defense_phase
               | intros ? ?; apply P_defenses; assumption
               | kept_step ].
Qed.

Lemma stays_setToolInstalled toolName isInstalled :
  stays P (Engine.setToolInstalled reader toolName isInstalled).
Proof.
  intros w H. unfold Engine.setToolInstalled. cbn. apply P_set; [among|exact H].
Qed.

Lemma stays_installTool toolName reply :
  stays P (Engine.installTool reader toolName reply).
Proof.
  intros w. unfold Engine.installTool. cbv zeta.
  generalize (Engine.callBackend reply w). intros result.
  destruct (bool_decide _); revert w;
    match goal with |- forall x, P x -> P (?m x).2 => change (stays P m) end;
    repeat first [apply stays_setToolInstalled | kept_step].
Qed.

End Invariant.

(** ** The caps of the two logs *)

Lemma capped_push tool msg lvl ty : stays capped (SecurityMonitor.push tool msg lvl ty).
Proof.
  intros w [Ha Hm]. split; [exact Ha|]. cbn.
  apply length_unshift_capped; [unfold SecurityMonitor.maxEntries; lia|exact Hm].
Qed.

Lemma capped_clear : stays capped SecurityMonitor.clear.
Proof. intros w [Ha Hm]. split; [exact Ha|]. cbn. lia. Qed.

Lemma capped_logActivity msg lvl tool imp : stays capped (logActivity msg lvl tool imp).
Proof.
  intros w [Ha Hm]. split; [|exact Hm]. cbn.
  apply length_unshift_capped; [unfold ActivityLog.maxEntries; lia|exact Ha].
Qed.

Lemma capped_showNotification msg : stays capped (showNotification msg).
Proof.
  intros w H. unfold showNotification, modify. cbn [snd].
  destruct (item_is _ _ w); exact H.
Qed.

Ltac capped_sides :=
  first [ apply capped_push | apply capped_clear | apply capped_logActivity
        | apply capped_showNotification
        | intros; match goal with H : capped _ |- _ => exact H end ].

(** X15.  The Activity Log never grows beyond 200 entries and the Security
    Monitor never beyond 400: from a world within the caps, the scan, the
    defence run, the install toggle, the activation, the initialisation and
    any number of timer callbacks leave both logs within the caps. *)
Theorem logs_stay_capped (reader : gmap string LSVal -> InstalledObj) (w : World) :
  capped w ->
  capped (exec (Engine.performComprehensiveScan reader) w) /\
  capped (exec (Engine.activateSmartDefense reader) w) /\
  (forall toolName reply, capped (exec (Engine.installTool reader toolName reply) w)) /\
  (forall input reply, capped (exec (Engine.activateKjer input reply) w)) /\
  capped (exec Engine.initializeKjer w) /\
  (forall n, capped (turns n w)).
Proof.
  intros H. repeat split; intros.
  all: unfold exec;
    first [ apply (stays_performComprehensiveScan capped)
          | apply (stays_activateSmartDefense capped)
          | apply (stays_installTool capped)
          | apply (stays_activateKjer capped)
          | apply (stays_initializeKjer capped)
          | apply (stays_turns capped) ]; capped_sides.
Qed.

Lemma logs_stay_capped_witness :
  capped (turns 31 (exec performComprehensiveScan equipped_world)).
Proof.
  assert (H0 : capped equipped_world).
  { split; cbn; [unfold ActivityLog.maxEntries|unfold SecurityMonitor.maxEntries]; lia. }
  destruct (logs_stay_capped getInstalledTools equipped_world H0) as (Hs & _).
  destruct (logs_stay_capped getInstalledTools _ Hs) as (_ & _ & _ & _ & _ & Ht).
  apply Ht.
Defined.

(** ** The notifications setting *)

Lemma muted_showNotification ns msg : stays (muted ns) (showNotification msg).
Proof.
  intros w [Hs Hn]. unfold showNotification, modify, item_is. cbn [snd].
  rewrite bool_decide_eq_true_2 by exact Hs. split; assumption.
Qed.

Lemma muted_set ns k v w :
  k ∈ ["kterInitialized"; "initializationDate"; "userOS"; "installedTools";
       "kterLicenseKey"; "kterLicenseType"; "kterActivated"; "kterVersion"] ->
  muted ns w -> muted ns (with_localStorage (<[k := v]>) w).
Proof.
  intros Hk [Hs Hn]. split; [|exact Hn]. cbn.
  rewrite lookup_insert_ne; [exact Hs|].
  intros ->. revert Hk. rewrite !elem_of_cons, elem_of_nil.
  intros H. repeat destruct H as [H|H]; try discriminate H. exact H.
Qed.

Lemma muted_remove ns w :
  muted ns w -> muted ns (with_localStorage (delete "kterInitialized") w).
Proof.
  intros [Hs Hn]. split; [|exact Hn]. cbn.
  rewrite lookup_delete_ne by discriminate. exact Hs.
Qed.

Lemma muted_sink {A} ns (m : M A) :
  keeps (fun w => (localStorage w, notifications w)) m -> stays (muted ns) m.
Proof.
  intros Hk w [Hs Hn]. specialize (Hk w). cbn in Hk. injection Hk as E1 E2.
  unfold muted. rewrite E1, E2. auto.
Qed.

Ltac muted_sides :=
  intros;
  first [ apply muted_showNotification
        | apply muted_sink; intros ?; reflexivity
        | apply muted_set; assumption
        | apply muted_remove; assumption
        | match goal with H : muted _ _ |- _ => exact H end ].

(** X16.  With the ['notifications'] setting switched off (the stored text is
    [false]) nothing shows a toast and nothing switches the setting back
    on: the scan, the defence run, the install toggle, the activation, the
    initialisation and any number of timer callbacks leave the list of
    shown notifications as it was and the setting off. *)
Theorem muted_operations_show_nothing (reader : gmap string LSVal -> InstalledObj)
    (ns : list string) (w : World) :
  muted ns w ->
  muted ns (exec (Engine.performComprehensiveScan reader) w) /\
  muted ns (exec (Engine.activateSmartDefense reader) w) /\
  (forall toolName reply, muted ns (exec (Engine.installTool reader toolName reply) w)) /\
  (forall input reply, muted ns (exec (Engine.activateKjer input reply) w)) /\
  muted ns (exec Engine.initializeKjer w) /\
  (forall n, muted ns (turns n w)).
Proof.
  intros H. repeat split; intros.
  all: unfold exec;
    first [ apply (stays_performComprehensiveScan (muted ns))
          | apply (stays_activateSmartDefense (muted ns))
          | apply (stays_installTool (muted ns))
          | apply (stays_activateKjer (muted ns))
          | apply (stays_initializeKjer (muted ns))
          | apply (stays_turns (muted ns)) ]; muted_sides.
Qed.

Lemma muted_operations_show_nothing_witness :
  notifications (turns 31 (exec performComprehensiveScan quiet_world)) = [].
Proof.
  assert (H0 : muted [] quiet_world) by (split; vm_compute; reflexivity).
  destruct (muted_operations_show_nothing getInstalledTools [] quiet_world H0) as (Hs & _).
  destruct (muted_operations_show_nothing getInstalledTools [] _ Hs)
    as (_ & _ & _ & _ & _ & Ht).
  apply Ht.
Defined.

Lemma clearCache_world (w : World) :
  exec (clearCache true) w
  = exec (logActivity "Cache cleared by user" LInfo "" false)
      (with_toast_timers
         (enqueue_toast {| toast_due := clock w + 4000;
                           toast_task := ToastExit "Cache cleared successfully" |})
         (with_notifications (fun ns => ns ++ ["Cache cleared successfully"])
            (with_localStorage (fun _ => ∅) w))).
Proof.
  unfold clearCache, showNotification, item_is. munfold. cbn [snd fst].
  change (localStorage (with_localStorage (fun _ => ∅) w)) with (∅ : gmap string LSVal).
  rewrite lookup_empty.
  rewrite bool_decide_eq_false_2 by discriminate. reflexivity.
Qed.

Lemma getInstalledTools_empty : getInstalledTools ∅ = ∅.
Proof.
  rewrite getInstalledTools_cases, lookup_empty.
  rewrite bool_decide_eq_false_2 by discriminate. reflexivity.
Qed.

Lemma scan_aborts_on_empty (w : World) :
  localStorage w = ∅ ->
  exec performComprehensiveScan w
  = exec (showNotification "No tools installed. Use the Tool Box to install security tools first." ;;
          logActivity "Scan aborted — no security tools installed" LWarning "" false) w.
Proof.
  intros E. unfold performComprehensiveScan, Engine.performComprehensiveScan, exec.
  rewrite E, getInstalledTools_empty, map_size_empty.
  rewrite bool_decide_eq_true_2 by reflexivity. reflexivity.
Qed.

(** X17.  [clearCache] empties [localStorage] and nothing else.  Its toast is
    shown even when notifications were switched off, for the setting is
    gone by then.  Afterwards the application counts as not initialised
    and no tool as installed, so a scan aborts at once; the files of
    [~/.kjer] are untouched, so with the bridge and the flag file the next
    page load restores the initialised state. *)
Theorem cache_clear_forgets (w : World) :
  let w' := exec (clearCache true) w in
  localStorage w' = ∅ /\
  notifications w' = notifications w ++ ["Cache cleared successfully"] /\
  Engine.isInitialized w' = false /\
  getInstalledTools (localStorage w') = ∅ /\
  (disk w' = disk w /\ timers w' = timers w /\ scans w' = scans w /\
   KjerLastScanResults w' = KjerLastScanResults w) /\
  (timers (exec performComprehensiveScan w') = timers w /\
   a_message <$> head (activity (exec performComprehensiveScan w'))
     = Some "Scan aborted — no security tools installed") /\
  (electronAPI (host w) = true -> initialized_flag (disk w) = true ->
   Engine.isInitialized (exec Engine.loadInstallStateIntoApp w') = true).
Proof.
  intros w'. subst w'. rewrite clearCache_world.
  set (w1 := exec _ _).
  assert (Hls : localStorage w1 = ∅) by reflexivity.
  assert (Hd : disk w1 = disk w) by reflexivity.
  assert (Hh : host w1 = host w) by reflexivity.
  assert (Hinit : Engine.isInitialized w1 = false).
  { unfold Engine.isInitialized, item_is. rewrite Hls, lookup_empty.
    apply bool_decide_eq_false_2. discriminate. }
  split; [exact Hls|]. split; [reflexivity|]. split; [exact Hinit|].
  split; [rewrite Hls; apply getInstalledTools_empty|].
  split; [repeat split|]. split.
  - rewrite (scan_aborts_on_empty w1 Hls). split.
    + transitivity (timers w1); [|reflexivity].
      apply (keeps_exec timers). frame.
    + rewrite exec_bind. cbn [exec logActivity ActivityLog.add modify snd activity with_activity].
      unfold ActivityLog.maxEntries. rewrite head_unshift_capped. reflexivity.
  - intros Hapi Hflag. rewrite load_flag, Hh, Hapi, Hd, Hflag, Hinit.
    destruct (install_state_json (disk w)); reflexivity.
Qed.

Lemma cache_clear_forgets_witness :
  notifications (exec (clearCache true) settled_world)
    = notifications settled_world ++ ["Cache cleared successfully"] /\
  Engine.isInitialized settled_world = true /\
  Engine.isInitialized (exec (clearCache true) settled_world) = false /\
  Engine.isInitialized
    (exec Engine.loadInstallStateIntoApp (exec (clearCache true) settled_world)) = true.
Proof.
  destruct (cache_clear_forgets settled_world) as (_ & Hn & Hi & _ & _ & _ & Hr).
  split; [exact Hn|]. split; [vm_compute; reflexivity|]. split; [exact Hi|].
  apply Hr; reflexivity.
Defined.

(** ** The licence on the disk *)

Lemma licence_type_nonempty (licenseKey : string) (w : World) :
  inferred_type licenseKey w <> "".
Proof.
  unfold inferred_type.
  destruct (JS.includes "ent" _); [discriminate|].
  destruct (JS.includes "pro" _); [discriminate|].
  unfold or_else. destruct (getItem _ w) as [s|]; [|discriminate].
  destruct (decide (s = "")); [discriminate|assumption].
Qed.

(** X18.  An accepted licence survives the loss of [localStorage], as far
    as the host's shell plays along.  For a key typed in ASCII, a
    successful activation hands the key and its type to the shell command
    of [saveLicenseKeyToDisk]; if that command leaves them in the licence
    file as given (it does not for a key with a quote character in it),
    then, when the cache is cleared and the page loads again,
    [loadInstallStateIntoApp] puts the same key, the same type and the
    activated mark back into [localStorage]. *)
Theorem licence_survives_cache_clear (input : string)
    (reply : option Engine.BackendResult) (w : World) :
  let licenseKey := JS.toUpperCase (JS.trim input) in
  let licenseType := inferred_type licenseKey w in
  JS.is_ascii input = true ->
  String.length licenseKey = 24 ->
  Engine.success (Engine.callBackend reply w) = true ->
  license_file_after (host w) (Engine.license_shell w) licenseKey licenseType
                     (license_key_json (disk w))
    = Some (licenseKey, licenseType) ->
  let w1 := (Engine.activateKjer input reply w).2 in
  let w2 := exec (clearCache true) w1 in
  let w3 := exec Engine.loadInstallStateIntoApp w2 in
  localStorage w2 !! "kterLicenseKey" = None /\
  localStorage w3 !! "kterLicenseKey" = Some (LStr licenseKey) /\
  localStorage w3 !! "kterLicenseKey" = localStorage w1 !! "kterLicenseKey" /\
  localStorage w3 !! "kterLicenseType" = localStorage w1 !! "kterLicenseType" /\
  localStorage w3 !! "kterActivated" = localStorage w1 !! "kterActivated".
Proof.
  intros licenseKey licenseType _ Hlen Hok Hshell w1 w2 w3.
  destruct (activation_effect input reply w Hlen Hok)
    as (Hk & Ht & Ha & _ & Hd & Hh & _ & _).
  fold licenseKey in Hk, Ht, Hd. fold licenseType in Ht, Hd. fold w1 in Hk, Ht, Ha, Hd, Hh.
  rewrite Hshell in Hd.
  assert (Hapi : electronAPI (host w) = true).
  { unfold Engine.callBackend in Hok.
    destruct (electronAPI (host w)); [reflexivity|discriminate Hok]. }
  assert (Hkey : licenseKey <> "").
  { intros E. rewrite E in Hlen. discriminate Hlen. }
  assert (E2 : localStorage w2 = ∅ /\ disk w2 = disk w1 /\ host w2 = host w1).
  { subst w2. rewrite clearCache_world. repeat split. }
  destruct E2 as (Hls & Hd2 & Hh2).
  destruct (load_licence w2) as [_ Hload]. fold w3 in Hload.
  assert (Hd3 : license_key_json (disk w2) = Some (licenseKey, licenseType)).
  { rewrite Hd2, Hd. reflexivity. }
  assert (He : or_else (getItem "kterLicenseKey" w2) "" = "").
  { unfold getItem. rewrite Hls, lookup_empty. reflexivity. }
  assert (Hb : electronAPI (host w2) = true).
  { rewrite Hh2, Hh. exact Hapi. }
  destruct (Hload _ _ He Hb Hd3 Hkey) as (Hk3 & Ha3 & Ht3).
  split; [rewrite Hls; apply lookup_empty|].
  split; [exact Hk3|].
  rewrite Hk, Ht, Ha. split; [exact Hk3|]. split; [|exact Ha3].
  apply Ht3, licence_type_nonempty.
Qed.

Lemma licence_survives_cache_clear_witness :
  let w1 := (Engine.activateKjer "kjer-pro-1234-5678-9abcd" (Some accepted_reply)
               fresh_world).2 in
  localStorage (exec Engine.loadInstallStateIntoApp (exec (clearCache true) w1))
    !! "kterLicenseKey" = Some (LStr "KJER-PRO-1234-5678-9ABCD").
Proof.
  cbv zeta.
  apply (licence_survives_cache_clear "kjer-pro-1234-5678-9abcd"
           (Some accepted_reply) fresh_world);
    reflexivity.
Defined.

(** ** The tool box *)

Lemma listed_tools (w : World) (k : string) (t : ListedTool) :
  (k, t) ∈ getToolsForCurrentOS w <->
  (k, listed t) ∈ TOOLS_DATABASE /\
  (if bool_decide (currentOS w ∈ osCompatibility (listed t))
   then isIncompatible t = false
   else isIncompatible t = true /\ length (osCompatibility (listed t)) = 1).
Proof.
  unfold getToolsForCurrentOS. rewrite list_elem_of_omap. split.
  - intros ([k' t'] & Hin & Hsome). cbn [fst snd] in Hsome.
    destruct (bool_decide (currentOS w ∈ osCompatibility t')) eqn:Ec.
    + injection Hsome as <- <-. cbn [listed isIncompatible]. rewrite Ec. auto.
    + destruct (bool_decide (length (osCompatibility t') = 1)) eqn:El; [|discriminate].
      injection Hsome as <- <-. cbn [listed isIncompatible]. rewrite Ec.
      apply bool_decide_eq_true in El. auto.
  - intros [Hin Hc]. exists (k, listed t). split; [exact Hin|]. cbn [fst snd].
    destruct t as [t inc]. cbn [listed isIncompatible] in *.
    destruct (bool_decide (currentOS w ∈ osCompatibility t)).
    + subst inc. reflexivity.
    + destruct Hc as [-> Hl]. rewrite bool_decide_eq_true_2 by exact Hl. reflexivity.
Qed.

Lemma exclusive_tool_listed (w : World) : getToolsForCurrentOS w <> [].
Proof.
  intros E.
  assert (H : ("windows-defender",
               {| listed := mkTool "Windows Defender" "EDR" ["windows"] (mkScore 98 0 0) [];
                  isIncompatible := negb (bool_decide (currentOS w ∈ ["windows"])) |})
              ∈ getToolsForCurrentOS w).
  { apply listed_tools. cbn [listed isIncompatible]. split.
    - apply list_elem_of_here.
    - cbn [osCompatibility mkTool]. destruct (bool_decide _); cbn [negb length]; auto. }
  rewrite E in H. apply elem_of_nil in H. exact H.
Qed.

Lemma card_fields (reader : gmap string LSVal -> InstalledObj) (t : ListedTool)
    (init : bool) (w : World) :
  card_tool (createToolCard reader t init w) = listed t /\
  disabled (createToolCard reader t init w)
    = Engine.isButtonDisabled (isIncompatible t) init.
Proof. split; reflexivity. Qed.

(** X19.  The install button of a card of the tool box is enabled exactly
    when Kjer is initialised and the tool supports the current OS (the
    stored ['userOS'], else the OS of the user agent).  Every catalogue
    tool that supports the current OS has a card, a tool of another OS has
    one only if it supports a single OS, and the list is never empty. *)
Theorem install_button_gate (reader : gmap string LSVal -> InstalledObj) (w : World) :
  (exists cs, renderToolsList reader w = Cards cs /\ cs <> []) /\
  (forall c, c ∈ cards_of (renderToolsList reader w) ->
     (exists k, (k, card_tool c) ∈ TOOLS_DATABASE) /\
     (disabled c = false <->
      Engine.isInitialized w = true /\ currentOS w ∈ osCompatibility (card_tool c)) /\
     (currentOS w ∉ osCompatibility (card_tool c) ->
      length (osCompatibility (card_tool c)) = 1)) /\
  (forall k t, (k, t) ∈ TOOLS_DATABASE -> currentOS w ∈ osCompatibility t ->
     exists c, c ∈ cards_of (renderToolsList reader w) /\ card_tool c = t).
Proof.
  pose proof (exclusive_tool_listed w) as Hne.
  assert (E : renderToolsList reader w
              = Cards ((fun kt : string * ListedTool =>
                          createToolCard reader kt.2 (Engine.isInitialized w) w)
                       <$> getToolsForCurrentOS w)).
  { unfold renderToolsList. cbv zeta.
    rewrite bool_decide_eq_false_2 by (intros E; apply Hne, nil_length_inv, E).
    reflexivity. }
  rewrite E. clear E. cbn [cards_of]. split; [|split].
  - eexists. split; [reflexivity|]. intros E. apply Hne.
    apply (f_equal length) in E. rewrite length_fmap in E.
    apply nil_length_inv, E.
  - intros c Hc. apply list_elem_of_fmap in Hc as ([k t] & -> & Hin).
    cbn [snd].
    destruct (card_fields reader t (Engine.isInitialized w) w) as [-> ->].
    apply listed_tools in Hin as [Hin Hcase].
    split; [eauto|].
    unfold Engine.isButtonDisabled.
    destruct (bool_decide (currentOS w ∈ osCompatibility (listed t))) eqn:Ec.
    + apply bool_decide_eq_true in Ec. rewrite Hcase. cbn [orb].
      split; [|tauto]. destruct (Engine.isInitialized w); cbn [negb];
        intuition congruence.
    + apply bool_decide_eq_false in Ec. destruct Hcase as [-> Hl]. cbn [orb].
      split; [|auto]. split; [discriminate|tauto].
  - intros k t Hin Hos.
    exists (createToolCard reader {| listed := t; isIncompatible := false |}
                           (Engine.isInitialized w) w).
    split; [|apply card_fields].
    apply list_elem_of_fmap. exists (k, {| listed := t; isIncompatible := false |}).
    split; [reflexivity|]. apply listed_tools. cbn [listed isIncompatible].
    split; [exact Hin|].
    rewrite bool_decide_eq_true_2 by exact Hos. reflexivity.
Qed.

Lemma install_button_gate_witness :
  exists c, c ∈ cards_of (renderToolsList getInstalledTools fresh_world) /\
            name (card_tool c) = "Wireshark" /\ disabled c = true.
Proof.
  destruct (install_button_gate getInstalledTools fresh_world) as (_ & Hgate & Hall).
  destruct (Hall "wireshark"
              (mkTool "Wireshark" "Network" ["windows"; "macos"; "linux"]
                      (mkScore 90 88 95) ["libpcap"])) as (c & Hc & Ht).
  - do 3 apply list_elem_of_further. apply list_elem_of_here.
  - apply (bool_decide_unpack _). vm_compute. exact I.
  - exists c. split; [exact Hc|]. split; [rewrite Ht; reflexivity|].
    destruct (Hgate c Hc) as (_ & Hd & _).
    destruct (disabled c); [reflexivity|].
    destruct Hd as [Hd _]. destruct (Hd eq_refl) as [Hi _]. vm_compute in Hi. discriminate Hi.
Defined.

(** ** The status filter *)

Lemma no_key_is_a_name :
  Forall (fun kt : string * Tool =>
            kt.1 ∉ map (fun kt : string * Tool => name kt.2) TOOLS_DATABASE)
         TOOLS_DATABASE.
Proof. apply (bool_decide_unpack _). vm_compute. exact I. Qed.

Lemma no_key_installed (ls : gmap string LSVal) :
  Forall (fun kt : string * Tool => ¬ is_Some (getInstalledTools ls !! kt.1)) TOOLS_DATABASE.
Proof.
  eapply Forall_impl; [apply no_key_is_a_name|].
  intros [k t] Hk. cbn [fst] in *. rewrite getInstalledTools_cases.
  destruct (bool_decide _).
  - rewrite all_installed_lookup. exact Hk.
  - rewrite lookup_empty. intros [? ?]. discriminate.
Qed.

Lemma filter_none {A} (P : A -> Prop) `{forall x, Decision (P x)} (l : list A) :
  Forall (fun x => ¬ P x) l -> filter P l = [].
Proof.
  induction 1 as [|x l Hx _ IH]; [reflexivity|].
  rewrite filter_cons_False by exact Hx. exact IH.
Qed.

Lemma filter_every {A} (P : A -> Prop) `{forall x, Decision (P x)} (l : list A) :
  Forall P l -> filter P l = l.
Proof.
  induction 1 as [|x l Hx _ IH]; [reflexivity|].
  rewrite filter_cons_True by exact Hx. rewrite IH. reflexivity.
Qed.

(** X20.  The status filter of the tool box does not follow the installed
    tools.  It looks the catalogue keys up in an object that
    [getInstalledTools] keys by tool names, and no key of the catalogue is
    a tool name; so, once Kjer is initialised, "installed" always ends in
    the notice "No installed tools." and "available" always lists the whole
    catalogue, whatever [localStorage] holds.  Before the initialisation
    both end in the request to initialise. *)
Theorem status_filter_ignores_installation (w : World) :
  (Engine.isInitialized w = true ->
   filterToolsByStatus getInstalledTools "installed" w = Notice "No installed tools." /\
   card_tool <$> cards_of (filterToolsByStatus getInstalledTools "available" w)
     = snd <$> TOOLS_DATABASE) /\
  (Engine.isInitialized w = false ->
   filterToolsByStatus getInstalledTools "installed" w
     = Notice "Please initialize Kjer to use filters" /\
   filterToolsByStatus getInstalledTools "available" w
     = Notice "Please initialize Kjer to use filters").
Proof.
  unfold filterToolsByStatus. cbv zeta. split; intros ->; cbn [negb andb orb].
  - rewrite (bool_decide_eq_true_2 ("installed" = "installed")) by reflexivity.
    rewrite (bool_decide_eq_false_2 ("available" = "installed")) by discriminate.
    rewrite (bool_decide_eq_true_2 ("available" = "available")) by reflexivity.
    rewrite (filter_none _ _ (no_key_installed (localStorage w))).
    rewrite (filter_every _ _ (no_key_installed (localStorage w))).
    split; [reflexivity|].
    rewrite bool_decide_eq_false_2 by discriminate.
    cbn [cards_of]. rewrite <- list_fmap_compose. reflexivity.
  - rewrite (bool_decide_eq_true_2 ("installed" = "installed")) by reflexivity.
    rewrite (bool_decide_eq_true_2 ("available" = "available")) by reflexivity.
    rewrite orb_true_r. split; reflexivity.
Qed.

Lemma status_filter_ignores_installation_witness :
  (forall k t, (k, t) ∈ TOOLS_DATABASE ->
     is_Some (getInstalledTools (localStorage (exec initializeKjer equipped_world)) !! name t)) /\
  filterToolsByStatus getInstalledTools "installed" (exec initializeKjer equipped_world)
    = Notice "No installed tools.".
Proof.
  split.
  - intros k t Hin.
    rewrite getInstalledTools_cases, bool_decide_eq_true_2 by (vm_compute; reflexivity).
    apply all_installed_lookup. apply list_elem_of_fmap. exists (k, t). auto.
  - apply (status_filter_ignores_installation (exec initializeKjer equipped_world)).
    vm_compute. reflexivity.
Defined.

(** ** A failed install *)

Lemma enqueue_toast_Permutation (t : ToastTimer) (q : list ToastTimer) :
  enqueue_toast t q ≡ₚ q ++ [t].
Proof.
  induction q as [|h q IH]; [reflexivity|].
  cbn [enqueue_toast]. destruct (_ <? _)%Z.
  - change (t :: h :: q) with ([t] ++ (h :: q)). apply Permutation_app_comm.
  - cbn [app]. rewrite IH. reflexivity.
Qed.

Section FailedInstall.

Variable reader : gmap string LSVal -> InstalledObj.

(** X21.  An install or uninstall that the backend does not confirm (the
    ['notifications'] setting being as the page saved it; the two halves
    of the call, before and after the wait for the backend, taken
    together).  Unless the notifications are switched off the call shows
    two toasts, the one that announces the attempt and the one that
    reports the failure, and each sets its timer.  The Activity Log gets
    an error entry.  Nothing else changes: [localStorage] (so the
    installed tools), the files, the callbacks of the engine that are
    pending and the scan results are as before.  Without the bridge no
    install is ever confirmed. *)
Theorem failed_install_changes_no_storage (toolName : string)
    (reply : option Engine.BackendResult) (w : World) :
  setting_saved w ->
  (electronAPI (host w) = false -> Engine.success (Engine.callBackend reply w) = false) /\
  (Engine.success (Engine.callBackend reply w) = false ->
   let w' := exec (Engine.installTool reader toolName reply) w in
   localStorage w' = localStorage w /\ disk w' = disk w /\ timers w' = timers w /\
   scans w' = scans w /\ KjerLastScanResults w' = KjerLastScanResults w /\
   a_level <$> head (activity w') = Some LError /\
   if item_is "notifications" "false" w
   then notifications w' = notifications w /\ toast_timers w' = toast_timers w
   else exists started failed,
     notifications w' = notifications w ++ [started; failed] /\
     toast_task <$> toast_timers w'
     ≡ₚ (toast_task <$> toast_timers w) ++ [ToastExit started; ToastExit failed]).
Proof.
  intros _. split.
  - intros Hapi. unfold Engine.callBackend. rewrite Hapi. reflexivity.
  - intros Hf w'. subst w'. unfold exec, Engine.installTool. cbv zeta. rewrite Hf.
    assert (K : forall (m : M unit),
      keeps (fun w => (localStorage w, disk w, timers w, scans w, KjerLastScanResults w)) m ->
      post m w (fun _ w' => a_level <$> head (activity w') = Some LError /\
        if item_is "notifications" "false" w
        then notifications w' = notifications w /\ toast_timers w' = toast_timers w
        else exists started failed,
          notifications w' = notifications w ++ [started; failed] /\
          toast_task <$> toast_timers w'
          ≡ₚ (toast_task <$> toast_timers w) ++ [ToastExit started; ToastExit failed]) ->
      localStorage (m w).2 = localStorage w /\ disk (m w).2 = disk w /\
      timers (m w).2 = timers w /\ scans (m w).2 = scans w /\
      KjerLastScanResults (m w).2 = KjerLastScanResults w /\
      a_level <$> head (activity (m w).2) = Some LError /\
      if item_is "notifications" "false" w
      then notifications (m w).2 = notifications w /\ toast_timers (m w).2 = toast_timers w
      else exists started failed,
        notifications (m w).2 = notifications w ++ [started; failed] /\
        toast_task <$> toast_timers (m w).2
        ≡ₚ (toast_task <$> toast_timers w) ++ [ToastExit started; ToastExit failed]).
    { intros m Hk Hp. specialize (Hk w). cbn beta in Hk.
      injection Hk as -> -> -> -> ->. repeat split; apply Hp. }
    destruct (bool_decide _); apply K; try (frame; fail).
    all: unfold showNotification, logActivity, ActivityLog.add; munfold;
      unfold post, item_is; cbn -[unshift_capped enqueue_toast];
      destruct (bool_decide (localStorage w !! "notifications" = Some (LStr "false"))) eqn:E;
      cbn -[unshift_capped enqueue_toast]; rewrite ?E; cbn -[unshift_capped enqueue_toast];
      (split; [unfold ActivityLog.maxEntries; rewrite head_unshift_capped; reflexivity|]).
    all: try (split; reflexivity).
    all: eexists _, _; (split; [rewrite <- app_assoc; reflexivity|]);
      rewrite !enqueue_toast_Permutation, !fmap_app, <- app_assoc; reflexivity.
Qed.

End FailedInstall.

Lemma failed_install_changes_no_storage_witness :
  localStorage (exec (installTool "ClamAV" None) fresh_world) = localStorage fresh_world /\
  length (notifications (exec (installTool "ClamAV" None) fresh_world)) = 2.
Proof.
  destruct (failed_install_changes_no_storage getInstalledTools "ClamAV" None fresh_world
              (or_introl eq_refl)) as [_ H].
  destruct (H eq_refl) as (Hls & _ & _ & _ & _ & _ & Htoasts).
  split; [exact Hls|].
  destruct Htoasts as (started & failed & Hn & _). unfold installTool. rewrite Hn. reflexivity.
Defined.

(** ** Which OS the application settles on *)

Lemma truthy_Some (a : option string) (s : string) :
  Engine.truthy a = Some s -> s <> "".
Proof.
  unfold Engine.truthy, Engine.first_truthy. destruct a as [x|]; [|discriminate].
  destruct (decide (x = "")); [discriminate|]. intros [= <-]. assumption.
Qed.

Lemma getItem_insert (k text : string) (w : World) :
  getItem k (with_localStorage (<[k := LStr text]>) w) = Some text.
Proof. exact (getItem_setItem k text w). Qed.

Lemma or_else_Some (s b : string) : s <> "" -> or_else (Some s) b = s.
Proof. intros H. unfold or_else. destruct (decide (s = "")); congruence. Qed.

Lemma installer_os_nonempty (w : World) (o : string) :
  installer_os w = Some o -> o <> "".
Proof.
  unfold installer_os. destruct (electronAPI _); [|discriminate].
  destruct (install_state_json _); try discriminate. apply truthy_Some.
Qed.

Lemma chosen_os_nonempty (w : World) : chosen_os w <> "".
Proof.
  unfold chosen_os. destruct (installer_os w) as [o|] eqn:Ei; cbn [default].
  - eapply installer_os_nonempty, Ei.
  - unfold or_else. destruct (getItem "userOS" w) as [s|]; [|apply detectOS_nonempty].
    destruct (decide (s = "")); [apply detectOS_nonempty|assumption].
Qed.

Lemma keeps_setItem_os (k text : string) :
  k <> "userOS" -> keeps os_view (setItem k text).
Proof.
  intros H1 w. unfold os_view. cbn. rewrite lookup_insert_ne by assumption. reflexivity.
Qed.

Lemma keeps_removeItem_os (k : string) :
  k <> "userOS" -> keeps os_view (removeItem k).
Proof.
  intros H1 w. unfold os_view. cbn. rewrite lookup_delete_ne by assumption. reflexivity.
Qed.

Ltac os_frame :=
  repeat first
    [ apply keeps_setItem_os; discriminate
    | apply keeps_removeItem_os; discriminate
    | frame_step ].

Lemma os_view_eq (w w' : World) :
  os_view w' = os_view w ->
  getItem "userOS" w' = getItem "userOS" w /\ host w' = host w.
Proof. unfold os_view, getItem. intros [= -> ->]. auto. Qed.

Lemma load_os_tail (w5 : World) (chosen : string) :
  getItem "userOS" w5 = Some chosen ->
  post (hasKey ← get (fun w => bool_decide (or_else (getItem "kterLicenseKey" w) "" ≠ ""));
        (if hasKey : bool then mret tt
         else
           cached ← get (fun w => if electronAPI (host w)
                                  then license_key_json (disk w) else None);
           match cached with
           | Some (key, type) =>
               if bool_decide (key = "") then mret tt
               else
                 setItem "kterLicenseKey" key ;;
                 (if bool_decide (type = "") then mret tt
                  else setItem "kterLicenseType" type) ;;
                 setItem "kterActivated" "true" ;;
                 logActivity "License key restored from saved state" LInfo "" false
           | None => mret tt
           end) ;;
        get (getItem "userOS")) w5
       (fun res w' => res = Some chosen /\ getItem "userOS" w' = Some chosen).
Proof.
  intros H5. mstep. mstep. mstep.
  apply (post_keeps (fun w => localStorage w !! "userOS")); [frame|].
  intros _ w6 E6. mstep. unfold getItem in *. rewrite E6. auto.
Qed.

Lemma load_os_post (w : World) :
  post Engine.loadInstallStateIntoApp w (fun res w' =>
    res = Some (chosen_os w) /\ getItem "userOS" w' = Some (chosen_os w)).
Proof.
  unfold Engine.loadInstallStateIntoApp.
  mstep. mstep.
  match goal with |- post (_ ≫= ?k) _ ?Q =>
    assert (Hrest : forall w2,
              host w2 = host w ->
              getItem "userOS" w2
                = match installer_os w with Some o => Some o | None => getItem "userOS" w end ->
              post (k tt) w2 Q) end.
  { intros w2 Hh Hu. cbv beta.
    apply post_bind.
    apply (post_keeps os_view); [os_frame|].
    intros vf w3 E3. apply post_bind.
    apply (post_keeps os_view); [os_frame|].
    intros _ w4 E4.
    apply os_view_eq in E3 as [Hu3 Hh3]. apply os_view_eq in E4 as [Hu4' Hh4'].
    assert (Hu4 : getItem "userOS" w4 = getItem "userOS" w2) by congruence.
    assert (Hh4 : host w4 = host w) by congruence.
    assert (Hdet : Engine.detectOS w4 = Engine.detectOS w)
      by (unfold Engine.detectOS; rewrite Hh4; reflexivity).
    mstep. mstep. apply post_bind.
    case_bool_decide as Hos.
    - mstep. apply load_os_tail. rewrite Hu4, Hu. unfold chosen_os.
      destruct (installer_os w) as [o|]; [reflexivity|]. cbn [default].
      rewrite Hu4, Hu in Hos. apply or_else_nonempty in Hos as (s & Hs & Hs').
      rewrite Hs, (or_else_Some s _ Hs'). reflexivity.
    - mstep. mstep. mstep. apply load_os_tail. rewrite getItem_insert. f_equal.
      rewrite Hu4, Hu in Hos. unfold chosen_os. rewrite Hdet.
      destruct (installer_os w) as [o|] eqn:Ei.
      + exfalso.
        rewrite (or_else_Some o "" (installer_os_nonempty _ _ Ei)) in Hos.
        exact (installer_os_nonempty _ _ Ei Hos).
      + cbn [default]. unfold or_else in *.
        destruct (getItem "userOS" w) as [s|]; [|reflexivity].
        destruct (decide (s = "")); [reflexivity|congruence]. }
  apply post_bind.
  unfold Engine.getInstallState, installer_os in *.
  destruct (electronAPI (host w)) eqn:Eapi;
    cbn [MainProcess.state MainProcess.success];
    [|mstep; apply Hrest; reflexivity].
  unfold MainProcess.read_install_state.
  destruct (install_state_json (disk w)) as [| |f] eqn:Ef;
    cbn [MainProcess.state MainProcess.success MainProcess.s_os MainProcess.initialized].
  - apply (post_keeps os_view);
      [destruct (initialized_flag (disk w));
       cbn [MainProcess.s_os MainProcess.initialized Engine.truthy Engine.first_truthy];
       os_frame|].
    intros _ w1 E1. apply os_view_eq in E1 as [Hu1 Hh1]. apply Hrest; assumption.
  - apply (post_keeps os_view);
      [destruct (initialized_flag (disk w));
       cbn [MainProcess.s_os MainProcess.initialized Engine.truthy Engine.first_truthy];
       os_frame|].
    intros _ w1 E1. apply os_view_eq in E1 as [Hu1 Hh1]. apply Hrest; assumption.
  - destruct (Engine.truthy (MainProcess.os f)) as [o|] eqn:Eo.
    + apply post_bind. apply post_bind. mstep.
      apply (post_keeps os_view); [os_frame|].
      intros _ wy Ey. apply os_view_eq in Ey as [Huy Hhy].
      apply (post_keeps os_view); [os_frame|].
      intros _ wz Ez. apply os_view_eq in Ez as [Huz Hhz].
      apply Hrest; [rewrite Hhz, Hhy; reflexivity|].
      rewrite Huz, Huy. apply getItem_insert.
    + apply (post_keeps os_view); [os_frame|].
      intros _ w1 E1. apply os_view_eq in E1 as [Hu1 Hh1]. apply Hrest; assumption.
Qed.

(** X22.  The OS the application settles on when the page loads.  The OS the
    installer recorded in [install_state.json] wins whenever the renderer
    can read it; otherwise a non-empty ['userOS'] already stored is kept;
    otherwise the OS is guessed from the user agent.  The function returns
    that OS, stores it under ['userOS'], and it is never the empty text. *)
Theorem load_os_precedence (w : World) :
  let chosen :=
    match installer_os w with
    | Some os => os
    | None => or_else (getItem "userOS" w) (Engine.detectOS w)
    end in
  (Engine.loadInstallStateIntoApp w).1 = Some chosen /\
  getItem "userOS" (exec Engine.loadInstallStateIntoApp w) = Some chosen /\
  chosen <> "".
Proof.
  intros chosen.
  assert (E : chosen = chosen_os w).
  { subst chosen. unfold chosen_os. destruct (installer_os w); reflexivity. }
  rewrite E. destruct (load_os_post w) as [H1 H2].
  split; [exact H1|]. split; [exact H2|]. apply chosen_os_nonempty.
Qed.

(** ** Writing the install state *)

(** X23.  What ['write-install-state'] writes, ['read-install-state'] reads
    back, and the page picks it up.  Unless the state file is unparseable,
    the write succeeds; the properties the update lists are replaced, the
    others are kept; and an OS written this way is the ['userOS'] of the
    application after the next load.  An unparseable file makes the write
    fail and stays as it is. *)
Theorem written_state_is_read_back (state : StateUpdate) (w : World) :
  let result := write_install_state state (install_state_json (disk w)) in
  let w' := with_disk (with_install_state result.1) w in
  (install_state_json (disk w) = MainProcess.NotJson ->
   written result.2 = false /\ result.1 = MainProcess.NotJson) /\
  (install_state_json (disk w) <> MainProcess.NotJson ->
   written result.2 = true /\
   exists merged,
     MainProcess.read_install_state result.1 (initialized_flag (disk w))
       = {| MainProcess.success := true;
            MainProcess.state :=
              Some {| MainProcess.s_os := MainProcess.os merged;
                      MainProcess.s_distro := MainProcess.distro merged;
                      MainProcess.s_installed_at := MainProcess.installed_at merged;
                      MainProcess.s_install_path := MainProcess.install_path merged;
                      MainProcess.initialized := initialized_flag (disk w) |};
            MainProcess.error := None |} /\
     (forall v, u_os state = Some v -> MainProcess.os merged = v) /\
     (forall v, u_distro state = Some v -> MainProcess.distro merged = v) /\
     (forall f, install_state_json (disk w) = MainProcess.Holds f ->
        (u_os state = None -> MainProcess.os merged = MainProcess.os f) /\
        (u_distro state = None -> MainProcess.distro merged = MainProcess.distro f) /\
        (u_installed_at state = None ->
         MainProcess.installed_at merged = MainProcess.installed_at f) /\
        (u_install_path state = None ->
         MainProcess.install_path merged = MainProcess.install_path f)) /\
     (forall os, u_os state = Some (Some os) -> os <> "" ->
        electronAPI (host w) = true ->
        getItem "userOS" (exec Engine.loadInstallStateIntoApp w') = Some os)).
Proof.
  intros result w'. subst result w'. split.
  - intros ->. split; reflexivity.
  - intros Hne.
    assert (H : exists existing,
              write_install_state state (install_state_json (disk w))
              = (MainProcess.Holds (merge_state existing state),
                 {| written := true; write_error := None |}) /\
              forall f, install_state_json (disk w) = MainProcess.Holds f -> existing = f).
    { destruct (install_state_json (disk w)) as [| |f]; [| contradiction |].
      - eexists. split; [reflexivity|]. discriminate.
      - exists f. split; [reflexivity|]. intros ? [= <-]. reflexivity. }
    destruct H as (existing & -> & Hex). cbn [fst snd written].
    split; [reflexivity|]. exists (merge_state existing state).
    split; [reflexivity|].
    split; [intros v Hv; cbn; rewrite Hv; reflexivity|].
    split; [intros v Hv; cbn; rewrite Hv; reflexivity|].
    split.
    + intros f Hf. rewrite (Hex f Hf).
      repeat split; intros Hu; cbn; rewrite Hu; reflexivity.
    + intros os Hos Hnon Hapi.
      destruct (load_os_post
                  (with_disk (with_install_state
                                (MainProcess.Holds (merge_state existing state))) w))
        as [_ H2].
      unfold exec. rewrite H2. f_equal.
      unfold chosen_os, installer_os. cbn [host with_disk disk with_install_state
        install_state_json merge_state MainProcess.os].
      rewrite Hapi, Hos. cbn [spread]. unfold Engine.truthy, Engine.first_truthy.
      destruct (decide (os = "")); [contradiction|reflexivity].
Qed.

Lemma written_state_is_read_back_witness :
  getItem "userOS"
    (exec Engine.loadInstallStateIntoApp
       (with_disk (with_install_state
          (write_install_state
             {| u_os := Some (Some "windows"); u_distro := None;
                u_installed_at := None; u_install_path := None |}
             MainProcess.Missing).1) fresh_world))
    = Some "windows".
Proof.
  destruct (written_state_is_read_back
              {| u_os := Some (Some "windows"); u_distro := None;
                 u_installed_at := None; u_install_path := None |} fresh_world)
    as [_ H].
  destruct H as (_ & merged & _ & _ & _ & _ & H); [discriminate|].
  apply H; [reflexivity|discriminate|reflexivity].
Defined.

(** ** The timetable of a defence run *)

Lemma defender_timers_ascending (run : nat) (ph : DefPhase) (tools : list ToolView)
    (step at_ : Z) :
  (0 < step)%Z ->
  ascending at_ (at_ + step * Z.of_nat (length tools)) (defender_timers run ph tools step at_).
Proof.
  intros Hs. revert at_.
  induction tools as [|t tools IH]; intros at_; cbn [defender_timers ascending length].
  - lia.
  - split; [cbn; lia|]. cbn [due].
    eapply ascending_weaken; [| |apply IH]; lia.
Qed.

Lemma phase_plan_timers_ascending (run : nat) (p : PhasePlan) (at_ : Z) :
  (0 < plan_step p)%Z ->
  ascending at_ (at_ + phase_span p) (phase_plan_timers run p at_).
Proof.
  intros Hs. unfold phase_plan_timers, phase_span. destruct (engaged p); cbn [ascending].
  - split; [cbn; lia|]. cbn [due].
    eapply ascending_weaken; [| |apply defender_timers_ascending; exact Hs]; lia.
  - lia.
Qed.

Lemma plan_timers_ascending (run : nat) (plan : list PhasePlan) (at_ : Z) :
  Forall (fun p => (0 < plan_step p)%Z) plan ->
  ascending at_ (at_ + plan_span plan) (plan_timers run plan at_).
Proof.
  intros Hs. revert at_. induction Hs as [|p plan Hp _ IH]; intros at_;
    cbn [plan_timers plan_span ascending].
  - lia.
  - eapply ascending_app; [apply phase_plan_timers_ascending; exact Hp|].
    eapply ascending_weaken; [| |apply IH]; lia.
Qed.

Lemma schedule_defenders_exact (run : nat) (ph : DefPhase) (step : Z) (tools : list ToolView) :
  (0 < step)%Z ->
  forall (d : Z) (w : World),
    late_enough (clock w + d) (timers w) ->
    Engine.schedule_defenders run ph tools step d w
    = ((d + step * Z.of_nat (length tools))%Z,
       with_timers (fun _ => timers w ++ defender_timers run ph tools step (clock w + d)) w).
Proof.
  intros Hs. induction tools as [|tool tools IH]; intros d w Hq.
  - cbn. rewrite app_nil_r, with_timers_id. f_equal. lia.
  - cbn [Engine.schedule_defenders]. unfold mbind, M_bind, setTimeout, modify.
    set (w1 := with_timers _ w).
    assert (Hw1 : timers w1 = timers w ++ [{| due := clock w + d; task := TDefend run ph tool |}]).
    { subst w1. cbn. apply enqueue_last. exact Hq. }
    assert (Hc1 : clock w1 = clock w) by reflexivity.
    rewrite IH.
    + rewrite Hw1, Hc1. subst w1. rewrite with_timers_twice, <- app_assoc.
      replace (clock w + (d + step))%Z with (clock w + d + step)%Z by lia.
      f_equal. cbn [length]. lia.
    + rewrite Hw1, Hc1.
      apply Forall_app. split.
      * eapply late_enough_weaken; [|exact Hq]. lia.
      * repeat constructor. cbn. lia.
Qed.

Lemma schedule_defense_phase_exact (run : nat) (p : PhasePlan) :
  (0 < plan_step p)%Z ->
  forall (d : Z) (w : World),
    late_enough (clock w + d) (timers w) ->
    Engine.schedule_defense_phase run (plan_phase p) (plan_title p) (plan_tools p)
      (plan_triggered p) (plan_step p) d w
    = ((d + phase_span p)%Z,
       with_timers (fun _ => timers w ++ phase_plan_timers run p (clock w + d)) w).
Proof.
  intros Hs d w Hq.
  unfold Engine.schedule_defense_phase, phase_span, phase_plan_timers, engaged.
  destruct ((0 <? length (plan_tools p))%nat && plan_triggered p).
  - unfold mbind at 1, M_bind at 1, setTimeout, modify.
    set (w1 := with_timers _ w).
    assert (Hw1 : timers w1
                  = timers w ++ [{| due := clock w + d; task := TSection (plan_title p) |}]).
    { subst w1. cbn. apply enqueue_last. exact Hq. }
    assert (Hc1 : clock w1 = clock w) by reflexivity.
    unfold mbind, M_bind.
    rewrite schedule_defenders_exact; [|exact Hs|].
    2:{ rewrite Hw1, Hc1. apply Forall_app. split.
        - eapply late_enough_weaken; [|exact Hq]. lia.
        - repeat constructor. cbn. lia. }
    unfold mret, M_ret. rewrite Hw1, Hc1. subst w1.
    rewrite with_timers_twice, <- app_assoc.
    replace (clock w + (d + 300))%Z with (clock w + d + 300)%Z by lia.
    f_equal. lia.
  - unfold mret, M_ret. rewrite app_nil_r, with_timers_id. f_equal. lia.
Qed.

Lemma schedule_plan_exact (run : nat) (plan : list PhasePlan) (rest : Z -> M unit) :
  Forall (fun p => (0 < plan_step p)%Z) plan ->
  forall (d : Z) (w : World),
    late_enough (clock w + d) (timers w) ->
    schedule_plan run plan rest d w
    = rest (d + plan_span plan)%Z
           (with_timers (fun _ => timers w ++ plan_timers run plan (clock w + d)) w).
Proof.
  induction 1 as [|p plan Hp Hs IH]; intros d w Hq.
  - cbn. rewrite app_nil_r, with_timers_id. f_equal. lia.
  - cbn [schedule_plan]. unfold mbind, M_bind.
    rewrite (schedule_defense_phase_exact run p Hp d w Hq).
    set (w1 := with_timers _ w).
    assert (Hw1 : timers w1 = timers w ++ phase_plan_timers run p (clock w + d)) by reflexivity.
    assert (Hc1 : clock w1 = clock w) by reflexivity.
    rewrite IH.
    + rewrite Hw1, Hc1. subst w1. rewrite with_timers_twice, <- app_assoc.
      cbn [plan_timers plan_span].
      replace (clock w + (d + phase_span p))%Z with (clock w + d + phase_span p)%Z by lia.
      f_equal. lia.
    + rewrite Hw1, Hc1. apply Forall_app. split.
      * eapply late_enough_weaken; [|exact Hq].
        pose proof (ascending_bound _ _ _ (phase_plan_timers_ascending run p 0 Hp)). lia.
      * eapply late_enough_weaken;
          [|apply (ascending_late (clock w + d)), phase_plan_timers_ascending; exact Hp].
        lia.
Qed.

Lemma defense_plan_steps (reader : gmap string LSVal -> InstalledObj) (w : World) :
  Forall (fun p => (0 < plan_step p)%Z) (defense_plan reader w).
Proof.
  unfold defense_plan, defense_phases. cbn [map].
  repeat (apply Forall_cons_2; [cbn [plan_step phase_step]; lia|]). apply Forall_nil_2.
Qed.

Lemma plan_timers_tasks_one (run : nat) (ph : DefPhase) (tools : list ToolView)
    (step at_ : Z) :
  map task (defender_timers run ph tools step at_) = map (TDefend run ph) tools.
Proof.
  revert at_. induction tools as [|t tools IH]; intros at_; [reflexivity|].
  cbn. rewrite IH. reflexivity.
Qed.

Section DefenseTimetable.
Variable reader : gmap string LSVal -> InstalledObj.

(** X24.  The timers a defence run sets, when it is started while no
    callback of the engine is pending and the ['notifications'] setting is
    as the page saved it.  The run's own callbacks: the header of the
    first engaged phase is due 400 ms after the call; within a phase the
    tools follow the header by 300 ms and each other by the step of the
    phase (450 ms for file integrity and SIEM, 500 ms for the others); the
    next engaged phase starts 200 ms after the slot of the last tool; the
    summary is due 400 ms after the last phase; their due times increase
    strictly, so they fire in the order set.  Beside them the call sets
    one more timer, due 4000 ms after the call: that of the toast 'Smart
    Defense activated', which is shown unless the notifications are
    switched off. *)
Theorem defense_timetable (w : World) :
  idle w ->
  setting_saved w ->
  reader (localStorage w) <> ∅ ->
  let w1 := exec (Engine.activateSmartDefense reader) w in
  let run := length (defenses w) in
  let plan := defense_plan reader w in
  let finish := (clock w + 400 + plan_span plan + 400)%Z in
  timers w1 = plan_timers run plan (clock w + 400)
              ++ [{| due := finish; task := TDefenseSummary run |}] /\
  (forall i j a b, i < j -> timers w1 !! i = Some a -> timers w1 !! j = Some b ->
                   (due a < due b)%Z) /\
  (notifications w1, toast_timers w1)
  = after_toasts ["Smart Defense activated — watch the Activity Monitor..."] w.
Proof.
  intros Hidle _ Hinst w1 run plan finish.
  assert (Hasc : ascending (clock w + 400) (clock w + 400 + plan_span plan)
                   (plan_timers run plan (clock w + 400))).
  { apply plan_timers_ascending, defense_plan_steps. }
  assert (Htimers : timers w1 = plan_timers run plan (clock w + 400)
                                ++ [{| due := finish; task := TDefenseSummary run |}]).
  { subst w1. unfold exec, Engine.activateSmartDefense. cbv beta zeta.
    rewrite (bool_decide_eq_false_2 (size (reader (localStorage w)) = 0))
      by (rewrite map_size_empty_iff; exact Hinst).
    cbv iota.
    match goal with |- context [snd (?m w)] => set (body := m) end.
    apply (post_exec body w (fun w1 =>
      timers w1 = plan_timers run plan (clock w + 400)
                  ++ [{| due := finish; task := TDefenseSummary run |}])).
    subst body.
    mskip. mskip. mstep. mstep. mskip. mskip. mskip. mskip. mskip.
    match goal with |- post _ ?wl _ =>
      assert (E : essence wl = essence w) by congruence;
      generalize dependent wl end.
    intros wl _ E. apply essence_eq in E.
    destruct E as (Els & Est & Esc & Edf & Etm & Ecl & Edk & Eho).
    apply post_bind. unfold post at 1. cbn [Engine.new_defense fst snd].
    rewrite Edf. fold run.
    set (w2 := with_defenses _ wl).
    assert (Ht2 : timers w2 = []) by (subst w2; cbn; rewrite Etm; exact Hidle).
    assert (Hc2 : clock w2 = clock w) by (subst w2; cbn; exact Ecl).
    change (post (schedule_plan run plan
                    (fun delay => setTimeout (TDefenseSummary run) (delay + 400)) 400)
                 w2
                 (fun _ w1 => timers w1 = plan_timers run plan (clock w + 400)
                     ++ [{| due := finish; task := TDefenseSummary run |}])).
    unfold post.
    rewrite (schedule_plan_exact run plan _ (defense_plan_steps reader w) 400 w2)
      by (rewrite Ht2; constructor).
    rewrite Ht2, Hc2. cbn [app]. unfold setTimeout, modify. cbn [snd].
    change (timers (with_timers ?f ?x)) with (f (timers x)). cbv beta.
    change (timers (with_timers ?f ?x)) with (f (timers x)). cbv beta.
    change (clock (with_timers ?f ?x)) with (clock x). rewrite Hc2.
    rewrite enqueue_last.
    - replace (clock w + (400 + plan_span plan + 400))%Z with finish
        by (subst finish; lia).
      reflexivity.
    - eapply late_enough_weaken; [|apply (ascending_late (clock w + 400)), Hasc].
      cbn [due]. lia. }
  split; [exact Htimers|]. split; [|exact (defense_toast reader w Hinst)].
  rewrite Htimers. intros i j a b.
  apply (ascending_sorted (clock w + 400) (finish + 1)).
  eapply ascending_app; [exact Hasc|].
  clearbody plan. subst finish. cbn [ascending due].
  pose proof (ascending_bound _ _ _ Hasc). lia.
Qed.

End DefenseTimetable.

Lemma defense_timetable_witness :
  due <$> last (timers (exec activateSmartDefense equipped_world)) = Some 12100%Z /\
  toast_due <$> toast_timers (exec activateSmartDefense equipped_world) = [4000%Z].
Proof.
  unfold activateSmartDefense.
  destruct (defense_timetable getInstalledTools equipped_world eq_refl
              (or_introl eq_refl) equipped_world_installed)
    as (Htimers & _ & Htoast).
  rewrite Htimers, last_snoc, (pair_eq_snd _ _ _ Htoast).
  split; vm_compute; reflexivity.
Defined.
